(** * OpenRouter gateway core: credential pool, model resolver, protocol shims

    A shallow embedding of the TypeScript sources
      - src/shared/key-management/openrouter/model-resolver.ts ([Resolver])
      - src/shared/key-management/openrouter/provider.ts       ([Provider])
      - unnamed/part_002, the OpenRouter key checker           ([Checker])
      - unnamed/part_003, the Google AI request schema and
        transformers                                           ([GoogleAI])
      - unnamed/part_004, the OpenRouter router and its
        response transformers                                  ([Router])
      - the rest of these files ([ProviderOps], [GoogleAIMessages],
        [RouterOps]), unnamed/part_001, the whitelist generator
        ([WhitelistGenerator]) and unnamed/part_000, the pseudo QR
        generator ([PseudoQr])
    followed by the properties proved about them.

    Conventions of the embedding.
      - A JavaScript string is a [string] of 8-bit characters; [toLowerCase]
        acts on the letters A-Z and leaves every other character alone.
      - A JavaScript number is a rational or NaN ([Js.number]); timestamps
        and token counts, which the code only ever handles as integers,
        are in [Z].
      - A call that can raise returns an [Js.outcome]. *)

From Stdlib Require Import ZArith QArith Qround Lia.
From Stdlib Require Import Ascii String.
From stdpp Require Import base option list strings pretty.

Local Open Scope string_scope.

(** ** JavaScript runtime fragments *)

Module Js.

(** A computation that either returns or throws an exception (named by its
    constructor or message). *)
Inductive outcome (A : Type) : Type :=
| Ret (a : A)
| Throw (e : string).
Arguments Ret {A} a.
Arguments Throw {A} e.

Definition bind {A B} (m : outcome A) (k : A -> outcome B) : outcome B :=
  match m with
  | Ret a => k a
  | Throw e => Throw e
  end.

Notation "'let*' x ':=' m 'in' k" := (bind m (fun x => k))
  (at level 10, x pattern, m at level 100, k at level 200).

(** [Array.prototype.find] with a callback that may throw. *)
Fixpoint find {A} (p : A -> outcome bool) (l : list A) : outcome (option A) :=
  match l with
  | [] => Ret None
  | x :: l' =>
      let* b := p x in
      if b then Ret (Some x) else find p l'
  end.

(** [Array.prototype.filter] with a callback that may throw. *)
Fixpoint filter {A} (p : A -> outcome bool) (l : list A) : outcome (list A) :=
  match l with
  | [] => Ret []
  | x :: l' =>
      let* b := p x in
      let* r := filter p l' in
      Ret (if b then x :: r else r)
  end.

(** *** Strings *)

Definition lower_ascii (c : ascii) : ascii :=
  let n := nat_of_ascii c in
  if (65 <=? n)%nat && (n <=? 90)%nat then ascii_of_nat (n + 32) else c.

Fixpoint toLowerCase (s : string) : string :=
  match s with
  | EmptyString => EmptyString
  | String c s' => String (lower_ascii c) (toLowerCase s')
  end.

(** [s.startsWith(p)] *)
Definition startsWith (s p : string) : bool := String.prefix p s.

(** [s.endsWith(p)] *)
Fixpoint endsWith (s p : string) : bool :=
  if String.eqb s p then true
  else match s with
       | EmptyString => false
       | String _ s' => endsWith s' p
       end.

(** [s.includes(sub)] *)
Fixpoint includes (s sub : string) : bool :=
  if String.prefix sub s then true
  else match s with
       | EmptyString => false
       | String _ s' => includes s' sub
       end.

(** [s.split(sep)] for a one-character separator: always at least one
    piece. *)
Fixpoint split (sep : ascii) (s : string) : list string :=
  match s with
  | EmptyString => [EmptyString]
  | String c s' =>
      if Ascii.eqb c sep then EmptyString :: split sep s'
      else match split sep s' with
           | [] => [String c EmptyString]
           | piece :: rest => String c piece :: rest
           end
  end.

(** [s.replace(/[...]/g, "")]: drop every character of a class. *)
Fixpoint remove_chars (drop : ascii -> bool) (s : string) : string :=
  match s with
  | EmptyString => EmptyString
  | String c s' =>
      if drop c then remove_chars drop s' else String c (remove_chars drop s')
  end.

Definition is_digit (c : ascii) : bool :=
  let n := nat_of_ascii c in (48 <=? n)%nat && (n <=? 57)%nat.

(** White space as [String.prototype.trim] sees it, within ASCII. *)
Definition is_space (c : ascii) : bool :=
  let n := nat_of_ascii c in
  ((9 <=? n)%nat && (n <=? 13)%nat) || (n =? 32)%nat.

Fixpoint trimStart (s : string) : string :=
  match s with
  | EmptyString => EmptyString
  | String c s' => if is_space c then trimStart s' else s
  end.

Fixpoint trimEnd (s : string) : string :=
  match s with
  | EmptyString => EmptyString
  | String c s' =>
      match trimEnd s' with
      | EmptyString => if is_space c then EmptyString else String c EmptyString
      | t => String c t
      end
  end.

Definition trim (s : string) : string := trimEnd (trimStart s).

(** Truthiness of a string: only the empty string is falsy. *)
Definition truthy (s : string) : bool := negb (String.eqb s "").

(** [a || b] on possibly-undefined strings. *)
Definition or_else (a : option string) (b : option string) : option string :=
  match a with
  | Some s => if truthy s then a else b
  | None => b
  end.

(** *** Numbers *)

Inductive number : Type :=
| NaN
| Num (q : Q).

Definition of_Z (z : Z) : number := Num (inject_Z z).

(** [a > b], [a >= b]: false as soon as one side is NaN. *)
Definition gt (a b : number) : bool :=
  match a, b with
  | Num x, Num y => negb (Qle_bool x y)
  | _, _ => false
  end.

Definition ge (a b : number) : bool :=
  match a, b with
  | Num x, Num y => Qle_bool y x
  | _, _ => false
  end.

Definition le (a b : number) : bool := ge b a.

Definition sub (a b : number) : number :=
  match a, b with
  | Num x, Num y => Num (x - y)
  | _, _ => NaN
  end.

(** [Math.max(a, b)]: NaN if either argument is. *)
Definition max (a b : number) : number :=
  match a, b with
  | Num x, Num y => if Qle_bool x y then Num y else Num x
  | _, _ => NaN
  end.

(** [x || 0]: NaN and zero are falsy. *)
Definition or_zero (a : number) : number :=
  match a with
  | NaN => of_Z 0
  | Num x => if Qeq_bool x 0 then of_Z 0 else a
  end.

End Js.

Import Js.

(** ** model-resolver.ts *)

Module Resolver.

Record ModelMetadata : Type := {
  id : string;
  context : Z;
  max_output : option Z;
  pricing_input : string;
  pricing_output : string;
  supported_params : list string;
  default_params : list (string * string);
  is_moderated : bool
}.

(** [Record<string, ModelMetadata[]>], in the enumeration order of its
    keys. *)
Definition Whitelist : Type := list (string * list ModelMetadata).

(** [[ModelMetadata | null, string | null]] *)
Definition ResolveResult : Type := (option ModelMetadata * option string)%type.

Record Config : Type := {
  allowPaid : bool;
  allowModerated : bool
}.

Definition normalize (str : string) : string :=
  remove_chars
    (fun c => Ascii.eqb c "." || Ascii.eqb c "-" || Ascii.eqb c "/")%char
    (toLowerCase str).

(** [Object.values(whitelist).flat()] *)
Definition allModels (whitelist : Whitelist) : list ModelMetadata :=
  concat (map snd whitelist).

(** [/^o\d/] *)
Definition o_digit (s : string) : bool :=
  match s with
  | String "o"%char (String d _) => is_digit d
  | _ => false
  end.

(** The shortcut table, in the order of its keys. *)
Definition shortcuts : list (string * (string -> bool)) :=
  [ ("openai/", fun s => startsWith s "gpt" || startsWith s "codex"
                         || startsWith s "chatgpt" || o_digit s);
    ("anthropic/", fun s => startsWith s "claude");
    ("google/", fun s => startsWith s "gemini" || startsWith s "gemma");
    ("x-ai/", fun s => startsWith s "grok");
    ("deepseek/", fun s => startsWith s "deepseek");
    ("mistralai/", fun s => startsWith s "mistral");
    ("z-ai/", fun s => startsWith s "glm");
    ("amazon/", fun s => startsWith s "nova");
    ("moonshotai/", fun s => startsWith s "kimi");
    ("qwen/", fun s => includes s "qwen" || includes s "qwq") ].

Definition detectPrefix (inputLow : string) : option string :=
  match List.find (fun p => snd p inputLow) shortcuts with
  | Some p => Some (fst p)
  | None => if includes inputLow "banana" then Some "google/" else None
  end.

(** [str.split('/')[1]]; reading a method of the missing piece throws. *)
Definition second_piece (s : string) : outcome string :=
  match split "/" s with
  | _ :: name :: _ => Ret name
  | _ => Throw "TypeError"
  end.

(** The callback of the candidate filter. *)
Definition isCandidate (providerPrefix : option string) (inputLow : string)
    (m : ModelMetadata) : outcome bool :=
  if match providerPrefix with
     | Some p => negb (startsWith (id m) p)
     | None => false
     end
  then Ret false
  else
    let* name := second_piece (toLowerCase (id m)) in
    if String.eqb name inputLow || includes name inputLow then Ret true
    else if String.eqb (normalize name) (normalize inputLow) then Ret true
    else Ret false.

Definition candidatesOf (inputLow : string) (models : list ModelMetadata)
    : outcome (list ModelMetadata) :=
  Js.filter (isCandidate (detectPrefix inputLow) inputLow) models.

Definition exactSuffix (inputLow : string) (m : ModelMetadata) : outcome bool :=
  let* name := second_piece (id m) in
  Ret (String.eqb (toLowerCase name) inputLow).

Definition normalizedSuffix (inputLow : string) (m : ModelMetadata)
    : outcome bool :=
  let* name := second_piece (id m) in
  Ret (String.eqb (normalize name) (normalize inputLow)).

(** Step 2 of [resolveModel]: [Ret None] stands for the early
    [return [null, "not_found"]]. *)
Definition fuzzySearch (inputLow : string) (models : list ModelMetadata)
    : outcome (option ModelMetadata) :=
  let* candidates := candidatesOf inputLow models in
  let* exact := Js.find (exactSuffix inputLow) candidates in
  let* bestMatch :=
    match exact with
    | Some m => Ret (Some m)
    | None => Js.find (normalizedSuffix inputLow) candidates
    end in
  match bestMatch with
  | Some m => Ret (Some m)
  | None =>
      match candidates with
      | [m] => Ret (Some m)
      | _ => Ret None
      end
  end.

(** Step 3 of [resolveModel]. *)
Definition checkPolicy (foundModel : ModelMetadata) (config : Config)
    : ResolveResult :=
  let isPaid := negb (String.eqb (pricing_input foundModel) "0")
                || negb (String.eqb (pricing_output foundModel) "0") in
  if isPaid && negb (allowPaid config) then (None, Some "prohibit_paid")
  else if is_moderated foundModel && negb (allowModerated config)
  then (None, Some "prohibit_moderated")
  else (Some foundModel, None).

Definition exactMatch (inputLow : string) (models : list ModelMetadata)
    : option ModelMetadata :=
  List.find (fun m => String.eqb (toLowerCase (id m)) inputLow) models.

Definition resolveModel (userInput : string) (whitelist : Whitelist)
    (config : Config) : outcome ResolveResult :=
  let models := allModels whitelist in
  let inputLow := toLowerCase userInput in
  match exactMatch inputLow models with
  | Some foundModel => Ret (checkPolicy foundModel config)
  | None =>
      let* found := fuzzySearch inputLow models in
      match found with
      | Some foundModel => Ret (checkPolicy foundModel config)
      | None => Ret (None, Some "not_found")
      end
  end.

End Resolver.

Module ResolverTests.
Import Resolver.

Definition mk (i pin pout : string) (moderated : bool) : ModelMetadata :=
  {| id := i; context := 128000; max_output := None;
     pricing_input := pin; pricing_output := pout;
     supported_params := []; default_params := []; is_moderated := moderated |}.

Definition gpt4o := mk "openai/gpt-4o" "0.0000025" "0.00001" false.
Definition gpt4o_mini := mk "openai/gpt-4o-mini" "0.00000015" "0.0000006" false.
Definition gpt4_turbo := mk "openai/gpt-4-turbo" "0.00001" "0.00003" false.
Definition claude := mk "anthropic/claude-3.5-sonnet" "0.000003" "0.000015" true.
Definition llama_free := mk "meta-llama/llama-3-8b:free" "0" "0" false.

Definition catalogue : Whitelist :=
  [ ("OpRout_OpenAI", [gpt4o; gpt4o_mini; gpt4_turbo]);
    ("OpRout_Anthropic", [claude]);
    ("OpRout_Other", [llama_free]) ].

Definition permissive := {| allowPaid := true; allowModerated := false |}.
Definition frugal := {| allowPaid := false; allowModerated := false |}.

End ResolverTests.

(** ** provider.ts *)

Module Provider.

Inductive Tier : Type := unlimited | limited | restricted | deadkey.

#[global] Instance Tier_eq_dec : EqDecision Tier.
Proof. solve_decision. Defined.

Definition tier_eqb (a b : Tier) : bool :=
  match a, b with
  | unlimited, unlimited | limited, limited
  | restricted, restricted | deadkey, deadkey => true
  | _, _ => false
  end.

(** [OpenRouterKey], without its constant [service]. *)
Record OpenRouterKey : Type := {
  key : string;
  modelFamilies : list string;
  isDisabled : bool;
  isRevoked : bool;
  promptCount : Z;
  lastUsed : Z;
  rateLimitedAt : Z;
  rateLimitedUntil : Z;
  hash : string;
  lastChecked : Z;
  isFreeTier : bool;
  balance : number;
  creditLimit : option number;
  usage : number;
  rpm : number;
  tier : Tier;
  tokenUsage : list (string * (Z * Z))
}.

(** [Partial<OpenRouterKey>], for the fields that the callers of [update]
    set; [None] is an absent property. *)
Record PartialKey : Type := {
  p_isDisabled : option bool;
  p_isRevoked : option bool;
  p_lastChecked : option Z;
  p_isFreeTier : option bool;
  p_balance : option number;
  p_creditLimit : option (option number);
  p_usage : option number;
  p_rpm : option number;
  p_tier : option Tier
}.

Definition RATE_LIMIT_LOCKOUT : Z := 2000.
Definition KEY_REUSE_DELAY : Z := 500.

Definition set_lastUsed (v : Z) (k : OpenRouterKey) : OpenRouterKey :=
  {| key := key k; modelFamilies := modelFamilies k;
     isDisabled := isDisabled k; isRevoked := isRevoked k;
     promptCount := promptCount k; lastUsed := v;
     rateLimitedAt := rateLimitedAt k; rateLimitedUntil := rateLimitedUntil k;
     hash := hash k; lastChecked := lastChecked k;
     isFreeTier := isFreeTier k; balance := balance k;
     creditLimit := creditLimit k; usage := usage k; rpm := rpm k;
     tier := tier k; tokenUsage := tokenUsage k |}.

Definition set_rateLimitedUntil (v : Z) (k : OpenRouterKey) : OpenRouterKey :=
  {| key := key k; modelFamilies := modelFamilies k;
     isDisabled := isDisabled k; isRevoked := isRevoked k;
     promptCount := promptCount k; lastUsed := lastUsed k;
     rateLimitedAt := rateLimitedAt k; rateLimitedUntil := v;
     hash := hash k; lastChecked := lastChecked k;
     isFreeTier := isFreeTier k; balance := balance k;
     creditLimit := creditLimit k; usage := usage k; rpm := rpm k;
     tier := tier k; tokenUsage := tokenUsage k |}.

(** [Object.assign(key, { lastChecked: now, ...update })] *)
Definition assign (now : Z) (update : PartialKey) (k : OpenRouterKey)
    : OpenRouterKey :=
  {| key := key k; modelFamilies := modelFamilies k;
     isDisabled := default (isDisabled k) (p_isDisabled update);
     isRevoked := default (isRevoked k) (p_isRevoked update);
     promptCount := promptCount k; lastUsed := lastUsed k;
     rateLimitedAt := rateLimitedAt k; rateLimitedUntil := rateLimitedUntil k;
     hash := hash k;
     lastChecked := default now (p_lastChecked update);
     isFreeTier := default (isFreeTier k) (p_isFreeTier update);
     balance := default (balance k) (p_balance update);
     creditLimit := default (creditLimit k) (p_creditLimit update);
     usage := default (usage k) (p_usage update);
     rpm := default (rpm k) (p_rpm update);
     tier := default (tier k) (p_tier update);
     tokenUsage := tokenUsage k |}.

(** [this.keys.find((k) => k.hash === h)], as the position of the object
    found. *)
Definition findByHash (h : string) (keys : list OpenRouterKey)
    : option (nat * OpenRouterKey) :=
  list_find (fun k => hash k = h) keys.

(** A reference to an object of [this.keys]: its position, with the object
    as it is when the reference is taken. *)
Definition Ref : Type := (nat * OpenRouterKey)%type.

Definition refs (keys : list OpenRouterKey) : list Ref :=
  imap (fun i k => (i, k)) keys.

(** The callback of the filter for paid models. *)
Definition paidFilter (k : OpenRouterKey) : bool :=
  if tier_eqb (tier k) deadkey then false
  else if Js.gt (balance k) (of_Z 0) then true
  else if tier_eqb (tier k) unlimited then true
  else false.

Definition activeKeys (keys : list OpenRouterKey) : list Ref :=
  List.filter (fun r => negb (isDisabled r.2) && negb (isRevoked r.2))
    (refs keys).

Definition freeKeys (available : list Ref) : list Ref :=
  List.filter (fun r => negb (tier_eqb (tier r.2) deadkey)) available.

Definition paidKeys (available : list Ref) : list Ref :=
  List.filter (fun r => paidFilter r.2) available.

Definition throttle (h : string) (now : Z) (keys : list OpenRouterKey)
    : outcome (list OpenRouterKey) :=
  match findByHash h keys with
  | Some (j, k) =>
      Ret (<[j := set_rateLimitedUntil
                    (Z.max (rateLimitedUntil k) (now + KEY_REUSE_DELAY)) k]>
             keys)
  | None => Throw "TypeError"
  end.

Definition update (h : string) (upd : PartialKey) (now : Z)
    (keys : list OpenRouterKey) : outcome (list OpenRouterKey) :=
  match findByHash h keys with
  | Some (j, k) => Ret (<[j := assign now upd k]> keys)
  | None => Throw "TypeError"
  end.

Section Get.

(** [prioritizeKeys] lives in [../prioritize-keys], outside these sources:
    it reorders the array it is given. *)
Variable prioritizeKeys : list Ref -> list Ref.

(** [get(model)]. The two readings of [Date.now()], for [lastUsed] and
    inside [throttle], are [now_used] and [now_throttle]. The result is
    the copy handed to the caller and the store as the call leaves it. *)
Definition get (model : string) (now_used now_throttle : Z)
    (keys : list OpenRouterKey)
    : outcome (OpenRouterKey * list OpenRouterKey) :=
  let availableKeys := activeKeys keys in
  if (length availableKeys =? 0)%nat
  then Throw "PaymentRequiredError: No OpenRouter keys available."
  else
    let isFreeModel := endsWith model ":free" in
    let* availableKeys :=
      if isFreeModel then Ret (freeKeys availableKeys)
      else
        let paid := paidKeys availableKeys in
        if (length paid =? 0)%nat
        then Throw "PaymentRequiredError: No paid OpenRouter keys available."
        else Ret paid in
    match prioritizeKeys availableKeys with
    | [] => Throw "TypeError"
    | (i, selectedKey) :: _ =>
        let keys1 := alter (set_lastUsed now_used) i keys in
        let* keys2 := throttle (hash selectedKey) now_throttle keys1 in
        match keys2 !! i with
        | Some copy => Ret (copy, keys2)
        | None => Throw "TypeError"
        end
    end.

End Get.

(** Modelled from the spec: the priority ordering of [../prioritize-keys],
    which the spec calls oldest-used-first and rate-limit-aware. Keys that
    are not rate limited at [now] come first, by [lastUsed]; rate-limited
    ones follow, by the end of their lockout. *)
Definition precedes (now : Z) (a b : Ref) : bool :=
  let aLimited := (now <? rateLimitedUntil a.2)%Z in
  let bLimited := (now <? rateLimitedUntil b.2)%Z in
  match aLimited, bLimited with
  | true, false => false
  | false, true => true
  | true, true => (rateLimitedUntil a.2 <=? rateLimitedUntil b.2)%Z
  | false, false => (lastUsed a.2 <=? lastUsed b.2)%Z
  end.

Fixpoint insertByPriority (now : Z) (r : Ref) (l : list Ref) : list Ref :=
  match l with
  | [] => [r]
  | x :: l' =>
      if precedes now r x then r :: l else x :: insertByPriority now r l'
  end.

Definition prioritizeKeys_spec (now : Z) (l : list Ref) : list Ref :=
  foldr (insertByPriority now) [] l.

End Provider.

Module ProviderTests.
Import Provider.

Definition mkKey (h : string) (disabled : bool) (used until : Z)
    (bal : number) (lim : option number) (t : Tier) : OpenRouterKey :=
  {| key := "sk-" ++ h; modelFamilies := ["openrouter"];
     isDisabled := disabled; isRevoked := false; promptCount := 0;
     lastUsed := used; rateLimitedAt := 0; rateLimitedUntil := until;
     hash := h; lastChecked := 0; isFreeTier := false;
     balance := bal; creditLimit := lim; usage := of_Z 0; rpm := of_Z 0;
     tier := t; tokenUsage := [] |}.

Definition spent := mkKey "or-00000001" true 0 0 (of_Z 0) None deadkey.
Definition untested :=
  mkKey "or-00000002" false 40 0 (of_Z 0) (Some (of_Z 0)) restricted.
Definition funded :=
  mkKey "or-00000003" false 70 0 (Num (5 # 2)) (Some (of_Z 10)) limited.
Definition prepaid :=
  mkKey "or-00000004" false 20 9000 (of_Z 999) None unlimited.

Definition pool : list OpenRouterKey := [spent; untested; funded; prepaid].

End ProviderTests.

(** ** The key checker (unnamed/part_002) *)

Module Checker.
Import Provider.

(** One entry of [Promise.allSettled]. *)
Inductive settled (A : Type) : Type :=
| fulfilled (value : A)
| rejected (reason : string).
Arguments fulfilled {A} value.
Arguments rejected {A} reason.

(** [rate_limit] of the [/auth/key] payload: [requests] after [Number]. *)
Record RateLimit : Type := {
  requests : number;
  interval : option string
}.

(** [data.data] of the [/auth/key] payload. [kd_usage] and [kd_limit] are
    what [Number] makes of the fields ([kd_limit = None] for [null]), and
    [is_free_tier] is the truthiness of the field. *)
Record KeyData : Type := {
  kd_usage : number;
  kd_limit : option number;
  is_free_tier : bool;
  rate_limit : option RateLimit
}.

(** [s.replace('s', '')]: the first occurrence only. *)
Fixpoint replace_first_s (s : string) : string :=
  match s with
  | EmptyString => EmptyString
  | String c s' => if Ascii.eqb c "s" then s' else String c (replace_first_s s')
  end.

(** [x || 1] *)
Definition or_one (a : number) : number :=
  match a with
  | NaN => of_Z 1
  | Num x => if Qeq_bool x 0 then of_Z 1 else a
  end.

(** [Math.floor(requests / interval) * 60] *)
Definition perMinute (requests interval : number) : number :=
  match requests, interval with
  | Num r, Num i => of_Z (Qfloor (r / i) * 60)
  | _, _ => NaN
  end.

Definition deriveTier (limit : option number) (usage balance : number)
    (isFreeTier : bool) : Tier :=
  let limitReached :=
    match limit with
    | Some l => Js.ge usage l
    | None => false
    end in
  if limitReached then deadkey
  else if Js.gt balance (of_Z 0) then
    match limit with
    | None => unlimited
    | Some _ => limited
    end
  else if isFreeTier then restricted
  else deadkey.

Definition fallbackBalance (limit : option number) (usage : number) : number :=
  match limit with
  | Some l => Js.max (of_Z 0) (Js.sub l usage)
  | None => of_Z 999
  end.

Section Probe.

(** The builtin [parseInt], on strings. *)
Variable parseInt : string -> number.

Definition parseRpm (rl : option RateLimit) : number :=
  match rl with
  | None => of_Z 0
  | Some r =>
      let requests := or_zero (requests r) in
      let intervalStr :=
        match interval r with
        | Some s => if truthy s then replace_first_s s else "1"
        | None => "1"
        end in
      let interval := or_one (parseInt intervalStr) in
      perMinute requests interval
  end.

(** [testKeyOrFail(key)], from the two settled lookups on: the result is
    the call [this.updateKey(hash, update)] it ends with. [keyResult]
    carries [data.data] ([None] when it is missing), [creditsResult] what
    [Number] makes of [data.data?.total_credits]. *)
Definition testKeyOrFail (k : OpenRouterKey)
    (keyResult : settled (option KeyData)) (creditsResult : settled number)
    : outcome (string * PartialKey) :=
  match keyResult with
  | rejected reason => Throw reason
  | fulfilled None => Throw "Invalid response from OpenRouter /auth/key"
  | fulfilled (Some keyData) =>
      let usage := or_zero (kd_usage keyData) in
      let limit := kd_limit keyData in
      let isFreeTier := is_free_tier keyData in
      let rpm := parseRpm (rate_limit keyData) in
      let balance :=
        match creditsResult with
        | fulfilled total_credits => or_zero total_credits
        | rejected _ => fallbackBalance limit usage
        end in
      let tier := deriveTier limit usage balance isFreeTier in
      Ret (hash k,
           {| p_isFreeTier := Some isFreeTier;
              p_balance := Some balance;
              p_creditLimit := Some limit;
              p_usage := Some usage;
              p_rpm := Some rpm;
              p_tier := Some tier;
              p_isDisabled := Some (tier_eqb tier deadkey);
              p_isRevoked := Some false;
              p_lastChecked := None |})
  end.

End Probe.

(** [error.response?.status] is all that [handleAxiosError] reads. *)
Definition handleAxiosError (k : OpenRouterKey) (status : option Z)
    : option (string * PartialKey) :=
  match status with
  | Some 401%Z =>
      Some (hash k,
            {| p_isDisabled := Some true; p_isRevoked := Some true;
               p_tier := Some deadkey;
               p_lastChecked := None; p_isFreeTier := None;
               p_balance := None; p_creditLimit := None;
               p_usage := None; p_rpm := None |})
  | Some 402%Z =>
      Some (hash k,
            {| p_isDisabled := Some true; p_tier := Some deadkey;
               p_balance := Some (of_Z 0);
               p_isRevoked := None;
               p_lastChecked := None; p_isFreeTier := None;
               p_creditLimit := None;
               p_usage := None; p_rpm := None |})
  | _ => None
  end.

End Checker.

Module CheckerTests.
Import Checker.

(** A stand-in for the builtin [parseInt] on strings that begin with
    decimal digits, as the intervals of the service do. *)
Fixpoint leadingDigits (acc : option Z) (s : string) : option Z :=
  match s with
  | EmptyString => acc
  | String c s' =>
      if is_digit c
      then leadingDigits
             (Some (10 * default 0%Z acc + (Z.of_nat (nat_of_ascii c) - 48))%Z)
             s'
      else acc
  end.

Definition parseDecimal (s : string) : number :=
  match leadingDigits None s with
  | Some z => of_Z z
  | None => NaN
  end.

(** A prepaid key: no credit limit, 100 spent. *)
Definition prepaidData : KeyData :=
  {| kd_usage := of_Z 100; kd_limit := None; is_free_tier := false;
     rate_limit := Some {| requests := of_Z 20; interval := Some "10s" |} |}.

(** A monthly key: 4 spent of a limit of 10. *)
Definition monthlyData : KeyData :=
  {| kd_usage := of_Z 4; kd_limit := Some (of_Z 10); is_free_tier := false;
     rate_limit := None |}.

End CheckerTests.

(** ** The Google AI schema and request transformer (unnamed/part_003) *)

Module GoogleAI.

(** The line feed, which a string literal cannot hold. *)
Definition LF : string := String (ascii_of_nat 10) EmptyString.

(** A [Set<string>] as the list of its members in insertion order. *)
Definition Set_add (s : list string) (x : string) : list string :=
  if existsb (String.eqb x) s then s else (s ++ [x])%list.

(** [new Set(l)] *)
Definition Set_from (l : list string) : list string :=
  fold_left Set_add l [].

(** What [.] of a regular expression does not match, within ASCII. *)
Definition is_line_terminator (c : ascii) : bool :=
  let n := nat_of_ascii c in (n =? 10)%nat || (n =? 13)%nat.

(** The group captured by [/^(.{0,50}?): /]: the shortest prefix of at most
    [fuel] characters, none a line terminator, that a colon and a space
    follow. [acc] is the prefix read so far. *)
Fixpoint matchName (fuel : nat) (acc s : string) : option string :=
  if String.prefix ": " s then Some acc
  else match fuel, s with
       | S fuel', String c s' =>
           if is_line_terminator c then None
           else matchName fuel' (acc ++ String c EmptyString) s'
       | _, _ => None
       end.

Section Request.

(** The content of an OpenAI message and its flattening to text are those
    of [./openai]. *)
Variable Content : Type.
Variable flattenOpenAIMessageContent : Content -> string.

Record OpenAIMessage : Type := {
  role : string;
  content : Content;
  name : option string
}.

(** [stop] of the parsed OpenAI request. *)
Inductive Stop : Type :=
| StopString (s : string)
| StopArray (l : list string).

(** The name that the [map] callback adds to [foundNames]. *)
Definition derivedName (m : OpenAIMessage) : string :=
  let role' := if String.eqb (role m) "assistant" then "model" else "user" in
  let text := flattenOpenAIMessageContent (content m) in
  let propName := option_map trim (name m) in
  let textName :=
    if String.eqb (role m) "system" then Some ""
    else option_map trim (matchName 50 "" text) in
  match or_else (or_else propName textName) None with
  | Some n => n
  | None => if String.eqb role' "model" then "Character" else "User"
  end.

Definition foundNames (messages : list OpenAIMessage) : list string :=
  fold_left (fun s m => Set_add s (derivedName m)) messages [].

(** [rest.stop ? (Array.isArray(rest.stop) ? rest.stop : [rest.stop]) : []] *)
Definition callerStops (stop : option Stop) : list string :=
  match stop with
  | Some (StopArray l) => l
  | Some (StopString s) => if truthy s then [s] else []
  | None => []
  end.

Definition nameStop (n : string) : string := LF ++ n ++ ":".

Definition MAX_STOPS : nat := 5.

(** [generationConfig.stopSequences] of the transformed request. *)
Definition stopSequences (messages : list OpenAIMessage) (stop : option Stop)
    : list string :=
  let stops := (callerStops stop ++ map nameStop (foundNames messages))%list in
  firstn MAX_STOPS (Set_from stops).

End Request.

(** [generationConfig.maxOutputTokens] of [GoogleAIV1GenerateContentSchema]:
    [z.coerce.number().int().optional().default(16)] and then the clamp.
    [raw] is [None] for an absent field and otherwise what [Number] makes
    of it; the result is [None] when the schema rejects the field.
    [GOOGLEAI_OUTPUT_MAX] is [config.maxOutputTokensGoogleAI]. *)
Definition DEFAULT_MAX_OUTPUT : Z := 16.

Definition isInteger (q : Q) : bool := Qeq_bool q (inject_Z (Qfloor q)).

Definition parseMaxOutputTokens (GOOGLEAI_OUTPUT_MAX : Z) (raw : option number)
    : option Z :=
  let data := default (of_Z DEFAULT_MAX_OUTPUT) raw in
  match data with
  | NaN => None
  | Num q =>
      if isInteger q then Some (Z.min (Qfloor q) GOOGLEAI_OUTPUT_MAX)
      else None
  end.

(** [generationConfig] is [.default({})]: an absent object is parsed as the
    empty one. Of its fields only [maxOutputTokens] is kept here. *)
Record RawGenerationConfig : Type := {
  raw_maxOutputTokens : option number
}.

Definition parseGenerationConfig (GOOGLEAI_OUTPUT_MAX : Z)
    (raw : option RawGenerationConfig) : option Z :=
  let cfg := default {| raw_maxOutputTokens := None |} raw in
  parseMaxOutputTokens GOOGLEAI_OUTPUT_MAX (raw_maxOutputTokens cfg).

End GoogleAI.

Module GoogleAITests.
Import GoogleAI.

(** A conversation whose content is plain text already. *)
Definition chat : list (OpenAIMessage string) :=
  [ {| role := "system"; content := "Stay in character."; name := None |};
    {| role := "user"; content := "Bob: hello"; name := None |};
    {| role := "assistant"; content := "Hi there"; name := None |};
    {| role := "user"; content := "and then?"; name := Some " Al " |} ].

End GoogleAITests.

(** ** The router (unnamed/part_004): the Anthropic shape of a response *)

Module Router.

Record Message : Type := {
  reasoning : option string;
  reasoning_content : option string;
  content : option string
}.

Record Choice : Type := {
  message : option Message;
  finish_reason : option string
}.

Record Usage : Type := {
  prompt_tokens : option Z;
  completion_tokens : option Z
}.

Record OpenAIBody : Type := {
  id : option string;
  model : option string;
  choices : option (list Choice);
  usage : option Usage
}.

Inductive ContentBlock : Type :=
| Thinking (thinking signature : string)
| Text (text : string).

Record AnthropicUsage : Type := {
  input_tokens : Z;
  output_tokens : Z
}.

Record AnthropicResponse : Type := {
  a_id : option string;
  a_type : string;
  a_role : string;
  a_content : list ContentBlock;
  a_model : option string;
  stop_reason : string;
  a_usage : AnthropicUsage
}.

(** [x || 0] on a possibly-missing count. *)
Definition count_or_zero (x : option Z) : Z := default 0%Z x.

(** The three assignments to [stopReason], in order. *)
Definition stopReasonOf (finish_reason : option string) : string :=
  let stopReason := "end_turn" in
  let stopReason :=
    if bool_decide (finish_reason = Some "length") then "max_tokens"
    else stopReason in
  let stopReason :=
    if bool_decide (finish_reason = Some "stop") then "end_turn"
    else stopReason in
  let stopReason :=
    if bool_decide (finish_reason = Some "tool_calls") then "tool_use"
    else stopReason in
  stopReason.

(** [openaiBody.choices?.[0]] *)
Definition firstChoice (openaiBody : OpenAIBody) : option Choice :=
  match choices openaiBody with
  | Some (c :: _) => Some c
  | _ => None
  end.

Definition transformOpenAIToAnthropicResponse (openaiBody : OpenAIBody)
    : outcome AnthropicResponse :=
  match firstChoice openaiBody with
  | None =>
      Ret {| a_id := or_else (id openaiBody) (Some "error");
             a_type := "message";
             a_role := "assistant";
             a_content := [];
             a_model := model openaiBody;
             stop_reason := "error";
             a_usage := {| input_tokens := 0; output_tokens := 0 |} |}
  | Some choice =>
      match message choice with
      | None => Throw "TypeError"
      | Some msg =>
          let reasoning :=
            or_else (reasoning msg) (reasoning_content msg) in
          let thinking :=
            match reasoning with
            | Some r =>
                if truthy r
                then [Thinking r "openrouter-reasoning-signature"]
                else []
            | None => []
            end in
          let text :=
            match or_else (content msg) (Some "") with
            | Some t => t
            | None => ""
            end in
          Ret {| a_id := id openaiBody;
                 a_type := "message";
                 a_role := "assistant";
                 a_content := (thinking ++ [Text text])%list;
                 a_model := model openaiBody;
                 stop_reason := stopReasonOf (finish_reason choice);
                 a_usage :=
                   {| input_tokens :=
                        count_or_zero (usage openaiBody ≫= prompt_tokens);
                      output_tokens :=
                        count_or_zero
                          (usage openaiBody ≫= completion_tokens) |} |}
      end
  end.

(** The table as the specification words it: [length] to [max_tokens],
    [stop] to [end_turn], [tool_calls] to [tool_use], and [end_turn] by
    default. *)
Definition STOP_REASONS : list (string * string) :=
  [ ("length", "max_tokens"); ("stop", "end_turn"); ("tool_calls", "tool_use") ].

Fixpoint lookupReason (table : list (string * string)) (reason : string)
    : option string :=
  match table with
  | [] => None
  | (from, to) :: table' =>
      if String.eqb from reason then Some to else lookupReason table' reason
  end.

Definition stopReasonTable (finish_reason : option string) : string :=
  default "end_turn" (finish_reason ≫= lookupReason STOP_REASONS).

End Router.

Module RouterTests.
Import Router.

Definition no_choices : OpenAIBody :=
  {| id := Some "gen-1"; model := Some "openai/gpt-4o";
     choices := Some []; usage := None |}.

Definition cut_short : OpenAIBody :=
  {| id := Some "gen-2"; model := Some "openai/gpt-4o";
     choices :=
       Some [ {| message := Some {| reasoning := None;
                                    reasoning_content := None;
                                    content := Some "Once upon a" |};
                 finish_reason := Some "length" |} ];
     usage := Some {| prompt_tokens := Some 12%Z;
                      completion_tokens := Some 3%Z |} |}.

End RouterTests.

(** ** provider.ts: the other operations of the key provider *)

Module ProviderOps.
Import Provider.

Definition set_isDisabled (v : bool) (k : OpenRouterKey) : OpenRouterKey :=
  {| key := key k; modelFamilies := modelFamilies k;
     isDisabled := v; isRevoked := isRevoked k;
     promptCount := promptCount k; lastUsed := lastUsed k;
     rateLimitedAt := rateLimitedAt k; rateLimitedUntil := rateLimitedUntil k;
     hash := hash k; lastChecked := lastChecked k;
     isFreeTier := isFreeTier k; balance := balance k;
     creditLimit := creditLimit k; usage := usage k; rpm := rpm k;
     tier := tier k; tokenUsage := tokenUsage k |}.

(** [k.tier = "unlimited"; k.balance = 999] *)
Definition set_unlimited (k : OpenRouterKey) : OpenRouterKey :=
  {| key := key k; modelFamilies := modelFamilies k;
     isDisabled := isDisabled k; isRevoked := isRevoked k;
     promptCount := promptCount k; lastUsed := lastUsed k;
     rateLimitedAt := rateLimitedAt k; rateLimitedUntil := rateLimitedUntil k;
     hash := hash k; lastChecked := lastChecked k;
     isFreeTier := isFreeTier k; balance := of_Z 999;
     creditLimit := creditLimit k; usage := usage k; rpm := rpm k;
     tier := unlimited; tokenUsage := tokenUsage k |}.

Definition set_counters (count : Z) (tokens : list (string * (Z * Z)))
    (k : OpenRouterKey) : OpenRouterKey :=
  {| key := key k; modelFamilies := modelFamilies k;
     isDisabled := isDisabled k; isRevoked := isRevoked k;
     promptCount := count; lastUsed := lastUsed k;
     rateLimitedAt := rateLimitedAt k; rateLimitedUntil := rateLimitedUntil k;
     hash := hash k; lastChecked := lastChecked k;
     isFreeTier := isFreeTier k; balance := balance k;
     creditLimit := creditLimit k; usage := usage k; rpm := rpm k;
     tier := tier k; tokenUsage := tokens |}.

Section Construction.

(** [crypto.createHash("sha256").update(key).digest("hex")] *)
Variable sha256hex : string -> string.

(** The object that the constructor pushes for one bare key. *)
Definition newKey (bare : string) : OpenRouterKey :=
  {| key := bare; modelFamilies := ["openrouter"];
     isDisabled := false; isRevoked := false; promptCount := 0;
     lastUsed := 0; rateLimitedAt := 0; rateLimitedUntil := 0;
     hash := "or-" ++ substring 0 8 (sha256hex bare);
     lastChecked := 0; isFreeTier := true;
     balance := of_Z 0; creditLimit := Some (of_Z 0);
     usage := of_Z 0; rpm := of_Z 0;
     tier := restricted; tokenUsage := [] |}.

(** The constructor: [this.keys] for a value of [config.openRouterKey]
    ([None] when it is not set). *)
Definition construct (openRouterKey : option string) : list OpenRouterKey :=
  match option_map trim openRouterKey with
  | None => []
  | Some keyConfig =>
      if truthy keyConfig
      then map newKey (GoogleAI.Set_from (map trim (split "," keyConfig)))
      else []
  end.

End Construction.

(** [init()], as far as [this.keys] goes: with [config.checkKeys] the
    checker is started and the keys stay as they are for now. *)
Definition init (checkKeys : bool) (keys : list OpenRouterKey)
    : list OpenRouterKey :=
  if checkKeys then keys else map set_unlimited keys.

(** [markRateLimited(keyHash)] *)
Definition markRateLimited (keyHash : string) (now : Z)
    (keys : list OpenRouterKey) : outcome (list OpenRouterKey) :=
  match findByHash keyHash keys with
  | Some (j, k) =>
      Ret (<[j := set_rateLimitedUntil (now + RATE_LIMIT_LOCKOUT) k]> keys)
  | None => Throw "TypeError"
  end.

(** [disable(key)] *)
Definition disable (k : OpenRouterKey) (keys : list OpenRouterKey)
    : list OpenRouterKey :=
  match findByHash (hash k) keys with
  | Some (j, found) => <[j := set_isDisabled true found]> keys
  | None => keys
  end.

(** The update that [recheck] passes: [{ isDisabled: false }]. *)
Definition reenable : PartialKey :=
  {| p_isDisabled := Some false; p_isRevoked := None; p_lastChecked := None;
     p_isFreeTier := None; p_balance := None; p_creditLimit := None;
     p_usage := None; p_rpm := None; p_tier := None |}.

(** The [forEach] of [recheck] over the hashes of the keys that the filter
    kept; the [n]-th call of [update] reads the clock as [clock n]. *)
Fixpoint recheckEach (clock : nat -> Z) (n : nat) (hashes : list string)
    (keys : list OpenRouterKey) : outcome (list OpenRouterKey) :=
  match hashes with
  | [] => Ret keys
  | h :: hashes' =>
      let* keys' := update h reenable (clock n) keys in
      recheckEach clock (S n) hashes' keys'
  end.

(** [recheck()], as far as [this.keys] goes. *)
Definition recheck (clock : nat -> Z) (keys : list OpenRouterKey)
    : outcome (list OpenRouterKey) :=
  let disabled :=
    List.filter (fun k => isDisabled k && negb (isRevoked k)) keys in
  recheckEach clock 0 (map hash disabled) keys.

(** [key.tokenUsage[family]], absent or present. *)
Fixpoint usageOf (family : string) (tokens : list (string * (Z * Z)))
    : option (Z * Z) :=
  match tokens with
  | [] => None
  | (f, counters) :: tokens' =>
      if String.eqb f family then Some counters else usageOf family tokens'
  end.

(** The entry of [family] created at zero if absent, then increased. *)
Fixpoint addTokens (family : string) (input output : Z)
    (tokens : list (string * (Z * Z))) : list (string * (Z * Z)) :=
  match tokens with
  | [] => [(family, (0 + input, 0 + output)%Z)]
  | (f, (i, o)) :: tokens' =>
      if String.eqb f family then (f, (i + input, o + output)%Z) :: tokens'
      else (f, (i, o)) :: addTokens family input output tokens'
  end.

Section Usage.

(** The entries of [OPENROUTER_FAMILY_MAP], of [../../models], in order. *)
Variable OPENROUTER_FAMILY_MAP : list (string * string).

Definition getOpenRouterModelFamily (modelId : string) : string :=
  if negb (truthy modelId) then "OpRout_Other"
  else match List.find (fun e => startsWith modelId e.1)
               OPENROUTER_FAMILY_MAP with
       | Some e => e.2
       | None => "OpRout_Other"
       end.

(** [incrementUsage(keyHash, model, tokens)] *)
Definition incrementUsage (keyHash model : string) (input output : Z)
    (keys : list OpenRouterKey) : list OpenRouterKey :=
  match findByHash keyHash keys with
  | None => keys
  | Some (j, k) =>
      let family := getOpenRouterModelFamily model in
      <[j := set_counters (promptCount k + 1)
                (addTokens family input output (tokenUsage k)) k]> keys
  end.

End Usage.

End ProviderOps.

(** ** The whitelist generator (unnamed/part_001) *)

Module WhitelistGenerator.
Import Resolver.

(** [top_provider] of a model of the upstream list. *)
Record TopProvider : Type := {
  max_completion_tokens : option Z;
  tp_is_moderated : option bool
}.

(** One model of the upstream list. A value of [default_parameters] is
    [None] when it is [null]. *)
Record RawModel : Type := {
  raw_id : string;
  context_length : Z;
  top_provider : option TopProvider;
  pricing_prompt : string;
  pricing_completion : string;
  supported_parameters : option (list string);
  default_parameters : option (list (string * option string))
}.

(** The [processed] object built for one model. *)
Definition process (m : RawModel) : ModelMetadata :=
  {| id := raw_id m;
     context := context_length m;
     max_output := top_provider m ≫= max_completion_tokens;
     pricing_input := pricing_prompt m;
     pricing_output := pricing_completion m;
     supported_params := default [] (supported_parameters m);
     default_params :=
       omap (fun e => match e.2 with
                      | Some v => Some (e.1, v)
                      | None => None
                      end)
            (default [] (default_parameters m));
     is_moderated := default false (top_provider m ≫= tp_is_moderated) |}.

(** [result[cat] = []]: a new key goes last, a key already there keeps its
    place. *)
Fixpoint resetFamily (cat : string) (result : Whitelist) : Whitelist :=
  match result with
  | [] => [(cat, [])]
  | (f, l) :: result' =>
      if String.eqb f cat then (f, []) :: result'
      else (f, l) :: resetFamily cat result'
  end.

(** [if (!result[category]) result[category] = [];
     result[category].push(processed)] *)
Fixpoint pushModel (category : string) (processed : ModelMetadata)
    (result : Whitelist) : Whitelist :=
  match result with
  | [] => [(category, [processed])]
  | (f, l) :: result' =>
      if String.eqb f category then (f, (l ++ [processed])%list) :: result'
      else (f, l) :: pushModel category processed result'
  end.

(** [result[family]] *)
Fixpoint familyOf (family : string) (result : Whitelist)
    : option (list ModelMetadata) :=
  match result with
  | [] => None
  | (f, l) :: result' =>
      if String.eqb f family then Some l else familyOf family result'
  end.

Section Generate.

(** The entries of [OPENROUTER_FAMILY_MAP], of [../../models], in order,
    and [new RegExp(regex).test(id)]. *)
Variable OPENROUTER_FAMILY_MAP : list (string * string).
Variable regexTest : string -> string -> bool.

(** The family of the first entry whose pattern matches the id. *)
Definition categoryOf (modelId : string) : string :=
  match List.find (fun e => regexTest e.1 modelId) OPENROUTER_FAMILY_MAP with
  | Some e => e.2
  | None => "OpRout_Other"
  end.

Definition emptyFamilies : Whitelist :=
  fold_left (fun result cat => resetFamily cat result)
    (map snd OPENROUTER_FAMILY_MAP) [].

(** [generateWhitelist(rawResponse)], for [rawResponse?.data] ([None] when
    it is missing). *)
Definition generateWhitelist (data : option (list RawModel)) : Whitelist :=
  match data with
  | None => emptyFamilies
  | Some models =>
      fold_left
        (fun result m => pushModel (categoryOf (raw_id m)) (process m) result)
        models emptyFamilies
  end.

End Generate.

End WhitelistGenerator.

(** ** The Google AI transformers (unnamed/part_003): message contents *)

Module GoogleAIMessages.
Import GoogleAI.

#[local] Arguments role {Content} _.
#[local] Arguments content {Content} _.
#[local] Arguments name {Content} _.

(** A content of the transformed request: [{ parts: [{ text }], role }]. *)
Record GoogleContent : Type := {
  text : string;
  g_role : string
}.

Section ToGoogle.

Variable Content : Type.
Variable flattenOpenAIMessageContent : Content -> string.

(** [textName] of the [map] callback. *)
Definition textNameOf (m : OpenAIMessage Content) : option string :=
  if String.eqb (role m) "system" then Some ""
  else option_map trim
         (matchName 50 "" (flattenOpenAIMessageContent (content m))).

(** The object that the [map] callback returns. *)
Definition toGoogleContent (m : OpenAIMessage Content) : GoogleContent :=
  let name := derivedName Content flattenOpenAIMessageContent m in
  let textPrefix :=
    match or_else (textNameOf m) None with
    | Some _ => ""
    | None => name ++ ": "
    end in
  {| text := textPrefix ++ flattenOpenAIMessageContent (content m);
     g_role := if String.eqb (role m) "assistant" then "model" else "user" |}.

(** The callback of the [reduce]: a message of the role of the last
    content is appended to its text after a blank line. *)
Definition mergeStep (acc : list GoogleContent) (msg : GoogleContent)
    : list GoogleContent :=
  match last acc with
  | Some prev =>
      if String.eqb (g_role prev) (g_role msg)
      then (removelast acc
            ++ [ {| text := text prev ++ LF ++ LF ++ text msg;
                    g_role := g_role prev |} ])%list
      else (acc ++ [msg])%list
  | None => (acc ++ [msg])%list
  end.

(** [contents] of the transformed request. *)
Definition contentsOf (messages : list (OpenAIMessage Content))
    : list GoogleContent :=
  fold_left mergeStep (map toGoogleContent messages) [].

End ToGoogle.

(** *** From the Google AI shape to the OpenAI one *)

(** A part as the schema leaves it: text, or inline data in camel case. *)
Inductive Part : Type :=
| TextPart (t : string)
| InlineDataPart (mimeType data : string).

Record GoogleAIContent : Type := {
  parts : list Part;
  c_role : option string
}.

(** [parts] of the [system_instruction] of the body as received: one part
    or an array of parts, of which only [text] is read. *)
Inductive RawParts : Type :=
| OnePart (t : option string)
| ManyParts (ts : list (option string)).

Inductive Budget : Type :=
| Auto
| Tokens (n : Z).

Record ThinkingConfig : Type := {
  includeThoughts : option bool;
  thinkingBudget : option Budget
}.

Record GenerationConfig : Type := {
  temperature : option number;
  maxOutputTokens : Z;
  topP : option number;
  stopSequences : option (list string);
  seed : option Z;
  frequencyPenalty : number;
  presencePenalty : number;
  thinkingConfig : option ThinkingConfig
}.

(** [parseResult.data] *)
Record GoogleData : Type := {
  model : string;
  stream : bool;
  contents : list GoogleAIContent;
  systemInstruction : option GoogleAIContent;
  generationConfig : GenerationConfig
}.

Inductive ContentItem : Type :=
| TextItem (t : string)
| ImageUrlItem (url : string).

Inductive MessageContent : Type :=
| Plain (t : string)
| Items (items : list ContentItem).

Record OpenAIMessageOut : Type := {
  m_role : string;
  m_content : MessageContent
}.

Inductive Reasoning : Type :=
| MaxTokens (n : Z)
| Exclude.

Record OpenAIRequest : Type := {
  o_model : string;
  o_messages : list OpenAIMessageOut;
  o_stream : bool;
  max_tokens : Z;
  o_temperature : number;
  top_p : number;
  frequency_penalty : number;
  presence_penalty : number;
  stop : option (list string);
  o_seed : option Z;
  reasoning : option Reasoning
}.

(** [p.text] of a parsed part. *)
Definition partText (p : Part) : option string :=
  match p with
  | TextPart t => Some t
  | InlineDataPart _ _ => None
  end.

(** [texts.join("")], a missing text counting as empty. *)
Definition joinTexts (texts : list (option string)) : string :=
  String.concat "" (map (default "") texts).

(** [sysText], if the branch that computes it is taken. *)
Definition systemText (parsed : option GoogleAIContent)
    (raw : option RawParts) : option string :=
  match parsed with
  | Some c => Some (joinTexts (map partText (parts c)))
  | None =>
      match raw with
      | Some (ManyParts ts) => Some (joinTexts ts)
      | Some (OnePart t) => t
      | None => None
      end
  end.

Definition systemMessages (parsed : option GoogleAIContent)
    (raw : option RawParts) : list OpenAIMessageOut :=
  match or_else (systemText parsed raw) None with
  | Some sysText => [ {| m_role := "system"; m_content := Plain sysText |} ]
  | None => []
  end.

(** What the loop over the parts of one content pushes. *)
Definition partItems (p : Part) : list ContentItem :=
  match p with
  | TextPart t => if truthy t then [TextItem t] else []
  | InlineDataPart mimeType data =>
      [ImageUrlItem ("data:" ++ mimeType ++ ";base64," ++ data)]
  end.

(** The messages that one content gives: one, or none. *)
Definition contentMessages (msg : GoogleAIContent) : list OpenAIMessageOut :=
  let role := if bool_decide (c_role msg = Some "model")
              then "assistant" else "user" in
  let content := flat_map partItems (parts msg) in
  match content with
  | [TextItem t] => [ {| m_role := role; m_content := Plain t |} ]
  | [] => []
  | _ => [ {| m_role := role; m_content := Items content |} ]
  end.

Definition reasoningOf (cfg : option ThinkingConfig) : option Reasoning :=
  match cfg with
  | Some tc =>
      if bool_decide (includeThoughts tc = Some true)
      then match thinkingBudget tc with
           | Some (Tokens n) => Some (MaxTokens n)
           | _ => None
           end
      else Some Exclude
  | None => Some Exclude
  end.

(** [transformGoogleAIToOpenAI], from the parsed body on; [rawSystem] is
    [body.system_instruction?.parts]. *)
Definition transformGoogleAIToOpenAI (googleData : GoogleData)
    (rawSystem : option RawParts) : OpenAIRequest :=
  let genConfig := generationConfig googleData in
  {| o_model := model googleData;
     o_messages :=
       (systemMessages (systemInstruction googleData) rawSystem
        ++ flat_map contentMessages (contents googleData))%list;
     o_stream := stream googleData;
     max_tokens := maxOutputTokens genConfig;
     o_temperature := default (of_Z 1) (temperature genConfig);
     top_p := default (of_Z 1) (topP genConfig);
     frequency_penalty := frequencyPenalty genConfig;
     presence_penalty := presencePenalty genConfig;
     stop := stopSequences genConfig;
     o_seed := seed genConfig;
     reasoning := reasoningOf (thinkingConfig genConfig) |}.

(** A content of a transformed request as the schema parses it. *)
Definition asParsed (c : GoogleContent) : GoogleAIContent :=
  {| parts := [TextPart (text c)]; c_role := Some (g_role c) |}.

(** [containsImageContent(contents)], on parsed contents. *)
Definition containsImageContent (cs : list GoogleAIContent) : bool :=
  existsb (fun c => existsb (fun p => match p with
                                      | InlineDataPart _ _ => true
                                      | TextPart _ => false
                                      end) (parts c)) cs.

End GoogleAIMessages.

(** ** The router (unnamed/part_004): catalogue cache, model resolution
    and the Google AI shape of a response *)

Module RouterOps.
Import Resolver WhitelistGenerator Router.

(** The body of the upstream answer to [/api/v1/models]. *)
Record RawResponse : Type := {
  data : option (list RawModel)
}.

(** The three module-level variables. *)
Record Cache : Type := {
  modelsCache : option RawResponse;
  modelsCacheTime : Z;
  whitelistCache : option Whitelist
}.

Definition initialCache : Cache :=
  {| modelsCache := None; modelsCacheTime := 0; whitelistCache := None |}.

Definition CACHE_TTL : Z := 3600000.

Section Catalogue.

Variable OPENROUTER_FAMILY_MAP : list (string * string).
Variable regexTest : string -> string -> bool.

(** [refreshModels()]. The clock is read as [now_check] for the test of
    the age of the cache and as [now_store] after a fetch; [fetch] is what
    [axios.get] would answer, should it be called. The result is what the
    call resolves to and the variables as it leaves them. *)
Definition refreshModels (now_check now_store : Z)
    (fetch : outcome RawResponse) (st : Cache) : RawResponse * Cache :=
  match (now_check - modelsCacheTime st <? CACHE_TTL)%Z, modelsCache st with
  | true, Some cached => (cached, st)
  | _, _ =>
      match fetch with
      | Ret fetched =>
          (fetched,
           {| whitelistCache :=
                Some (generateWhitelist OPENROUTER_FAMILY_MAP regexTest
                        (data fetched));
              modelsCache := Some fetched;
              modelsCacheTime := now_store |})
      | Throw _ =>
          (default {| data := Some [] |} (modelsCache st), st)
      end
  end.

(** How [resolveOpenRouterModel] ends: [req.body.model] is set, an error
    with a [statusCode] is thrown, or something else is. *)
Inductive Resolution : Type :=
| Resolved (model : string)
| Refused (statusCode : Z) (message : string)
| Crashed (e : string).

(** [`${req.promptTokens}`] *)
Definition showTokens (promptTokens : option Z) : string :=
  match promptTokens with
  | Some n => pretty n
  | None => "undefined"
  end.

(** [resolveOpenRouterModel(req)], for [req.body.model] and
    [req.promptTokens]; [allowPaidOpenRouter] and
    [allowModeratedOpenRouter] are the two settings of [config], [None]
    when unset. *)
Definition resolveOpenRouterModel
    (allowPaidOpenRouter allowModeratedOpenRouter : option bool)
    (now_check now_store : Z) (fetch : outcome RawResponse)
    (userModel : string) (promptTokens : option Z) (st : Cache)
    : Resolution * Cache :=
  let st' :=
    match whitelistCache st with
    | Some _ => st
    | None => (refreshModels now_check now_store fetch st).2
    end in
  let conf := {| allowPaid := default true allowPaidOpenRouter;
                 allowModerated := default false allowModeratedOpenRouter |} in
  match whitelistCache st' with
  | None => (Crashed "TypeError", st')
  | Some whitelist =>
      match resolveModel userModel whitelist conf with
      | Throw e => (Crashed e, st')
      | Ret (modelData, error) =>
          match or_else error None, modelData with
          | Some e, _ =>
              (Refused 400 ("Model resolution failed: " ++ e), st')
          | None, None => (Crashed "TypeError", st')
          | None, Some m =>
              if (Resolver.context m <? default 0 promptTokens)%Z
              then (Refused 400
                      ("Context limit exceeded. Model supports "
                       ++ pretty (Resolver.context m) ++ ", request has "
                       ++ showTokens promptTokens ++ "."),
                    st')
              else (Resolved (Resolver.id m), st')
          end
      end
  end.

End Catalogue.

(** *** The Google AI shape of a response *)

(** [toUpperCase], like [toLowerCase], acts on the letters of ASCII. *)
Definition upper_ascii (c : ascii) : ascii :=
  let n := nat_of_ascii c in
  if (97 <=? n)%nat && (n <=? 122)%nat then ascii_of_nat (n - 32) else c.

Fixpoint toUpperCase (s : string) : string :=
  match s with
  | EmptyString => EmptyString
  | String c s' => String (upper_ascii c) (toUpperCase s')
  end.

Record GooglePart : Type := {
  gp_text : string;
  thought : bool
}.

Record Candidate : Type := {
  c_parts : list GooglePart;
  c_role : string;
  finishReason : string;
  index : Z
}.

Record UsageMetadata : Type := {
  promptTokenCount : Z;
  candidatesTokenCount : Z;
  totalTokenCount : Z
}.

Record GoogleResponse : Type := {
  candidates : list Candidate;
  usageMetadata : option UsageMetadata
}.

(** [transformOpenAIToGoogleResponse(openaiBody)]; [total_tokens] is
    [openaiBody.usage?.total_tokens], which [Router.Usage] leaves out. *)
Definition transformOpenAIToGoogleResponse (openaiBody : OpenAIBody)
    (total_tokens : option Z) : outcome GoogleResponse :=
  match firstChoice openaiBody with
  | None => Ret {| candidates := []; usageMetadata := None |}
  | Some choice =>
      match message choice with
      | None => Throw "TypeError"
      | Some msg =>
          let reasoning := or_else (reasoning msg) (reasoning_content msg) in
          let thoughts :=
            match or_else reasoning None with
            | Some r => [ {| gp_text := r; thought := true |} ]
            | None => []
            end in
          let answer := default "" (or_else (content msg) (Some "")) in
          Ret {| candidates :=
                   [ {| c_parts :=
                          (thoughts
                           ++ [ {| gp_text := answer; thought := false |} ])%list;
                        c_role := "model";
                        finishReason :=
                          toUpperCase
                            (default "STOP"
                               (or_else (finish_reason choice) (Some "STOP")));
                        index := 0 |} ];
                 usageMetadata :=
                   Some {| promptTokenCount :=
                             count_or_zero (usage openaiBody ≫= prompt_tokens);
                           candidatesTokenCount :=
                             count_or_zero
                               (usage openaiBody ≫= completion_tokens);
                           totalTokenCount := count_or_zero total_tokens |} |}
      end
  end.

End RouterOps.

(** ** The pseudo QR generator (unnamed/part_000) *)

Module PseudoQr.

(** One call of the generator returned by [seededRandom]: the new
    [state]. All values stay below 2^53, where the arithmetic of
    JavaScript numbers is that of the integers. *)
Definition nextState (state : Z) : Z :=
  (1664525 * state + 1013904223) mod 4294967296.

(** [state / 4294967296] *)
Definition randomVal (state : Z) : Q := state # 4294967296.

(** [randomVal > 0.5] *)
Definition isDot (state : Z) : bool := negb (Qle_bool (randomVal state) (1 # 2)).

(** One [doc.setFillColor(g, g, g)] followed by
    [doc.rect(x, y, w, h, "F")]. *)
Record Rect : Type := {
  grey : Z;
  x : Z;
  y : Z;
  w : Z;
  h : Z
}.

Definition gridSize : nat := 8.
Definition cellSize : Z := 10.

(** The inner loop over [col], from [col] up, [n] columns to go. *)
Fixpoint drawRow (n : nat) (row col : Z) (state : Z) : list Rect * Z :=
  match n with
  | O => ([], state)
  | S n' =>
      let state1 := nextState state in
      let rect := {| grey := if isDot state1 then 254 else 255;
                     x := col * cellSize; y := row * cellSize;
                     w := cellSize; h := cellSize |}%Z in
      let (rects, state2) := drawRow n' row (col + 1) state1 in
      (rect :: rects, state2)
  end.

(** The outer loop over [row]. *)
Fixpoint drawRows (n : nat) (row : Z) (state : Z) : list Rect * Z :=
  match n with
  | O => ([], state)
  | S n' =>
      let (rects, state1) := drawRow gridSize row 0 state in
      let (rest, state2) := drawRows n' (row + 1) state1 in
      ((rects ++ rest)%list, state2)
  end.

(** The drawing commands of [generateUnixTimePseudoQrPdf] when
    [Date.now()] reads [now]. *)
Definition drawGrid (now : Z) : list Rect :=
  let seed := (now / 1000)%Z in
  (drawRows gridSize 0 seed).1.

End PseudoQr.

Module ProviderOpsTests.
Import Provider ProviderOps ProviderTests.

(** A pool whose only credential was exhausted and then enabled again. *)
Definition revived : list OpenRouterKey :=
  [ mkKey "or-00000001" false 0 0 (of_Z 0) None deadkey ].

(** A stand-in for the digest in examples: the text itself. *)
Definition plainDigest (s : string) : string := s.

Definition families : list (string * string) :=
  [ ("openai/", "OpRout_OpenAI"); ("anthropic/", "OpRout_Anthropic") ].

End ProviderOpsTests.

Module SharedHashTests.
Import Provider.

(** The object that the constructor pushes for a secret with the digest
    prefix [b599d6ee]. The SHA-256 digests of [sk-or-v1-0047084] and of
    [sk-or-v1-0057915] both begin with it. *)
Definition pushed (bare : string) : OpenRouterKey :=
  {| key := bare; modelFamilies := ["openrouter"];
     isDisabled := false; isRevoked := false; promptCount := 0;
     lastUsed := 0; rateLimitedAt := 0; rateLimitedUntil := 0;
     hash := "or-b599d6ee";
     lastChecked := 0; isFreeTier := true;
     balance := of_Z 0; creditLimit := Some (of_Z 0);
     usage := of_Z 0; rpm := of_Z 0;
     tier := restricted; tokenUsage := [] |}.

(** The store for [OPENROUTER_KEY=sk-or-v1-0047084,sk-or-v1-0057915]. *)
Definition twins : list OpenRouterKey :=
  [ pushed "sk-or-v1-0047084"; pushed "sk-or-v1-0057915" ].

End SharedHashTests.

Module WhitelistTests.
Import Resolver WhitelistGenerator.

Definition familyRules : list (string * string) :=
  [ ("^openai/", "OpRout_OpenAI"); ("^anthropic/", "OpRout_Anthropic") ].

(** A stand-in for [RegExp]: a pattern [^p] matches the ids that start
    with [p]. *)
Definition caretTest (pattern modelId : string) : bool :=
  match pattern with
  | String "^" p => startsWith modelId p
  | _ => false
  end.

Definition rawOf (i : string) (price : string) : RawModel :=
  {| raw_id := i; context_length := 128000; top_provider := None;
     pricing_prompt := price; pricing_completion := price;
     supported_parameters := None;
     default_parameters := Some [("temperature", Some "1"); ("top_p", None)] |}.

Definition upstream : list RawModel :=
  [ rawOf "openai/gpt-4o" "0.0000025";
    rawOf "meta-llama/llama-3-8b:free" "0";
    rawOf "anthropic/claude-3.5-sonnet" "0.000003";
    rawOf "openai/gpt-4o-mini" "0.00000015" ].

End WhitelistTests.

Module GoogleAIMessagesTests.
Import GoogleAI GoogleAIMessages.

(** A parsed request with a text turn, an image turn and an empty turn. *)
Definition pictured : GoogleData :=
  {| model := "google/gemini-2.5-flash"; stream := false;
     contents :=
       [ {| parts := [TextPart "What is this?";
                      InlineDataPart "image/png" "iVBORw0KGgo="];
            c_role := Some "user" |};
         {| parts := [TextPart ""]; c_role := Some "model" |};
         {| parts := [TextPart "A cat."]; c_role := Some "model" |} ];
     systemInstruction :=
       Some {| parts := [TextPart "Be "; TextPart "brief."];
               c_role := None |};
     generationConfig :=
       {| temperature := None; maxOutputTokens := 16; topP := None;
          stopSequences := None; seed := None;
          frequencyPenalty := of_Z 0; presencePenalty := of_Z 0;
          thinkingConfig := None |} |}.

End GoogleAIMessagesTests.

Module RouterOpsTests.
Import Resolver WhitelistGenerator WhitelistTests Router RouterOps.

Definition upstreamAnswer : RawResponse := {| data := Some upstream |}.

(** A response with a reasoning trace. *)
Definition reasoned : OpenAIBody :=
  {| id := Some "gen-3"; model := Some "deepseek/deepseek-r1";
     choices :=
       Some [ {| message := Some {| reasoning := None;
                                    reasoning_content := Some "2 and 2";
                                    content := Some "4" |};
                 finish_reason := Some "stop" |} ];
     usage := None |}.

End RouterOpsTests.

(** * Properties *)

(** ** The resolver *)

Module ResolverFacts.
Import Resolver ResolverTests.

Example resolve_short_name :
  resolveModel "gpt-4o" catalogue permissive = Ret (Some gpt4o, None).
Proof. reflexivity. Qed.

Example resolve_short_name_paid_forbidden :
  resolveModel "gpt-4o" catalogue frugal = Ret (None, Some "prohibit_paid").
Proof. reflexivity. Qed.

Example resolve_normalized_name_moderated :
  resolveModel "Claude-35-Sonnet" catalogue permissive
  = Ret (None, Some "prohibit_moderated").
Proof. reflexivity. Qed.

Example resolve_single_candidate :
  resolveModel "llama" catalogue frugal = Ret (Some llama_free, None).
Proof. reflexivity. Qed.

Lemma find_none_of_all_false {A} (p : A -> outcome bool) (l : list A) :
  (forall x, x ∈ l -> p x = Ret false) -> Js.find p l = Ret None.
Proof.
  induction l as [|x l IH]; intros Hall; simpl; [reflexivity|].
  rewrite (Hall x) by (left). simpl.
  apply IH. intros y Hy. apply Hall. by right.
Qed.

Lemma exactMatch_Some (inputLow : string) (models : list ModelMetadata) m :
  exactMatch inputLow models = Some m ->
  m ∈ models /\ toLowerCase (id m) = inputLow.
Proof.
  unfold exactMatch. intros H.
  apply find_some in H as [Hin Heq].
  split; [by apply list_elem_of_In|].
  by apply String.eqb_eq.
Qed.

Lemma exactMatch_first (inputLow : string) (models : list ModelMetadata) m :
  m ∈ models -> toLowerCase (id m) = inputLow ->
  exists found, exactMatch inputLow models = Some found.
Proof.
  intros Hin Heq. unfold exactMatch.
  destruct (List.find _ models) as [found|] eqn:Hfind; [eauto|].
  exfalso.
  apply list_elem_of_In in Hin.
  pose proof (find_none _ _ Hfind m Hin) as Hno. simpl in Hno.
  apply String.eqb_neq in Hno. by apply Hno.
Qed.

Lemma checkPolicy_cases (found : ModelMetadata) (config : Config) :
  checkPolicy found config = (Some found, None)
  \/ checkPolicy found config = (None, Some "prohibit_paid")
  \/ checkPolicy found config = (None, Some "prohibit_moderated").
Proof.
  unfold checkPolicy.
  destruct (_ && negb (allowPaid config)); [auto|].
  destruct (_ && negb (allowModerated config)); auto.
Qed.

(** C6. An input that is, up to case, the full id of a catalogued model is
    resolved by the exact match: the result is the policy check of the
    first catalogued model with that id, which is that model itself or
    one of the two policy errors, whatever the fuzzy search would do on
    this catalogue. It is hence neither [not_found] nor [ambiguous]. When
    only one catalogued model has the id, it is the one resolved. *)
Theorem resolveModel_exact_id (userInput : string) (whitelist : Whitelist)
    (config : Config) (m : ModelMetadata) :
  m ∈ allModels whitelist ->
  toLowerCase (id m) = toLowerCase userInput ->
  exists found,
    exactMatch (toLowerCase userInput) (allModels whitelist) = Some found
    /\ found ∈ allModels whitelist
    /\ toLowerCase (id found) = toLowerCase userInput
    /\ resolveModel userInput whitelist config = Ret (checkPolicy found config)
    /\ (resolveModel userInput whitelist config = Ret (Some found, None)
        \/ resolveModel userInput whitelist config
           = Ret (None, Some "prohibit_paid")
        \/ resolveModel userInput whitelist config
           = Ret (None, Some "prohibit_moderated"))
    /\ resolveModel userInput whitelist config <> Ret (None, Some "not_found")
    /\ resolveModel userInput whitelist config <> Ret (None, Some "ambiguous")
    /\ ((forall m', m' ∈ allModels whitelist ->
                    toLowerCase (id m') = toLowerCase userInput -> m' = m) ->
        found = m).
Proof.
  intros Hin Heq.
  destruct (exactMatch_first _ _ _ Hin Heq) as [found Hfound].
  destruct (exactMatch_Some _ _ _ Hfound) as [Hfin Hfid].
  assert (Hres : resolveModel userInput whitelist config
                 = Ret (checkPolicy found config)).
  { unfold resolveModel. cbv zeta. by rewrite Hfound. }
  exists found. repeat split; try done.
  - rewrite Hres.
    destruct (checkPolicy_cases found config) as [-> | [-> | ->]]; auto.
  - rewrite Hres.
    destruct (checkPolicy_cases found config) as [-> | [-> | ->]]; discriminate.
  - rewrite Hres.
    destruct (checkPolicy_cases found config) as [-> | [-> | ->]]; discriminate.
  - intros Huniq. by apply Huniq.
Qed.

(** On this catalogue the fuzzy search itself would throw, one id having no
    slash; the exact match answers before it is reached. *)
Lemma resolveModel_exact_id_witness :
  fuzzySearch "openai/gpt-4o"
    (allModels (("OpRout_Other", [mk "orphan" "0" "0" false]) :: catalogue))
  = Throw "TypeError"
  /\ resolveModel "OpenAI/GPT-4o"
       (("OpRout_Other", [mk "orphan" "0" "0" false]) :: catalogue) permissive
     = Ret (Some gpt4o, None).
Proof.
  split; [reflexivity|].
  destruct (resolveModel_exact_id "OpenAI/GPT-4o"
              (("OpRout_Other", [mk "orphan" "0" "0" false]) :: catalogue)
              permissive gpt4o)
    as (found & Hfound & _ & _ & Hres & _).
  - unfold allModels; simpl. right; left.
  - reflexivity.
  - rewrite Hres. vm_compute in Hfound.
    injection Hfound as <-. reflexivity.
Defined.

Lemma lower_ascii_slash (c : ascii) :
  Ascii.eqb (lower_ascii c) "/" = Ascii.eqb c "/".
Proof. destruct c as [[] [] [] [] [] [] [] []]; reflexivity. Qed.

Lemma split_nonempty (sep : ascii) (s : string) : split sep s <> [].
Proof.
  destruct s as [|c s]; simpl; [discriminate|].
  destruct (Ascii.eqb c sep); [discriminate|].
  destruct (split sep s); discriminate.
Qed.

Lemma includes_slash_cons (c : ascii) (s : string) :
  includes (String c s) "/" = Ascii.eqb c "/" || includes s "/".
Proof.
  cbn [includes String.prefix].
  destruct (ascii_dec "/" c) as [<-|Hne]; [by destruct s|].
  assert (Ascii.eqb c "/" = false) as -> by (apply Ascii.eqb_neq; congruence).
  reflexivity.
Qed.

Lemma second_piece_returns (s : string) :
  includes s "/" = true -> exists name, second_piece (toLowerCase s) = Ret name.
Proof.
  unfold second_piece.
  induction s as [|c s IH]; [discriminate|].
  rewrite includes_slash_cons.
  cbn [toLowerCase split]. rewrite lower_ascii_slash.
  destruct (Ascii.eqb c "/") eqn:Hc.
  - intros _. destruct (split "/" (toLowerCase s)) as [|name rest] eqn:Hs.
    + by apply split_nonempty in Hs.
    + eauto.
  - intros Hs. simpl in Hs. specialize (IH Hs).
    destruct (split "/" (toLowerCase s)) as [|a [|b rest]];
      destruct IH as [name Hname]; try discriminate.
    eauto.
Qed.

(** The candidate filter returns on every catalogue whose ids all have a
    slash, as the ids of the service do. *)
Lemma candidatesOf_returns (inputLow : string) (models : list ModelMetadata) :
  (forall m, m ∈ models -> includes (id m) "/" = true) ->
  exists candidates, candidatesOf inputLow models = Ret candidates.
Proof.
  unfold candidatesOf. generalize (detectPrefix inputLow) as providerPrefix.
  intros providerPrefix.
  induction models as [|m models IH]; intros Hslash; simpl; [eauto|].
  destruct IH as [rest Hrest].
  { intros m' Hm'. apply Hslash. by right. }
  rewrite Hrest.
  assert (exists b, isCandidate providerPrefix inputLow m = Ret b) as [b ->].
  { unfold isCandidate.
    destruct (match providerPrefix with Some p => _ | None => _ end); [eauto|].
    destruct (second_piece_returns (id m)) as [name ->].
    - apply Hslash. left.
    - simpl. destruct (_ || _); [eauto|]. destruct (String.eqb _ _); eauto. }
  simpl. eauto.
Qed.
(** C1, as the code has it. When no id matches exactly and the candidate
    filter returns, an empty candidate set, and a set of two or more in
    which no suffix equals the input as it is or normalized, both end in
    the one error [not_found]: nothing in the result tells the two cases
    apart. *)
Theorem resolveModel_fuzzy_failure (userInput : string) (whitelist : Whitelist)
    (config : Config) (candidates : list ModelMetadata) :
  exactMatch (toLowerCase userInput) (allModels whitelist) = None ->
  candidatesOf (toLowerCase userInput) (allModels whitelist) = Ret candidates ->
  (candidates = []
   \/ ((2 <= length candidates)%nat
       /\ forall m, m ∈ candidates ->
            exactSuffix (toLowerCase userInput) m = Ret false
            /\ normalizedSuffix (toLowerCase userInput) m = Ret false)) ->
  resolveModel userInput whitelist config = Ret (None, Some "not_found").
Proof.
  intros Hexact Hcands Hcase.
  unfold resolveModel. cbv zeta. rewrite Hexact.
  unfold fuzzySearch. rewrite Hcands. simpl.
  destruct Hcase as [-> | [Hlen Hnone]]; [reflexivity|].
  rewrite (find_none_of_all_false (exactSuffix _) candidates)
    by (intros x Hx; by apply Hnone).
  simpl.
  rewrite (find_none_of_all_false (normalizedSuffix _) candidates)
    by (intros x Hx; by apply Hnone).
  simpl.
  destruct candidates as [|a [|b rest]]; simpl in *; try reflexivity; lia.
Qed.

Lemma resolveModel_fuzzy_failure_witness :
  candidatesOf "gpt-4" (allModels catalogue)
  = Ret [gpt4o; gpt4o_mini; gpt4_turbo]
  /\ resolveModel "GPT-4" catalogue permissive = Ret (None, Some "not_found").
Proof.
  split; [reflexivity|].
  apply (resolveModel_fuzzy_failure "GPT-4" catalogue permissive
           [gpt4o; gpt4o_mini; gpt4_turbo]).
  - reflexivity.
  - reflexivity.
  - right. split; [simpl; lia|].
    intros m Hm.
    apply list_elem_of_In in Hm. simpl in Hm.
    destruct Hm as [<- | [<- | [<- | []]]]; split; reflexivity.
Defined.

(** With no candidate at all the error is [not_found], and so not
    [ambiguous]. *)
Lemma resolveModel_unknown_is_not_ambiguous :
  candidatesOf (toLowerCase "totally-unknown-model") (allModels catalogue)
  = Ret []
  /\ resolveModel "totally-unknown-model" catalogue permissive
     = Ret (None, Some "not_found")
  /\ resolveModel "totally-unknown-model" catalogue permissive
     <> Ret (None, Some "ambiguous").
Proof.
  repeat split; try reflexivity.
  vm_compute. discriminate.
Qed.

End ResolverFacts.

(** ** The credential pool *)

Module ProviderFacts.
Import Provider ProviderTests.

Lemma gt_zero_Num (q : Q) : Js.gt (Num q) (of_Z 0) = true <-> (0 < q)%Q.
Proof.
  unfold Js.gt, of_Z. rewrite negb_true_iff.
  change (inject_Z 0) with 0%Q.
  split.
  - intros H. apply Qnot_le_lt. intros Hle.
    apply Qle_bool_iff in Hle. congruence.
  - intros Hlt. destruct (Qle_bool q 0) eqn:E; [|reflexivity].
    apply Qle_bool_iff in E. exfalso. apply (Qlt_not_le _ _ Hlt E).
Qed.

Lemma gt_le_exclusive (a b : number) :
  Js.gt a b = true -> Js.le a b = true -> False.
Proof.
  destruct a as [|x], b as [|y]; simpl; try discriminate.
  intros H1 H2. rewrite H2 in H1. discriminate.
Qed.

Lemma tier_eqb_eq (a b : Tier) : tier_eqb a b = true <-> a = b.
Proof. destruct a, b; simpl; split; congruence. Qed.

Lemma tier_eqb_neq (a b : Tier) : tier_eqb a b = false <-> a <> b.
Proof. destruct a, b; simpl; split; congruence. Qed.

Lemma paidFilter_spec (k : OpenRouterKey) :
  paidFilter k = true <->
  tier k <> deadkey
  /\ (Js.gt (balance k) (of_Z 0) = true \/ tier k = unlimited).
Proof.
  unfold paidFilter.
  destruct (tier_eqb (tier k) deadkey) eqn:Hd.
  - apply tier_eqb_eq in Hd. split; [discriminate|]. intros [Hne _]. contradiction.
  - apply tier_eqb_neq in Hd.
    destruct (Js.gt (balance k) (of_Z 0)) eqn:Hb.
    + split; auto.
    + destruct (tier_eqb (tier k) unlimited) eqn:Hu.
      * apply tier_eqb_eq in Hu. split; auto.
      * apply tier_eqb_neq in Hu. split; [discriminate|].
        intros [_ [H|H]]; [discriminate | contradiction].
Qed.

Lemma elem_of_refs (keys : list OpenRouterKey) (r : Ref) :
  r ∈ refs keys <-> keys !! r.1 = Some r.2.
Proof.
  unfold refs. rewrite elem_of_lookup_imap. split.
  - intros (i & k & -> & Hk). exact Hk.
  - intros Hk. exists r.1, r.2. split; [by destruct r | exact Hk].
Qed.

Lemma elem_of_activeKeys (keys : list OpenRouterKey) (r : Ref) :
  r ∈ activeKeys keys ->
  keys !! r.1 = Some r.2 /\ isDisabled r.2 = false /\ isRevoked r.2 = false.
Proof.
  unfold activeKeys. rewrite list_elem_of_In, filter_In, <- list_elem_of_In.
  rewrite elem_of_refs, andb_true_iff, !negb_true_iff. tauto.
Qed.

Lemma elem_of_paidKeys (available : list Ref) (r : Ref) :
  r ∈ paidKeys available <-> r ∈ available /\ paidFilter r.2 = true.
Proof.
  unfold paidKeys. by rewrite list_elem_of_In, filter_In, <- list_elem_of_In.
Qed.

Lemma elem_of_freeKeys (available : list Ref) (r : Ref) :
  r ∈ freeKeys available <-> r ∈ available /\ tier r.2 <> deadkey.
Proof.
  unfold freeKeys.
  rewrite list_elem_of_In, filter_In, <- list_elem_of_In.
  by rewrite negb_true_iff, tier_eqb_neq.
Qed.

Lemma findByHash_Some (h : string) (keys : list OpenRouterKey) j k :
  findByHash h keys = Some (j, k) ->
  keys !! j = Some k /\ hash k = h.
Proof.
  unfold findByHash. intros H. apply list_find_Some in H. tauto.
Qed.

Lemma insertByPriority_perm (now : Z) (r : Ref) (l : list Ref) :
  insertByPriority now r l ≡ₚ r :: l.
Proof.
  induction l as [|x l IH]; simpl; [reflexivity|].
  destruct (precedes now r x); [reflexivity|].
  rewrite IH. apply Permutation_swap.
Qed.

Lemma prioritizeKeys_spec_perm (now : Z) (l : list Ref) :
  prioritizeKeys_spec now l ≡ₚ l.
Proof.
  unfold prioritizeKeys_spec.
  induction l as [|x l IH]; simpl; [reflexivity|].
  rewrite insertByPriority_perm. by rewrite IH.
Qed.

Section GetFacts.

Variable prioritizeKeys : list Ref -> list Ref.

(** What is assumed of [prioritizeKeys]: it gives back the references it
    was given, in some order. *)
Hypothesis prioritizeKeys_perm : forall l, prioritizeKeys l ≡ₚ l.

(** The shape of every successful [get]. *)
Lemma get_Ret (model : string) (now_used now_throttle : Z)
    (keys : list OpenRouterKey) (copy : OpenRouterKey)
    (keys' : list OpenRouterKey) :
  get prioritizeKeys model now_used now_throttle keys = Ret (copy, keys') ->
  exists i selectedKey j k,
    (i, selectedKey) ∈
      (if endsWith model ":free" then freeKeys (activeKeys keys)
       else paidKeys (activeKeys keys))
    /\ findByHash (hash selectedKey) (alter (set_lastUsed now_used) i keys)
       = Some (j, k)
    /\ keys' = <[j := set_rateLimitedUntil
                        (Z.max (rateLimitedUntil k)
                               (now_throttle + KEY_REUSE_DELAY)) k]>
                 (alter (set_lastUsed now_used) i keys)
    /\ keys' !! i = Some copy.
Proof.
  unfold get.
  destruct (length (activeKeys keys) =? 0)%nat; [discriminate|].
  set (retained := if endsWith model ":free" then freeKeys (activeKeys keys)
                   else paidKeys (activeKeys keys)).
  assert (Hsel : forall rest,
    (let* availableKeys :=
       if endsWith model ":free" then Ret (freeKeys (activeKeys keys))
       else if (length (paidKeys (activeKeys keys)) =? 0)%nat
            then Throw "PaymentRequiredError: No paid OpenRouter keys available."
            else Ret (paidKeys (activeKeys keys)) in
     rest availableKeys) = Ret (copy, keys') ->
    rest retained = Ret (copy, keys')).
  { intros rest. subst retained.
    destruct (endsWith model ":free"); simpl; [done|].
    destruct (length (paidKeys (activeKeys keys)) =? 0)%nat; simpl;
      [discriminate | done]. }
  intros H. apply Hsel in H. clear Hsel.
  destruct (prioritizeKeys retained) as [|[i selectedKey] rest] eqn:Hprio;
    [discriminate|].
  unfold throttle in H.
  destruct (findByHash (hash selectedKey) (alter (set_lastUsed now_used) i keys))
    as [[j k]|] eqn:Hfind; [|discriminate].
  simpl in H.
  match type of H with
  | match ?l !! i with _ => _ end = _ => destruct (l !! i) as [c|] eqn:Hcopy
  end; [|discriminate].
  injection H as -> <-.
  exists i, selectedKey, j, k. repeat split; try done.
  rewrite <- (prioritizeKeys_perm retained), Hprio. left.
Qed.

Lemma retained_active (model : string) (keys : list OpenRouterKey) (r : Ref) :
  r ∈ (if endsWith model ":free" then freeKeys (activeKeys keys)
       else paidKeys (activeKeys keys)) ->
  r ∈ activeKeys keys.
Proof.
  destruct (endsWith model ":free").
  - rewrite elem_of_freeKeys. tauto.
  - rewrite elem_of_paidKeys. tauto.
Qed.

(** C2. For a model that is not a [:free] variant, the filter for paid
    models keeps only credentials whose tier is not [deadkey] and that have
    a positive balance or the tier [unlimited], and the credential that
    [get] returns is such a one: it is never [deadkey], and never has a
    balance at or below zero with a tier other than [unlimited]. *)
Theorem get_paid_never_unfunded (model : string) (now_used now_throttle : Z)
    (keys : list OpenRouterKey) (copy : OpenRouterKey)
    (keys' : list OpenRouterKey) :
  endsWith model ":free" = false ->
  get prioritizeKeys model now_used now_throttle keys = Ret (copy, keys') ->
  (tier copy <> deadkey
   /\ (Js.gt (balance copy) (of_Z 0) = true \/ tier copy = unlimited)
   /\ (Js.le (balance copy) (of_Z 0) = true -> tier copy = unlimited))
  /\ (forall r, r ∈ paidKeys (activeKeys keys) ->
        tier r.2 <> deadkey
        /\ (Js.gt (balance r.2) (of_Z 0) = true \/ tier r.2 = unlimited)).
Proof.
  intros Hpaid Hget. split.
  - apply get_Ret in Hget as (i & sel & j & k & Hin & Hfind & -> & Hcopy).
    rewrite Hpaid in Hin.
    apply elem_of_paidKeys in Hin as [Hact Hfilter].
    apply elem_of_activeKeys in Hact as (Hsel & _ & _). simpl in *.
    apply paidFilter_spec in Hfilter as [Hnd Hfund].
    apply findByHash_Some in Hfind as [Hk _].
    assert (Hsame : tier copy = tier sel /\ balance copy = balance sel).
    { destruct (decide (j = i)) as [->|Hne].
      - rewrite list_lookup_alter_eq, Hsel in Hk. simpl in Hk.
        injection Hk as <-.
        rewrite list_lookup_insert_eq in Hcopy
          by (rewrite length_alter; by eapply lookup_lt_Some).
        injection Hcopy as <-. split; reflexivity.
      - rewrite list_lookup_insert_ne in Hcopy by done.
        rewrite list_lookup_alter_eq, Hsel in Hcopy. simpl in Hcopy.
        injection Hcopy as <-. split; reflexivity. }
    destruct Hsame as [-> ->].
    repeat split; try done.
    intros Hle. destruct Hfund as [Hgt|Hu]; [|done].
    exfalso. by eapply gt_le_exclusive.
  - intros r Hr. apply elem_of_paidKeys in Hr as [_ Hfilter].
    by apply paidFilter_spec.
Qed.

Lemma hash_alter_lastUsed (v : Z) (i : nat) (keys : list OpenRouterKey) :
  hash <$> alter (set_lastUsed v) i keys = hash <$> keys.
Proof.
  apply list_eq. intros n. rewrite !list_lookup_fmap.
  destruct (decide (i = n)) as [->|Hne].
  - rewrite list_lookup_alter_eq. by destruct (keys !! n).
  - by rewrite list_lookup_alter_ne.
Qed.

(** C8. In a store whose credentials have pairwise distinct hashes, a
    successful [get] writes two fields of the stored credential it chose,
    [lastUsed] (the clock as read for it) and [rateLimitedUntil] (the
    larger of its value and the clock as read in [throttle] plus
    [KEY_REUSE_DELAY], 500 ms); the copy handed to the caller is the stored
    credential with both writes done; every other credential of the store
    is as it was. *)
Theorem get_writes_two_fields (model : string) (now_used now_throttle : Z)
    (keys : list OpenRouterKey) (copy : OpenRouterKey)
    (keys' : list OpenRouterKey) :
  NoDup (hash <$> keys) ->
  get prioritizeKeys model now_used now_throttle keys = Ret (copy, keys') ->
  exists i stored,
    keys !! i = Some stored
    /\ keys' !! i = Some copy
    /\ copy =
       {| key := key stored; modelFamilies := modelFamilies stored;
          isDisabled := isDisabled stored; isRevoked := isRevoked stored;
          promptCount := promptCount stored;
          lastUsed := now_used;
          rateLimitedAt := rateLimitedAt stored;
          rateLimitedUntil :=
            Z.max (rateLimitedUntil stored) (now_throttle + 500);
          hash := hash stored; lastChecked := lastChecked stored;
          isFreeTier := isFreeTier stored; balance := balance stored;
          creditLimit := creditLimit stored; usage := usage stored;
          rpm := rpm stored; tier := tier stored;
          tokenUsage := tokenUsage stored |}
    /\ length keys' = length keys
    /\ forall j, j <> i -> keys' !! j = keys !! j.
Proof.
  intros Hnodup Hget.
  apply get_Ret in Hget as (i & sel & j & k & Hin & Hfind & -> & Hcopy).
  apply retained_active, elem_of_activeKeys in Hin as (Hsel & _ & _).
  simpl in Hsel.
  apply findByHash_Some in Hfind as [Hk Hhash].
  assert (Hi : alter (set_lastUsed now_used) i keys !! i
               = Some (set_lastUsed now_used sel)).
  { by rewrite list_lookup_alter_eq, Hsel. }
  assert (j = i) as ->.
  { rewrite <- (hash_alter_lastUsed now_used i) in Hnodup.
    eapply (NoDup_lookup _ _ _ _ Hnodup).
    - rewrite list_lookup_fmap, Hk. simpl. by rewrite Hhash.
    - by rewrite list_lookup_fmap, Hi. }
  rewrite Hi in Hk. injection Hk as <-.
  rewrite list_lookup_insert_eq in Hcopy
    by (rewrite length_alter; by eapply lookup_lt_Some).
  injection Hcopy as <-.
  exists i, sel. repeat split.
  - exact Hsel.
  - rewrite list_lookup_insert_eq; [done|].
    rewrite length_alter. by eapply lookup_lt_Some.
  - by rewrite length_insert, length_alter.
  - intros n Hn. rewrite list_lookup_insert_ne by done.
    by rewrite list_lookup_alter_ne.
Qed.

End GetFacts.

Lemma get_paid_never_unfunded_witness :
  exists copy keys',
    get (prioritizeKeys_spec 1000) "openai/gpt-4o" 1000 1001 pool
    = Ret (copy, keys')
    /\ hash copy = "or-00000003"
    /\ tier copy <> deadkey
    /\ (Js.gt (balance copy) (of_Z 0) = true \/ tier copy = unlimited).
Proof.
  destruct (get (prioritizeKeys_spec 1000) "openai/gpt-4o" 1000 1001 pool)
    as [[copy keys']|e] eqn:Hget; [|vm_compute in Hget; discriminate].
  exists copy, keys'. split; [reflexivity|].
  split; [vm_compute in Hget; by injection Hget as <- _|].
  destruct (get_paid_never_unfunded (prioritizeKeys_spec 1000)
              (prioritizeKeys_spec_perm 1000)
              "openai/gpt-4o" 1000 1001 pool copy keys' eq_refl Hget)
    as [(Hnd & Hfund & _) _].
  by split.
Defined.

Lemma get_writes_two_fields_witness :
  exists copy keys',
    get (prioritizeKeys_spec 1000) "meta-llama/llama-3-8b:free" 1000 1001 pool
    = Ret (copy, keys')
    /\ lastUsed copy = 1000%Z /\ rateLimitedUntil copy = 1501%Z
    /\ keys' = <[1%nat := copy]> pool.
Proof.
  destruct (get (prioritizeKeys_spec 1000) "meta-llama/llama-3-8b:free"
              1000 1001 pool)
    as [[copy keys']|e] eqn:Hget; [|vm_compute in Hget; discriminate].
  exists copy, keys'. split; [reflexivity|].
  destruct (get_writes_two_fields (prioritizeKeys_spec 1000)
              (prioritizeKeys_spec_perm 1000)
              "meta-llama/llama-3-8b:free" 1000 1001 pool copy keys')
    as (i & stored & Hstored & Hcopy & Heq & Hlen & Hframe).
  - apply (bool_decide_unpack _). vm_compute. exact I.
  - exact Hget.
  - vm_compute in Hget. injection Hget as <- <-. repeat split; reflexivity.
Defined.

(** Two credentials with one hash: the first [get] hands out the first of
    them and is as described, the second [get] hands out the other one,
    writes its [lastUsed] and leaves its [rateLimitedUntil] at 0, while
    [throttle] finds the first credential by the hash and raises its
    [rateLimitedUntil] from 1501 to 2501. So the chosen credential does not
    get [max(current, now + 500)], and a credential that was not chosen
    changes. *)
Lemma get_shared_hash_throttles_other :
  exists first keys1 second keys2,
    get (prioritizeKeys_spec 1000) "meta-llama/llama-3-8b:free" 1000 1001
      SharedHashTests.twins
    = Ret (first, keys1)
    /\ get (prioritizeKeys_spec 2000) "meta-llama/llama-3-8b:free" 2000 2001
         keys1
       = Ret (second, keys2)
    /\ key first = "sk-or-v1-0047084"
    /\ key second = "sk-or-v1-0057915"
    /\ keys1 !! 1%nat = Some (SharedHashTests.pushed "sk-or-v1-0057915")
    /\ keys2 !! 1%nat = Some second
    /\ lastUsed second = 2000%Z
    /\ rateLimitedUntil second = 0%Z
    /\ rateLimitedUntil <$> keys1 !! 0%nat = Some 1501%Z
    /\ rateLimitedUntil <$> keys2 !! 0%nat = Some 2501%Z
    /\ ~ (exists i stored,
            keys1 !! i = Some stored
            /\ keys2 !! i = Some second
            /\ rateLimitedUntil second
               = Z.max (rateLimitedUntil stored) (2001 + 500)
            /\ forall j, j <> i -> keys2 !! j = keys1 !! j).
Proof.
  eexists _, _, _, _.
  split; [vm_compute; reflexivity|].
  split; [vm_compute; reflexivity|].
  repeat (split; [reflexivity|]).
  intros (i & stored & Hstored & Hcopy & Huntil & Hframe).
  destruct i as [|[|i]]; simpl in Hstored, Hcopy.
  - discriminate Hcopy.
  - injection Hstored as <-. vm_compute in Huntil. discriminate Huntil.
  - discriminate Hstored.
Qed.

End ProviderFacts.

(** ** The key checker *)

Module CheckerFacts.
Import Provider ProviderTests Checker CheckerTests.

Lemma insert_elem_of {A} (l : list A) (j : nat) (x c : A) :
  c ∈ <[j := x]> l -> c ∈ l \/ c = x.
Proof.
  intros Hc. apply list_elem_of_lookup in Hc as [n Hn].
  destruct (decide (j = n)) as [->|Hne].
  - destruct (decide (n < length l)%nat) as [Hlt|Hge].
    + rewrite list_lookup_insert_eq in Hn by done. right. congruence.
    + rewrite list_insert_ge in Hn by lia. left.
      apply list_elem_of_lookup. eauto.
  - rewrite list_lookup_insert_ne in Hn by done. left.
    apply list_elem_of_lookup. eauto.
Qed.

Section ProbeFacts.

Variable parseInt : string -> number.

(** C3. A probe whose authorization lookup succeeded ends in one update.
    Its [usage], [limit] and [isFreeTier] are the fetched ones, and its
    [balance] is the fetched [total_credits] (zero when that is missing,
    not a number or zero) when the credits lookup succeeded, and the
    fallback computed from limit and usage when it did not. From these
    the tier is [deadkey] when the limit is known and reached; failing
    that, [unlimited] or [limited] (no limit, a limit) when the balance
    is positive; failing that, [restricted] on the free tier and
    [deadkey] off it. The update sets [isDisabled] to whether the tier is
    [deadkey] and [isRevoked] to false, and so does the credential it is
    assigned to, which takes over the four fetched values as well. *)
Theorem testKeyOrFail_tier (k : OpenRouterKey) (keyData : KeyData)
    (creditsResult : settled number) :
  exists upd balance t,
    testKeyOrFail parseInt k (fulfilled (Some keyData)) creditsResult
    = Ret (hash k, upd)
    /\ balance
       = match creditsResult with
         | fulfilled total_credits =>
             match total_credits with
             | NaN => of_Z 0
             | Num q => if Qeq_bool q 0 then of_Z 0 else Num q
             end
         | rejected _ =>
             match kd_limit keyData with
             | Some l => Js.max (of_Z 0) (Js.sub l (or_zero (kd_usage keyData)))
             | None => of_Z 999
             end
         end
    /\ p_balance upd = Some balance
    /\ p_creditLimit upd = Some (kd_limit keyData)
    /\ p_usage upd = Some (or_zero (kd_usage keyData))
    /\ p_isFreeTier upd = Some (is_free_tier keyData)
    /\ p_tier upd = Some t
    /\ t = match kd_limit keyData with
           | Some l =>
               if Js.ge (or_zero (kd_usage keyData)) l then deadkey
               else if Js.gt balance (of_Z 0) then limited
               else if is_free_tier keyData then restricted
               else deadkey
           | None =>
               if Js.gt balance (of_Z 0) then unlimited
               else if is_free_tier keyData then restricted
               else deadkey
           end
    /\ p_isDisabled upd = Some (bool_decide (t = deadkey))
    /\ p_isRevoked upd = Some false
    /\ forall now stored,
         tier (assign now upd stored) = t
         /\ isDisabled (assign now upd stored) = bool_decide (t = deadkey)
         /\ isRevoked (assign now upd stored) = false
         /\ Provider.balance (assign now upd stored) = balance
         /\ creditLimit (assign now upd stored) = kd_limit keyData
         /\ usage (assign now upd stored) = or_zero (kd_usage keyData)
         /\ isFreeTier (assign now upd stored) = is_free_tier keyData.
Proof.
  set (usage := or_zero (kd_usage keyData)).
  set (balance :=
         match creditsResult with
         | fulfilled total_credits => or_zero total_credits
         | rejected _ => fallbackBalance (kd_limit keyData) usage
         end).
  set (t := deriveTier (kd_limit keyData) usage balance (is_free_tier keyData)).
  assert (Hdis : tier_eqb t deadkey = bool_decide (t = deadkey)).
  { destruct t; reflexivity. }
  eexists _, balance, t. split; [reflexivity|]. simpl.
  split.
  { subst balance usage. unfold fallbackBalance.
    by destruct creditsResult as [[|q]|reason], (kd_limit keyData). }
  repeat split;
    try reflexivity; try (f_equal; exact Hdis); try exact Hdis.
  subst t. unfold deriveTier.
  destruct (kd_limit keyData) as [l|]; [|reflexivity].
  destruct (Js.ge usage l); [reflexivity|].
  destruct (Js.gt balance (of_Z 0)); reflexivity.
Qed.

(** C4. When the balance lookup fails and the authorization lookup
    succeeds, the balance written is 999 if there is no credit limit, and
    the tier is then [unlimited]; with a credit limit it is
    [Math.max(0, limit - usage)]. *)
Theorem testKeyOrFail_fallback_balance (k : OpenRouterKey) (keyData : KeyData)
    (reason : string) :
  exists upd,
    testKeyOrFail parseInt k (fulfilled (Some keyData)) (rejected reason)
    = Ret (hash k, upd)
    /\ match kd_limit keyData with
       | None =>
           p_balance upd = Some (of_Z 999) /\ p_tier upd = Some unlimited
       | Some limit =>
           p_balance upd
           = Some (Js.max (of_Z 0) (Js.sub limit (or_zero (kd_usage keyData))))
       end.
Proof.
  eexists. split; [reflexivity|]. simpl.
  destruct (kd_limit keyData) as [limit|]; simpl; [reflexivity|].
  split; reflexivity.
Qed.

(** C5. An update that a probe writes, be it the one of a successful probe
    or the one of a 401 or 402 failure, never leaves the credential it is
    assigned to with the tier [deadkey] and [isDisabled] false; in the
    store after [update], every credential is one that was there before or
    satisfies [tier = deadkey -> isDisabled = true]. *)
Theorem probe_update_deadkey_disabled (k : OpenRouterKey)
    (keyResult : settled (option KeyData)) (creditsResult : settled number)
    (status : option Z) (h : string) (upd : PartialKey) :
  testKeyOrFail parseInt k keyResult creditsResult = Ret (h, upd)
  \/ handleAxiosError k status = Some (h, upd) ->
  (forall now stored,
     tier (assign now upd stored) = deadkey ->
     isDisabled (assign now upd stored) = true)
  /\ (forall now keys keys',
        update h upd now keys = Ret keys' ->
        forall c, c ∈ keys' ->
          c ∈ keys \/ (tier c = deadkey -> isDisabled c = true)).
Proof.
  intros Hprobe.
  assert (Hone : forall now stored,
            tier (assign now upd stored) = deadkey ->
            isDisabled (assign now upd stored) = true).
  { destruct Hprobe as [Htest | Herr].
    - destruct keyResult as [[keyData|]|reason]; simpl in Htest;
        try discriminate.
      injection Htest as _ <-. intros now stored. simpl.
      intros ->. reflexivity.
    - unfold handleAxiosError in Herr.
      destruct status as [z|]; [|discriminate].
      destruct (decide (z = 401%Z)) as [->|H401].
      { injection Herr as _ <-. reflexivity. }
      destruct (decide (z = 402%Z)) as [->|H402].
      { injection Herr as _ <-. reflexivity. }
      exfalso.
      destruct z as [|p|p]; try discriminate.
      do 9 (destruct p as [p|p|]; try discriminate);
        congruence. }
  split; [exact Hone|].
  intros now keys keys' Hupd c Hc.
  unfold update in Hupd.
  destruct (findByHash h keys) as [[j stored]|]; [|discriminate].
  injection Hupd as <-.
  apply insert_elem_of in Hc as [Hc | ->]; [by left|].
  right. apply Hone.
Qed.

End ProbeFacts.

Lemma testKeyOrFail_tier_witness :
  exists upd,
    testKeyOrFail parseDecimal funded (fulfilled (Some monthlyData))
      (fulfilled (of_Z 25))
    = Ret ("or-00000003", upd)
    /\ p_balance upd = Some (of_Z 25)
    /\ p_tier upd = Some limited
    /\ p_isDisabled upd = Some false
    /\ p_isRevoked upd = Some false.
Proof.
  destruct (testKeyOrFail_tier parseDecimal funded monthlyData
              (fulfilled (of_Z 25)))
    as (upd & balance & t & Hret & Hfetched & Hbal & _ & _ & _ & Htier & Ht
        & Hdis & Hrev & _).
  exists upd. split; [exact Hret|].
  vm_compute in Hfetched. subst balance.
  vm_compute in Ht. subst t.
  repeat split; assumption.
Defined.

Lemma testKeyOrFail_fallback_balance_witness :
  exists upd,
    testKeyOrFail parseDecimal prepaid (fulfilled (Some prepaidData))
      (rejected "timeout of 5000ms exceeded")
    = Ret ("or-00000004", upd)
    /\ p_balance upd = Some (of_Z 999)
    /\ p_tier upd = Some unlimited.
Proof.
  destruct (testKeyOrFail_fallback_balance parseDecimal prepaid prepaidData
              "timeout of 5000ms exceeded") as (upd & Hret & Hbal).
  exists upd. split; [exact Hret | exact Hbal].
Defined.

Lemma probe_update_deadkey_disabled_witness :
  exists upd keys',
    handleAxiosError funded (Some 402%Z) = Some ("or-00000003", upd)
    /\ update "or-00000003" upd 5000 pool = Ret keys'
    /\ Forall (fun c => tier c = deadkey -> isDisabled c = true) keys'.
Proof.
  destruct (handleAxiosError funded (Some 402%Z)) as [[h upd]|] eqn:Herr;
    [|vm_compute in Herr; discriminate].
  assert (h = "or-00000003") as ->
    by (vm_compute in Herr; by injection Herr as <- _).
  destruct (update "or-00000003" upd 5000 pool) as [keys'|e] eqn:Hupd;
    [|vm_compute in Herr; injection Herr as <-; vm_compute in Hupd;
      discriminate].
  exists upd, keys'. split; [reflexivity|]. split; [exact Hupd|].
  destruct (probe_update_deadkey_disabled parseDecimal funded
              (rejected "Request failed with status code 402")
              (rejected "Request failed with status code 402")
              (Some 402%Z) "or-00000003" upd (or_intror Herr))
    as [_ Hstore].
  apply Forall_forall. intros c Hc.
  destruct (Hstore 5000%Z pool keys' Hupd c Hc) as [Hold | Hnew]; [|exact Hnew].
  apply list_elem_of_In in Hold. simpl in Hold.
  destruct Hold as [<- | [<- | [<- | [<- | []]]]]; vm_compute; congruence.
Defined.

End CheckerFacts.

(** ** The request and response shims *)

Module GoogleAIFacts.
Import GoogleAI GoogleAITests.

(** Adding the members of [l] to a set [s] appends to [s] members of [l]
    that were not in it, none twice. *)
Lemma Set_add_all (l s : list string) :
  exists ext,
    fold_left Set_add l s = (s ++ ext)%list
    /\ Forall (fun x => x ∈ l /\ x ∉ s) ext
    /\ NoDup ext.
Proof.
  revert s. induction l as [|x l IH]; intros s; simpl.
  - exists []. rewrite app_nil_r. repeat split; constructor.
  - unfold Set_add at 2.
    destruct (existsb (String.eqb x) s) eqn:Hmem.
    + destruct (IH s) as (ext & Heq & Hall & Hnd).
      exists ext. repeat split; try done.
      eapply Forall_impl; [exact Hall|].
      intros y [Hy Hs]. split; [by right | done].
    + destruct (IH (s ++ [x])%list) as (ext & Heq & Hall & Hnd).
      exists (x :: ext). rewrite Heq, <- app_assoc. simpl.
      assert (Hx : x ∉ s).
      { intros Hin. apply list_elem_of_In in Hin.
        assert (existsb (String.eqb x) s = true) as Ht; [|congruence].
        apply existsb_exists. exists x. split; [done|].
        apply String.eqb_refl. }
      repeat split.
      * constructor; [split; [left | done]|].
        eapply Forall_impl; [exact Hall|].
        intros y [Hy Hs]. split; [by right|].
        intros Hin. apply Hs. apply elem_of_app. by left.
      * constructor; [|done].
        intros Hin. rewrite Forall_forall in Hall.
        destruct (Hall x Hin) as [_ Hs]. apply Hs.
        apply elem_of_app. right. left.
Qed.

Lemma Set_add_all_complete (l s : list string) (x : string) :
  x ∈ s \/ x ∈ l -> x ∈ fold_left Set_add l s.
Proof.
  revert s. induction l as [|y l IH]; intros s [Hs|Hl]; simpl.
  - done.
  - by apply elem_of_nil in Hl.
  - apply IH. left. unfold Set_add.
    destruct (existsb _ s); [done|]. apply elem_of_app. by left.
  - apply elem_of_cons in Hl as [->|Hl]; [|apply IH; by right].
    apply IH. left. unfold Set_add.
    destruct (existsb (String.eqb y) s) eqn:Hmem.
    + apply existsb_exists in Hmem as (z & Hz & Heq).
      apply String.eqb_eq in Heq as ->. by apply list_elem_of_In.
    + apply elem_of_app. right. left.
Qed.

Lemma Set_from_NoDup (l : list string) : NoDup (Set_from l).
Proof.
  unfold Set_from. destruct (Set_add_all l []) as (ext & -> & _ & Hnd).
  exact Hnd.
Qed.

(** A member of [l] is in the set already or is added no later than at its
    own position. *)
Lemma Set_add_all_early (l s : list string) (i : nat) (x : string) :
  l !! i = Some x ->
  x ∈ s
  \/ exists ext j,
       fold_left Set_add l s = (s ++ ext)%list
       /\ ext !! j = Some x /\ (j <= i)%nat.
Proof.
  revert s i. induction l as [|y l IH]; intros s i Hi; [done|].
  simpl. unfold Set_add at 2.
  destruct (existsb (String.eqb y) s) eqn:Hmem.
  - destruct i as [|i]; simpl in Hi.
    + injection Hi as ->. left.
      apply existsb_exists in Hmem as (z & Hz & Heq).
      apply String.eqb_eq in Heq as ->. by apply list_elem_of_In.
    + destruct (IH s i Hi) as [Hs | (ext & j & Heq & Hj & Hle)]; [by left|].
      right. exists ext, j. repeat split; [done | done | lia].
  - destruct (Set_add_all l (s ++ [y])%list) as (ext & Heq & _ & _).
    assert (Hfold : fold_left Set_add l (s ++ [y])%list
                    = (s ++ y :: ext)%list).
    { rewrite Heq, <- app_assoc. reflexivity. }
    destruct i as [|i]; simpl in Hi.
    + injection Hi as <-. right. exists (y :: ext), 0%nat.
      repeat split; [done | lia].
    + destruct (IH (s ++ [y])%list i Hi)
        as [Hs | (ext' & j & Heq' & Hj & Hle)].
      * apply elem_of_app in Hs as [Hs | Hy]; [by left|].
        apply list_elem_of_singleton in Hy as ->.
        right. exists (y :: ext), 0%nat. repeat split; [done | lia].
      * right. exists (y :: ext), (S j).
        rewrite Heq in Heq'. apply app_inv_head in Heq' as <-.
        repeat split; [done | done | lia].
Qed.

(** The members added come in the order of [l]. *)
Lemma Set_add_all_sublist (l s : list string) :
  exists ext,
    fold_left Set_add l s = (s ++ ext)%list /\ ext `sublist_of` l.
Proof.
  revert s. induction l as [|x l IH]; intros s; simpl.
  - exists []. by rewrite app_nil_r.
  - unfold Set_add at 2. destruct (existsb (String.eqb x) s).
    + destruct (IH s) as (ext & Heq & Hsub).
      exists ext. split; [done|]. by apply sublist_cons.
    + destruct (IH (s ++ [x])%list) as (ext & Heq & Hsub).
      exists (x :: ext). rewrite Heq, <- app_assoc.
      split; [done|]. by apply sublist_skip.
Qed.

Section RequestFacts.

Variable Content : Type.
Variable flattenOpenAIMessageContent : Content -> string.

Lemma foundNames_as_set (messages : list (OpenAIMessage Content)) :
  foundNames Content flattenOpenAIMessageContent messages
  = Set_from (map (derivedName Content flattenOpenAIMessageContent) messages).
Proof.
  unfold foundNames, Set_from. generalize (@nil string).
  induction messages as [|m messages IH]; intros s; simpl; [reflexivity|].
  apply IH.
Qed.

Lemma elem_of_foundNames (messages : list (OpenAIMessage Content)) n :
  n ∈ foundNames Content flattenOpenAIMessageContent messages ->
  exists m,
    m ∈ messages /\ n = derivedName Content flattenOpenAIMessageContent m.
Proof.
  rewrite foundNames_as_set. unfold Set_from.
  destruct (Set_add_all
              (map (derivedName Content flattenOpenAIMessageContent) messages)
              []) as (ext & -> & Hall & _).
  simpl. intros Hn. rewrite Forall_forall in Hall.
  destruct (Hall n Hn) as [Hmap _].
  apply list_elem_of_fmap in Hmap as (m & -> & Hm). eauto.
Qed.

(** The stop sequences that the caller supplied, read off the request:
    the members of an array, or a single string unless it is empty. *)
Lemma elem_of_callerStops (stop : option Stop) (s : string) :
  s ∈ callerStops stop <->
  match stop with
  | Some (StopString x) => s = x /\ x <> ""
  | Some (StopArray l) => s ∈ l
  | None => False
  end.
Proof.
  destruct stop as [[x|l]|]; simpl; [|done|apply elem_of_nil].
  unfold truthy. destruct (String.eqb_spec x "") as [->|Hx]; simpl.
  - rewrite elem_of_nil. split; [done | by intros [_ ?]].
  - rewrite list_elem_of_singleton. split; [by intros -> | by intros [? _]].
Qed.

Lemma elem_of_foundNames_of (messages : list (OpenAIMessage Content))
    (m : OpenAIMessage Content) :
  m ∈ messages ->
  derivedName Content flattenOpenAIMessageContent m
  ∈ foundNames Content flattenOpenAIMessageContent messages.
Proof.
  intros Hm. rewrite foundNames_as_set. unfold Set_from.
  apply Set_add_all_complete. right.
  apply list_elem_of_fmap. eauto.
Qed.

(** C7. The stop sequences of the transformed request are at most five and
    pairwise distinct, and they are caller-supplied ones followed by
    synthesized ones: each of the latter is a line feed, the name derived
    from some message, and a colon, and is not among the caller's. Every
    stop that the caller supplied (the members of an array, or a single
    string unless it is empty) is among the former, in the caller's order,
    unless the caller's own already fill all five places and leave none for
    a synthesized one; each of the first five that the caller lists is
    there in any case. The stop of every message's name is in the list
    unless the list is full. *)
Theorem stopSequences_capped_distinct_ordered
    (messages : list (OpenAIMessage Content)) (stop : option Stop) :
  let stops :=
    stopSequences Content flattenOpenAIMessageContent messages stop in
  let fromCaller (s : string) : Prop :=
    match stop with
    | Some (StopString x) => s = x /\ x <> ""
    | Some (StopArray l) => s ∈ l
    | None => False
    end in
  (length stops <= 5)%nat
  /\ NoDup stops
  /\ exists supplied synthesized,
       stops = (supplied ++ synthesized)%list
       /\ Forall (fun s => s ∈ callerStops stop) supplied
       /\ Forall
            (fun s =>
               (s ∉ callerStops stop)
               /\ exists m,
                    m ∈ messages
                    /\ s = (LF
                            ++ derivedName Content flattenOpenAIMessageContent m
                            ++ ":"))
            synthesized
       /\ Forall fromCaller supplied
       /\ Forall (fun s => ~ fromCaller s) synthesized
       /\ (forall s, fromCaller s ->
             s ∈ supplied
             \/ (length supplied = 5%nat /\ synthesized = []))
       /\ (forall l i s,
             stop = Some (StopArray l) -> l !! i = Some s -> (i < 5)%nat ->
             s ∈ supplied)
       /\ (forall l, stop = Some (StopArray l) -> supplied `sublist_of` l)
       /\ (forall m, m ∈ messages ->
             (LF ++ derivedName Content flattenOpenAIMessageContent m ++ ":")
             ∈ stops
             \/ length stops = 5%nat).
Proof.
  cbv zeta. unfold stopSequences, MAX_STOPS.
  set (caller := callerStops stop).
  set (names := foundNames Content flattenOpenAIMessageContent messages).
  split; [apply firstn_le_length|].
  split.
  { eapply sublist_NoDup; [apply Set_from_NoDup | apply sublist_take]. }
  assert (Hall : forall x,
            x ∈ (caller ++ map nameStop names)%list ->
            x ∈ take 5 (Set_from (caller ++ map nameStop names))
            \/ length (take 5 (Set_from (caller ++ map nameStop names)))
               = 5%nat).
  { intros x Hx.
    destruct (decide (length (Set_from (caller ++ map nameStop names)) <= 5)%nat)
      as [Hle|Hgt].
    - left. rewrite take_ge by done. unfold Set_from.
      apply Set_add_all_complete. by right.
    - right. apply length_take_le. lia. }
  unfold Set_from in *. rewrite fold_left_app in *.
  destruct (Set_add_all caller []) as (own & Hown & Hown_in & _).
  simpl in Hown. rewrite Hown in *.
  destruct (Set_add_all (map nameStop names) own)
    as (ext & Hext_eq & Hext & _).
  rewrite Hext_eq in *.
  exists (take 5 own), (take (5 - length own) ext).
  split; [apply take_app|].
  split.
  { apply Forall_take. eapply Forall_impl; [exact Hown_in|].
    by intros s [Hs _]. }
  split.
  { apply Forall_take. eapply Forall_impl; [exact Hext|].
    intros s [Hs Hnot]. split.
    + intros Hcaller. apply Hnot. rewrite <- Hown.
      apply Set_add_all_complete. by right.
    + apply list_elem_of_fmap in Hs as (n & -> & Hn).
      apply elem_of_foundNames in Hn as (m & Hm & ->).
      exists m. split; [done|reflexivity]. }
  split.
  { apply Forall_take. eapply Forall_impl; [exact Hown_in|].
    intros s [Hs _]. by apply elem_of_callerStops. }
  split.
  { apply Forall_take. eapply Forall_impl; [exact Hext|].
    intros s [_ Hnot] Hcaller. apply Hnot. rewrite <- Hown.
    apply Set_add_all_complete. right. by apply elem_of_callerStops. }
  split.
  { intros s Hs. apply elem_of_callerStops in Hs.
    assert (Hin : s ∈ own).
    { rewrite <- Hown. apply Set_add_all_complete. by right. }
    destruct (decide (length own <= 5)%nat) as [Hle|Hgt].
    - left. by rewrite take_ge.
    - right. split; [apply length_take_le; lia|].
      replace (5 - length own)%nat with 0%nat by lia. apply take_0. }
  split.
  { intros l i s -> Hi Hlt.
    destruct (Set_add_all_early l [] i s Hi)
      as [Hnil | (ext' & j & Heq & Hj & Hle)]; [by apply elem_of_nil in Hnil|].
    simpl in Heq. change (callerStops (Some (StopArray l))) with l in caller.
    subst caller. rewrite Hown in Heq. subst ext'.
    apply elem_of_take. exists j. split; [done | lia]. }
  split.
  { intros l ->.
    destruct (Set_add_all_sublist l []) as (ext' & Heq & Hsub).
    simpl in Heq. change (callerStops (Some (StopArray l))) with l in caller.
    subst caller. rewrite Hown in Heq. subst ext'.
    etrans; [apply sublist_take | exact Hsub]. }
  intros m Hm.
  destruct (Hall (nameStop
                    (derivedName Content flattenOpenAIMessageContent m)))
    as [Hin | Hfull]; [|by left|by right].
  apply elem_of_app. right. apply list_elem_of_fmap.
  eexists. split; [done|]. by apply elem_of_foundNames_of.
Qed.

End RequestFacts.

Lemma stopSequences_capped_distinct_ordered_witness :
  stopSequences string (fun text => text) chat
    (Some (StopArray ["###"; "<END>"; "###"]))
  = ["###"; "<END>"; LF ++ "User:"; LF ++ "Bob:"; LF ++ "Character:"]
  /\ NoDup (stopSequences string (fun text => text) chat
              (Some (StopArray ["###"; "<END>"; "###"])))
  /\ stopSequences string (fun text => text) chat (Some (StopString "###"))
     = ["###"; LF ++ "User:"; LF ++ "Bob:"; LF ++ "Character:"; LF ++ "Al:"].
Proof.
  split; [reflexivity|].
  split; [|reflexivity].
  apply (stopSequences_capped_distinct_ordered string (fun text => text) chat
           (Some (StopArray ["###"; "<END>"; "###"]))).
Defined.

(** C10. Whenever the schema accepts the field, the parsed
    [maxOutputTokens] is the integer supplied clamped down to the
    configured maximum, and so never above it. When the field, or the
    whole [generationConfig], is absent, the parsed value is the lesser of
    16 and the maximum: at most 16, and 16 itself as soon as the maximum
    allows it. *)
Theorem maxOutputTokens_clamped_default_16 (GOOGLEAI_OUTPUT_MAX : Z)
    (raw : option number) (v : Z) :
  parseMaxOutputTokens GOOGLEAI_OUTPUT_MAX raw = Some v ->
  (v <= GOOGLEAI_OUTPUT_MAX)%Z
  /\ (forall q, raw = Some (Num q) ->
        v = Z.min (Qfloor q) GOOGLEAI_OUTPUT_MAX)
  /\ parseMaxOutputTokens GOOGLEAI_OUTPUT_MAX None
     = Some (Z.min 16 GOOGLEAI_OUTPUT_MAX)
  /\ parseGenerationConfig GOOGLEAI_OUTPUT_MAX None
     = Some (Z.min 16 GOOGLEAI_OUTPUT_MAX)
  /\ parseGenerationConfig GOOGLEAI_OUTPUT_MAX
       (Some {| raw_maxOutputTokens := None |})
     = Some (Z.min 16 GOOGLEAI_OUTPUT_MAX)
  /\ (Z.min 16 GOOGLEAI_OUTPUT_MAX <= 16)%Z
  /\ ((16 <= GOOGLEAI_OUTPUT_MAX)%Z ->
      parseMaxOutputTokens GOOGLEAI_OUTPUT_MAX None = Some 16%Z).
Proof.
  intros Hparse.
  assert (Habsent : parseMaxOutputTokens GOOGLEAI_OUTPUT_MAX None
                    = Some (Z.min 16 GOOGLEAI_OUTPUT_MAX)) by reflexivity.
  repeat split; try exact Habsent; try lia.
  - unfold parseMaxOutputTokens in Hparse.
    destruct (default _ raw) as [|q]; [discriminate|].
    destruct (isInteger q); [|discriminate].
    injection Hparse as <-. lia.
  - intros q ->. unfold parseMaxOutputTokens in Hparse. simpl in Hparse.
    destruct (isInteger q); [|discriminate].
    by injection Hparse as <-.
  - intros Hmax. rewrite Habsent. f_equal. lia.
Qed.

Lemma maxOutputTokens_clamped_default_16_witness :
  parseMaxOutputTokens 8192 (Some (of_Z 100000)) = Some 8192%Z
  /\ (8192 <= 8192)%Z
  /\ parseMaxOutputTokens 8192 None = Some 16%Z.
Proof.
  split; [reflexivity|].
  destruct (maxOutputTokens_clamped_default_16 8192 (Some (of_Z 100000)) 8192
              eq_refl) as (Hle & _ & _ & _ & _ & _ & Hdefault).
  split; [exact Hle|].
  apply Hdefault. lia.
Defined.

End GoogleAIFacts.

Module RouterFacts.
Import Router RouterTests.

Lemma stopReasonOf_table (finish_reason : option string) :
  stopReasonOf finish_reason = stopReasonTable finish_reason.
Proof.
  destruct finish_reason as [s|]; [|reflexivity].
  change (stopReasonTable (Some s))
    with (default "end_turn"
            (if String.eqb "length" s then Some "max_tokens"
             else if String.eqb "stop" s then Some "end_turn"
             else if String.eqb "tool_calls" s then Some "tool_use"
             else None)).
  unfold stopReasonOf.
  destruct (String.eqb_spec "length" s) as [<-|Hlength]; [reflexivity|].
  destruct (String.eqb_spec "stop" s) as [<-|Hstop]; [reflexivity|].
  destruct (String.eqb_spec "tool_calls" s) as [<-|Htool]; [reflexivity|].
  rewrite !bool_decide_eq_false_2 by congruence. reflexivity.
Qed.

(** C9, as the code has it. A response with a first choice that carries a
    message is given the image of that choice's finish reason under the
    table ([end_turn] for a reason that is missing or not in the table);
    a response without a first choice is given the stop reason [error]. *)
Theorem anthropic_stop_reason (openaiBody : OpenAIBody) :
  match firstChoice openaiBody with
  | Some choice =>
      forall msg, message choice = Some msg ->
        exists response,
          transformOpenAIToAnthropicResponse openaiBody = Ret response
          /\ stop_reason response = stopReasonTable (finish_reason choice)
  | None =>
      exists response,
        transformOpenAIToAnthropicResponse openaiBody = Ret response
        /\ stop_reason response = "error"
  end.
Proof.
  unfold transformOpenAIToAnthropicResponse.
  destruct (firstChoice openaiBody) as [choice|].
  - intros msg ->. eexists. split; [reflexivity|]. simpl.
    apply stopReasonOf_table.
  - eexists. split; reflexivity.
Qed.

Lemma anthropic_stop_reason_witness :
  exists response,
    transformOpenAIToAnthropicResponse cut_short = Ret response
    /\ stop_reason response = "max_tokens".
Proof.
  pose proof (anthropic_stop_reason cut_short) as H. simpl in H.
  destruct (H _ eq_refl) as (response & Hret & Hstop).
  exists response. split; [exact Hret|]. rewrite Hstop. reflexivity.
Defined.

(** A response without choices has no finish reason, which the table
    sends to [end_turn]; the stop reason it is given is [error]. *)
Lemma anthropic_stop_reason_no_choice :
  firstChoice no_choices = None
  /\ exists response,
       transformOpenAIToAnthropicResponse no_choices = Ret response
       /\ stop_reason response = "error"
       /\ stop_reason response <> stopReasonTable None.
Proof.
  split; [reflexivity|].
  eexists. split; [reflexivity|]. split; [reflexivity|].
  vm_compute. discriminate.
Qed.

End RouterFacts.

(** ** The credential pool: selection, errors and bookkeeping *)

Module ProviderOpsFacts.
Import Provider ProviderOps ProviderTests ProviderOpsTests ProviderFacts.

(** A credential that differs from [k] in [lastUsed] and
    [rateLimitedUntil] at most. *)
Definition touched (k k' : OpenRouterKey) : Prop :=
  k' = set_rateLimitedUntil (rateLimitedUntil k') (set_lastUsed (lastUsed k') k).

Lemma touched_refl (k : OpenRouterKey) : touched k k.
Proof. by destruct k. Qed.

Lemma elem_of_activeKeys_iff (keys : list OpenRouterKey) (r : Ref) :
  r ∈ activeKeys keys <->
  keys !! r.1 = Some r.2 /\ isDisabled r.2 = false /\ isRevoked r.2 = false.
Proof.
  unfold activeKeys. rewrite list_elem_of_In, filter_In, <- list_elem_of_In.
  rewrite elem_of_refs, andb_true_iff, !negb_true_iff. tauto.
Qed.

Lemma activeKeys_nil (keys : list OpenRouterKey) :
  (forall k, k ∈ keys -> isDisabled k = true \/ isRevoked k = true) ->
  activeKeys keys = [].
Proof.
  intros Hall. destruct (activeKeys keys) as [|r rest] eqn:Hact; [done|].
  assert (Hr : r ∈ activeKeys keys) by (rewrite Hact; left).
  apply elem_of_activeKeys_iff in Hr as (Hlook & Hd & Hr).
  destruct (Hall r.2) as [H|H]; [|congruence..].
  apply list_elem_of_lookup. eauto.
Qed.

Lemma filter_nil_of_all_false {A} (p : A -> bool) (l : list A) :
  (forall x, x ∈ l -> p x = false) -> List.filter p l = [].
Proof.
  induction l as [|x l IH]; intros Hall; simpl; [done|].
  rewrite (Hall x) by left. apply IH. intros y Hy. apply Hall. by right.
Qed.

Section Selection.

Variable prioritizeKeys : list Ref -> list Ref.
Hypothesis prioritizeKeys_perm : forall l, prioritizeKeys l ≡ₚ l.

(** The credential chosen by a successful [get], and what the copy keeps
    of it. *)
Lemma get_selected (model : string) (now_used now_throttle : Z)
    (keys : list OpenRouterKey) (copy : OpenRouterKey)
    (keys' : list OpenRouterKey) :
  get prioritizeKeys model now_used now_throttle keys = Ret (copy, keys') ->
  exists i sel,
    (i, sel) ∈ (if endsWith model ":free" then freeKeys (activeKeys keys)
                else paidKeys (activeKeys keys))
    /\ keys !! i = Some sel
    /\ touched sel copy.
Proof.
  intros Hget.
  apply (get_Ret prioritizeKeys prioritizeKeys_perm) in Hget
    as (i & sel & j & k & Hin & Hfind & -> & Hcopy).
  pose proof (retained_active _ _ _ Hin) as Hact.
  apply elem_of_activeKeys in Hact as (Hsel & _ & _). simpl in Hsel.
  exists i, sel. split; [done|]. split; [done|].
  apply findByHash_Some in Hfind as [Hk _].
  destruct (decide (j = i)) as [->|Hne].
  - rewrite list_lookup_alter_eq, Hsel in Hk. simpl in Hk.
    injection Hk as <-.
    rewrite list_lookup_insert_eq in Hcopy
      by (rewrite length_alter; by eapply lookup_lt_Some).
    injection Hcopy as <-. reflexivity.
  - rewrite list_lookup_insert_ne in Hcopy by done.
    rewrite list_lookup_alter_eq, Hsel in Hcopy. simpl in Hcopy.
    injection Hcopy as <-. reflexivity.
Qed.

(** X1. Whatever the model, the credential that [get] hands out is one
    that the store holds enabled, not revoked and with a tier other than
    [deadkey]. *)
Theorem get_returns_live_key (model : string) (now_used now_throttle : Z)
    (keys : list OpenRouterKey) (copy : OpenRouterKey)
    (keys' : list OpenRouterKey) :
  get prioritizeKeys model now_used now_throttle keys = Ret (copy, keys') ->
  isDisabled copy = false /\ isRevoked copy = false /\ tier copy <> deadkey
  /\ exists stored, stored ∈ keys /\ key stored = key copy
                    /\ hash stored = hash copy.
Proof.
  intros Hget.
  apply get_selected in Hget as (i & sel & Hin & Hsel & Htouched).
  assert (Hlive : tier sel <> deadkey).
  { destruct (endsWith model ":free").
    - by apply elem_of_freeKeys in Hin as [_ ?].
    - apply elem_of_paidKeys in Hin as [_ Hp].
      by apply paidFilter_spec in Hp as [? _]. }
  apply retained_active, elem_of_activeKeys in Hin as (_ & Hd & Hr).
  simpl in *. rewrite Htouched. simpl. repeat split; try done.
  exists sel. split; [|done]. apply list_elem_of_lookup. eauto.
Qed.

Lemma get_frame (model : string)
    (now_used now_throttle : Z) (keys : list OpenRouterKey)
    (copy : OpenRouterKey) (keys' : list OpenRouterKey) :
  get prioritizeKeys model now_used now_throttle keys = Ret (copy, keys') ->
  length keys' = length keys
  /\ forall i k, keys !! i = Some k ->
       exists k', keys' !! i = Some k'
                  /\ touched k k'
                  /\ (rateLimitedUntil k <= rateLimitedUntil k')%Z.
Proof.
  intros Hget.
  apply (get_Ret prioritizeKeys prioritizeKeys_perm) in Hget
    as (i & sel & j & kj & Hin & Hfind & -> & Hcopy).
  apply findByHash_Some in Hfind as [Hkj _].
  split; [by rewrite length_insert, length_alter|].
  intros n k Hk.
  assert (Hn : exists k1, alter (set_lastUsed now_used) i keys !! n = Some k1
                          /\ touched k k1
                          /\ rateLimitedUntil k1 = rateLimitedUntil k).
  { destruct (decide (i = n)) as [->|Hne].
    - rewrite list_lookup_alter_eq, Hk. simpl. eexists. split; [done|].
      split; [by destruct k | done].
    - rewrite list_lookup_alter_ne by done. exists k.
      split; [done|]. split; [apply touched_refl | done]. }
  destruct Hn as (k1 & Hk1 & Ht1 & Hr1).
  destruct (decide (j = n)) as [->|Hne].
  - rewrite Hk1 in Hkj. injection Hkj as <-.
    rewrite list_lookup_insert_eq by (by eapply lookup_lt_Some).
    eexists. split; [done|]. split.
    + unfold touched in *. rewrite Ht1. by destruct k.
    + simpl. lia.
  - rewrite list_lookup_insert_ne by done.
    exists k1. split; [done|]. split; [done | lia].
Qed.

(** X2. A successful [get] leaves the store with as many credentials as
    before, each in its place and changed in [lastUsed] and
    [rateLimitedUntil] at most; no [rateLimitedUntil] goes down. This
    holds also when two credentials share a hash. *)
Theorem get_touches_only_timestamps (model : string)
    (now_used now_throttle : Z) (keys : list OpenRouterKey)
    (copy : OpenRouterKey) (keys' : list OpenRouterKey) :
  get prioritizeKeys model now_used now_throttle keys = Ret (copy, keys') ->
  length keys' = length keys
  /\ forall i k, keys !! i = Some k ->
       exists k', keys' !! i = Some k'
                  /\ touched k k'
                  /\ (rateLimitedUntil k <= rateLimitedUntil k')%Z.
Proof. apply get_frame. Qed.

Lemma get_returns_for (model : string) (now_used now_throttle : Z)
    (keys : list OpenRouterKey) (k : OpenRouterKey) :
  k ∈ keys ->
  isDisabled k = false -> isRevoked k = false -> tier k <> deadkey ->
  (endsWith model ":free" = true \/ paidFilter k = true) ->
  exists copy keys',
    get prioritizeKeys model now_used now_throttle keys = Ret (copy, keys').
Proof.
  intros Hk Hd Hr Ht Hmodel.
  apply list_elem_of_lookup in Hk as [n Hn].
  assert (Hact : (n, k) ∈ activeKeys keys)
    by (by apply elem_of_activeKeys_iff).
  set (retained := if endsWith model ":free" then freeKeys (activeKeys keys)
                   else paidKeys (activeKeys keys)).
  assert (Hret : (n, k) ∈ retained).
  { subst retained. destruct (endsWith model ":free") eqn:Hfree.
    - by apply elem_of_freeKeys.
    - apply elem_of_paidKeys. split; [done|].
      destruct Hmodel as [?|?]; [discriminate | done]. }
  unfold get.
  assert (Hlen : (length (activeKeys keys) =? 0)%nat = false).
  { apply Nat.eqb_neq. intros H0. apply nil_length_inv in H0.
    rewrite H0 in Hact. by apply elem_of_nil in Hact. }
  rewrite Hlen.
  assert (Hstep :
    (if endsWith model ":free" then Ret (freeKeys (activeKeys keys))
     else if (length (paidKeys (activeKeys keys)) =? 0)%nat
          then Throw "PaymentRequiredError: No paid OpenRouter keys available."
          else Ret (paidKeys (activeKeys keys))) = Ret retained).
  { revert Hret. subst retained.
    destruct (endsWith model ":free"); [done|].
    destruct (paidKeys (activeKeys keys)) as [|p ps]; [|done].
    intros Hret. by apply elem_of_nil in Hret. }
  rewrite Hstep. simpl.
  destruct (prioritizeKeys retained) as [|[i sel] others] eqn:Hprio.
  { pose proof (prioritizeKeys_perm retained) as Hperm.
    rewrite Hprio in Hperm. apply Permutation_nil_l in Hperm.
    rewrite <- Hperm in Hret. by apply elem_of_nil in Hret. }
  assert (Hin : (i, sel) ∈ retained).
  { rewrite <- (prioritizeKeys_perm retained), Hprio. left. }
  apply retained_active, elem_of_activeKeys in Hin as (Hsel & _ & _).
  simpl in Hsel. unfold throttle.
  assert (Hi : alter (set_lastUsed now_used) i keys !! i
               = Some (set_lastUsed now_used sel))
    by (by rewrite list_lookup_alter_eq, Hsel).
  destruct (findByHash (hash sel) (alter (set_lastUsed now_used) i keys))
    as [[j kj]|] eqn:Hfind.
  - simpl.
    assert (Hlt : (i < length (<[j:=set_rateLimitedUntil
                      (Z.max (rateLimitedUntil kj)
                         (now_throttle + KEY_REUSE_DELAY)) kj]>
                      (alter (set_lastUsed now_used) i keys)))%nat).
    { rewrite length_insert. by eapply lookup_lt_Some. }
    apply lookup_lt_is_Some_2 in Hlt as [c Hc]. rewrite Hc. eauto.
  - exfalso. unfold findByHash in Hfind.
    apply list_find_None in Hfind. rewrite Forall_forall in Hfind.
    apply (Hfind (set_lastUsed now_used sel)); [|done].
    apply list_elem_of_lookup. eauto.
Qed.

(** X3. [get] succeeds as soon as the store holds a credential that is
    enabled, not revoked, not [deadkey] and, for a model that is not a
    [:free] variant, passes the filter for paid models. *)
Theorem get_succeeds (model : string) (now_used now_throttle : Z)
    (keys : list OpenRouterKey) (k : OpenRouterKey) :
  k ∈ keys ->
  isDisabled k = false -> isRevoked k = false -> tier k <> deadkey ->
  (endsWith model ":free" = true \/ paidFilter k = true) ->
  exists copy keys',
    get prioritizeKeys model now_used now_throttle keys = Ret (copy, keys').
Proof. apply get_returns_for. Qed.

Lemma get_throws_payment_required (model : string) (now_used now_throttle : Z)
    (keys : list OpenRouterKey) :
  ((forall k, k ∈ keys -> isDisabled k = true \/ isRevoked k = true) ->
   get prioritizeKeys model now_used now_throttle keys
   = Throw "PaymentRequiredError: No OpenRouter keys available.")
  /\ ((exists k, k ∈ keys /\ isDisabled k = false /\ isRevoked k = false) ->
      (forall k, k ∈ keys -> isDisabled k = false -> isRevoked k = false ->
                 paidFilter k = false) ->
      endsWith model ":free" = false ->
      get prioritizeKeys model now_used now_throttle keys
      = Throw "PaymentRequiredError: No paid OpenRouter keys available.").
Proof.
  split.
  - intros Hall. unfold get. by rewrite (activeKeys_nil keys Hall).
  - intros (k & Hk & Hd & Hr) Hnone Hpaid. unfold get.
    apply list_elem_of_lookup in Hk as [n Hn].
    assert (Hact : (n, k) ∈ activeKeys keys)
      by (by apply elem_of_activeKeys_iff).
    destruct (activeKeys keys) as [|a rest] eqn:Hactive;
      [by apply elem_of_nil in Hact|].
    rewrite <- Hactive. rewrite Hpaid.
    replace (length (activeKeys keys) =? 0)%nat with false
      by (by rewrite Hactive).
    unfold paidKeys. rewrite filter_nil_of_all_false; [done|].
    intros r Hr'. apply elem_of_activeKeys_iff in Hr' as (Hlook & Hd' & Hr'').
    apply Hnone; [|done..]. apply list_elem_of_lookup. eauto.
Qed.

(** X4. The two [PaymentRequiredError]s: with no credential enabled and
    not revoked, [get] throws the first whatever the model; with some but
    none passing the filter for paid models, it throws the second for
    every model that is not a [:free] variant. *)
Theorem get_payment_required (model : string) (now_used now_throttle : Z)
    (keys : list OpenRouterKey) :
  ((forall k, k ∈ keys -> isDisabled k = true \/ isRevoked k = true) ->
   get prioritizeKeys model now_used now_throttle keys
   = Throw "PaymentRequiredError: No OpenRouter keys available.")
  /\ ((exists k, k ∈ keys /\ isDisabled k = false /\ isRevoked k = false) ->
      (forall k, k ∈ keys -> isDisabled k = false -> isRevoked k = false ->
                 paidFilter k = false) ->
      endsWith model ":free" = false ->
      get prioritizeKeys model now_used now_throttle keys
      = Throw "PaymentRequiredError: No paid OpenRouter keys available.").
Proof. apply get_throws_payment_required. Qed.

(** X5. For a [:free] model the emptiness of the retained set is not
    tested: when credentials are enabled and not revoked but all of them
    are [deadkey], [get] throws a [TypeError], not a
    [PaymentRequiredError]. *)
Theorem get_free_all_deadkey_TypeError (model : string)
    (now_used now_throttle : Z) (keys : list OpenRouterKey)
    (k : OpenRouterKey) :
  k ∈ keys -> isDisabled k = false -> isRevoked k = false ->
  (forall k', k' ∈ keys -> isDisabled k' = false -> isRevoked k' = false ->
              tier k' = deadkey) ->
  endsWith model ":free" = true ->
  get prioritizeKeys model now_used now_throttle keys = Throw "TypeError".
Proof.
  intros Hk Hd Hr Hdead Hfree. unfold get.
  apply list_elem_of_lookup in Hk as [n Hn].
  assert (Hact : (n, k) ∈ activeKeys keys)
    by (by apply elem_of_activeKeys_iff).
  destruct (activeKeys keys) as [|a rest] eqn:Hactive;
    [by apply elem_of_nil in Hact|].
  rewrite <- Hactive. rewrite Hfree.
  replace (length (activeKeys keys) =? 0)%nat with false
    by (by rewrite Hactive).
  simpl. unfold freeKeys. rewrite filter_nil_of_all_false.
  - match goal with
    | |- context [prioritizeKeys ?l] =>
        pose proof (prioritizeKeys_perm l) as Hperm; revert Hperm;
        destruct (prioritizeKeys l) as [|r rs]; [done|]
    end.
    intros Hperm. by apply Permutation_nil_r in Hperm.
  - intros r Hr'. apply elem_of_activeKeys_iff in Hr' as (Hlook & Hd' & Hr'').
    rewrite (Hdead r.2); [done| |done..]. apply list_elem_of_lookup. eauto.
Qed.

Lemma hash_insert_same (j : nat) (k k' : OpenRouterKey)
    (keys : list OpenRouterKey) :
  keys !! j = Some k -> hash k' = hash k ->
  hash <$> <[j := k']> keys = hash <$> keys.
Proof.
  intros Hj Hh. apply list_eq. intros n. rewrite !list_lookup_fmap.
  destruct (decide (j = n)) as [->|Hne].
  - rewrite list_lookup_insert_eq by (by eapply lookup_lt_Some).
    rewrite Hj. simpl. by rewrite Hh.
  - by rewrite list_lookup_insert_ne.
Qed.

(** X6. In a store of pairwise distinct hashes, a credential passed to
    [disable] is not handed out by any later [get]. *)
Theorem get_after_disable (k : OpenRouterKey) (model : string)
    (now_used now_throttle : Z) (keys : list OpenRouterKey)
    (copy : OpenRouterKey) (keys' : list OpenRouterKey) :
  NoDup (hash <$> keys) ->
  get prioritizeKeys model now_used now_throttle (disable k keys)
  = Ret (copy, keys') ->
  hash copy <> hash k.
Proof.
  intros Hnodup Hget.
  apply get_selected in Hget as (i & sel & Hin & Hsel & Htouched).
  apply retained_active, elem_of_activeKeys in Hin as (_ & Hd & _).
  simpl in Hd. rewrite Htouched. simpl. intros Hsame.
  unfold disable in Hsel. unfold findByHash in Hsel.
  destruct (list_find (fun k0 => hash k0 = hash k) keys) as [[j found]|]
    eqn:Hfind.
  - apply list_find_Some in Hfind as (Hj & Hfound & _).
    assert (i = j) as ->.
    { rewrite <- (hash_insert_same j found (set_isDisabled true found))
        in Hnodup by done.
      eapply (NoDup_lookup _ _ _ _ Hnodup).
      - rewrite list_lookup_fmap, Hsel. simpl. by rewrite Hsame.
      - rewrite list_lookup_fmap, list_lookup_insert_eq
          by (by eapply lookup_lt_Some).
        simpl. by rewrite Hfound. }
    rewrite list_lookup_insert_eq in Hsel by (by eapply lookup_lt_Some).
    injection Hsel as <-. discriminate.
  - apply list_find_None in Hfind. rewrite Forall_forall in Hfind.
    apply (Hfind sel); [|done]. apply list_elem_of_lookup. eauto.
Qed.

(** X30. [markRateLimited] throws a [TypeError] for a hash that no
    credential has. Otherwise it returns, having set [rateLimitedUntil] of
    the first credential with the hash to the time it reads plus 2000 ms
    and nothing else, in that credential or any other. A [get] that
    follows leaves that value as it is, or raises it to its own reading
    plus 500 ms if it chose the credential and that is later: it never
    shortens the lockout. *)
Theorem markRateLimited_lockout_lasts (keyHash : string) (now : Z)
    (model : string) (now_used now_throttle : Z)
    (keys : list OpenRouterKey) :
  ((forall k, k ∈ keys -> hash k <> keyHash) ->
   markRateLimited keyHash now keys = Throw "TypeError")
  /\ (forall keys1 copy keys2,
        markRateLimited keyHash now keys = Ret keys1 ->
        get prioritizeKeys model now_used now_throttle keys1
        = Ret (copy, keys2) ->
        exists j k k',
          findByHash keyHash keys = Some (j, k)
          /\ keys2 !! j = Some k'
          /\ hash k' = keyHash
          /\ (now + 2000 <= rateLimitedUntil k')%Z)
  /\ (forall j k,
        findByHash keyHash keys = Some (j, k) ->
        exists keys1 k1,
          markRateLimited keyHash now keys = Ret keys1
          /\ length keys1 = length keys
          /\ keys1 !! j = Some k1
          /\ rateLimitedUntil k1 = (now + 2000)%Z
          /\ k1 = {| key := key k; modelFamilies := modelFamilies k;
                     isDisabled := isDisabled k; isRevoked := isRevoked k;
                     promptCount := promptCount k; lastUsed := lastUsed k;
                     rateLimitedAt := rateLimitedAt k;
                     rateLimitedUntil := (now + 2000)%Z;
                     hash := hash k; lastChecked := lastChecked k;
                     isFreeTier := isFreeTier k; balance := balance k;
                     creditLimit := creditLimit k; usage := usage k;
                     rpm := rpm k; tier := tier k;
                     tokenUsage := tokenUsage k |}
          /\ (forall n, n <> j -> keys1 !! n = keys !! n)
          /\ forall copy keys2,
               get prioritizeKeys model now_used now_throttle keys1
               = Ret (copy, keys2) ->
               exists k',
                 keys2 !! j = Some k'
                 /\ (rateLimitedUntil k' = (now + 2000)%Z
                     \/ rateLimitedUntil k'
                        = Z.max (now + 2000) (now_throttle + 500))).
Proof.
  unfold markRateLimited. split; [|split].
  - intros Hnone.
    destruct (findByHash keyHash keys) as [[j k]|] eqn:Hfind; [|done].
    apply findByHash_Some in Hfind as [Hj Hh].
    exfalso. apply (Hnone k); [|done]. apply list_elem_of_lookup. eauto.
  - intros keys1 copy keys2 Hmark Hget.
    destruct (findByHash keyHash keys) as [[j k]|] eqn:Hfind; [|done].
    injection Hmark as <-.
    apply findByHash_Some in Hfind as [Hj Hh].
    destruct (get_frame _ _ _ _ _ _ Hget) as [_ Hframe].
    destruct (Hframe j (set_rateLimitedUntil (now + RATE_LIMIT_LOCKOUT) k))
      as (k' & Hk' & Htouched & Hmono).
    { apply list_lookup_insert_eq. by eapply lookup_lt_Some. }
    exists j, k, k'. split; [done|]. split; [done|].
    split; [by rewrite Htouched|].
    simpl in Hmono. unfold RATE_LIMIT_LOCKOUT in Hmono. lia.
  - intros j k Hfind. rewrite Hfind.
    apply findByHash_Some in Hfind as [Hj Hh].
    assert (Hlt : (j < length keys)%nat) by (by eapply lookup_lt_Some).
    eexists _, _. split; [reflexivity|].
    split; [apply length_insert|].
    split; [by apply list_lookup_insert_eq|].
    split; [reflexivity|]. split; [reflexivity|].
    split; [intros n Hn; by apply list_lookup_insert_ne|].
    intros copy keys2 Hget.
    apply (get_Ret prioritizeKeys prioritizeKeys_perm) in Hget
      as (i & sel & j' & kj' & _ & Hfind' & -> & _).
    apply findByHash_Some in Hfind' as [Hkj' _].
    set (marked := set_rateLimitedUntil (now + RATE_LIMIT_LOCKOUT) k) in *.
    assert (Hj1 : exists k1,
              alter (set_lastUsed now_used) i (<[j:=marked]> keys) !! j
              = Some k1
              /\ rateLimitedUntil k1 = (now + 2000)%Z).
    { destruct (decide (i = j)) as [->|Hne].
      - rewrite list_lookup_alter_eq, list_lookup_insert_eq by done.
        simpl. eauto.
      - rewrite list_lookup_alter_ne, list_lookup_insert_eq by done. eauto. }
    destruct Hj1 as (k1 & Hk1 & Huntil).
    destruct (decide (j' = j)) as [->|Hne].
    + rewrite Hk1 in Hkj'. injection Hkj' as <-.
      eexists. split.
      { apply list_lookup_insert_eq. rewrite length_alter, length_insert.
        exact Hlt. }
      right. simpl. rewrite Huntil. unfold KEY_REUSE_DELAY. reflexivity.
    + exists k1. split; [by rewrite list_lookup_insert_ne|]. by left.
Qed.

End Selection.

Lemma get_returns_live_key_witness :
  exists copy keys',
    get (prioritizeKeys_spec 1000) "meta-llama/llama-3-8b:free" 1000 1001 pool
    = Ret (copy, keys')
    /\ isDisabled copy = false /\ isRevoked copy = false
    /\ tier copy <> deadkey.
Proof.
  destruct (get (prioritizeKeys_spec 1000) "meta-llama/llama-3-8b:free"
              1000 1001 pool)
    as [[copy keys']|e] eqn:Hget; [|vm_compute in Hget; discriminate].
  exists copy, keys'. split; [reflexivity|].
  destruct (get_returns_live_key (prioritizeKeys_spec 1000)
              (prioritizeKeys_spec_perm 1000) _ _ _ _ _ _ Hget)
    as (Hd & Hr & Ht & _).
  by repeat split.
Defined.

Lemma get_touches_only_timestamps_witness :
  exists copy keys',
    get (prioritizeKeys_spec 1000) "openai/gpt-4o" 1000 1001 pool
    = Ret (copy, keys')
    /\ length keys' = 4%nat
    /\ exists k', keys' !! 3%nat = Some k' /\ touched prepaid k'.
Proof.
  destruct (get (prioritizeKeys_spec 1000) "openai/gpt-4o" 1000 1001 pool)
    as [[copy keys']|e] eqn:Hget; [|vm_compute in Hget; discriminate].
  exists copy, keys'. split; [reflexivity|].
  destruct (get_touches_only_timestamps (prioritizeKeys_spec 1000)
              (prioritizeKeys_spec_perm 1000) _ _ _ _ _ _ Hget)
    as [Hlen Hframe].
  split; [exact Hlen|].
  destruct (Hframe 3%nat prepaid eq_refl) as (k' & Hk' & Ht & _).
  eauto.
Defined.

Lemma get_succeeds_witness :
  exists copy keys',
    get (prioritizeKeys_spec 1000) "openai/gpt-4o" 1000 1001 pool
    = Ret (copy, keys').
Proof.
  apply (get_succeeds (prioritizeKeys_spec 1000)
           (prioritizeKeys_spec_perm 1000) "openai/gpt-4o" 1000 1001 pool
           funded).
  - unfold pool. do 2 right. left.
  - reflexivity.
  - reflexivity.
  - discriminate.
  - right. reflexivity.
Defined.

Lemma get_payment_required_witness :
  get (prioritizeKeys_spec 1000) "openai/gpt-4o" 1000 1001 [spent]
  = Throw "PaymentRequiredError: No OpenRouter keys available."
  /\ get (prioritizeKeys_spec 1000) "openai/gpt-4o" 1000 1001 [spent; untested]
     = Throw "PaymentRequiredError: No paid OpenRouter keys available.".
Proof.
  split.
  - apply (proj1 (get_payment_required (prioritizeKeys_spec 1000)
                    "openai/gpt-4o" 1000 1001 [spent])).
    intros k Hk. apply list_elem_of_In in Hk. simpl in Hk.
    destruct Hk as [<- | []]. by left.
  - apply (proj2 (get_payment_required (prioritizeKeys_spec 1000)
                    "openai/gpt-4o" 1000 1001 [spent; untested])).
    + exists untested. split; [right; left | by split].
    + intros k Hk. apply list_elem_of_In in Hk. simpl in Hk.
      destruct Hk as [<- | [<- | []]]; [discriminate | reflexivity].
    + reflexivity.
Defined.

Lemma get_free_all_deadkey_TypeError_witness :
  get (prioritizeKeys_spec 1000) "meta-llama/llama-3-8b:free" 1000 1001 revived
  = Throw "TypeError".
Proof.
  apply (get_free_all_deadkey_TypeError (prioritizeKeys_spec 1000)
           (prioritizeKeys_spec_perm 1000) _ 1000 1001 revived
           (mkKey "or-00000001" false 0 0 (of_Z 0) None deadkey)).
  - left.
  - reflexivity.
  - reflexivity.
  - intros k Hk. apply list_elem_of_In in Hk. simpl in Hk.
    by destruct Hk as [<- | []].
  - reflexivity.
Defined.

Lemma get_after_disable_witness :
  exists copy keys',
    get (prioritizeKeys_spec 1000) "openai/gpt-4o" 1000 1001
      (disable funded pool) = Ret (copy, keys')
    /\ hash copy <> hash funded.
Proof.
  destruct (get (prioritizeKeys_spec 1000) "openai/gpt-4o" 1000 1001
              (disable funded pool))
    as [[copy keys']|e] eqn:Hget; [|vm_compute in Hget; discriminate].
  exists copy, keys'. split; [reflexivity|].
  apply (get_after_disable (prioritizeKeys_spec 1000)
           (prioritizeKeys_spec_perm 1000) funded "openai/gpt-4o"
           1000 1001 pool copy keys').
  - apply (bool_decide_unpack _). vm_compute. exact I.
  - exact Hget.
Defined.

Lemma markRateLimited_lockout_lasts_witness :
  exists keys1 k1 copy keys2 k',
    markRateLimited "or-00000003" 900 pool = Ret keys1
    /\ keys1 !! 2%nat = Some k1
    /\ rateLimitedUntil k1 = 2900%Z
    /\ get (prioritizeKeys_spec 1000) "openai/gpt-4o" 1000 1001 keys1
       = Ret (copy, keys2)
    /\ keys2 !! 2%nat = Some k'
    /\ (2900 <= rateLimitedUntil k')%Z.
Proof.
  destruct (markRateLimited_lockout_lasts (prioritizeKeys_spec 1000)
              (prioritizeKeys_spec_perm 1000) "or-00000003" 900
              "openai/gpt-4o" 1000 1001 pool)
    as (_ & Hlasts & Hsets).
  destruct (Hsets 2%nat funded eq_refl)
    as (keys1 & k1 & Hmark & _ & Hk1 & Huntil & _).
  destruct (get (prioritizeKeys_spec 1000) "openai/gpt-4o" 1000 1001 keys1)
    as [[copy keys2]|] eqn:Hget;
    [|vm_compute in Hmark; injection Hmark as <-;
      vm_compute in Hget; discriminate].
  destruct (Hlasts keys1 copy keys2 Hmark Hget)
    as (j & k & k' & Hfind & Hk' & _ & Hlock).
  vm_compute in Hfind. injection Hfind as <- _.
  exists keys1, k1, copy, keys2, k'.
  split; [exact Hmark|]. split; [exact Hk1|]. split; [exact Huntil|].
  split; [exact Hget|]. split; [exact Hk'|]. lia.
Defined.

End ProviderOpsFacts.

Module ProviderBookFacts.
Import Provider ProviderOps ProviderTests ProviderOpsTests ProviderFacts.
Import ProviderOpsFacts.

Lemma usageOf_addTokens (family : string) (input output : Z)
    (tokens : list (string * (Z * Z))) :
  usageOf family (addTokens family input output tokens)
  = Some ((default (0, 0) (usageOf family tokens)).1 + input,
          (default (0, 0) (usageOf family tokens)).2 + output)%Z.
Proof.
  induction tokens as [|[f [i o]] tokens IH]; simpl.
  - by rewrite String.eqb_refl.
  - destruct (String.eqb f family) eqn:E; simpl; rewrite E; [done|].
    exact IH.
Qed.

Lemma usageOf_addTokens_other (family other : string) (input output : Z)
    (tokens : list (string * (Z * Z))) :
  other <> family ->
  usageOf other (addTokens family input output tokens) = usageOf other tokens.
Proof.
  intros Hne. induction tokens as [|[f [i o]] tokens IH]; simpl.
  - destruct (String.eqb_spec family other); [congruence | done].
  - destruct (String.eqb_spec f family) as [->|Hf]; simpl.
    + destruct (String.eqb_spec family other); [congruence | done].
    + destruct (String.eqb f other); [done | exact IH].
Qed.

Section UsageFacts.

Variable OPENROUTER_FAMILY_MAP : list (string * string).

(** X7. [incrementUsage] with a hash that no credential has leaves the
    store as it is. Otherwise the first credential with the hash has its
    prompt count raised by one and the counters of the model's family
    raised by the tokens given, from zero when the family had none; its
    other families and all other credentials are as they were. *)
Theorem incrementUsage_counts (keyHash model : string) (input output : Z)
    (keys : list OpenRouterKey) :
  let family := getOpenRouterModelFamily OPENROUTER_FAMILY_MAP model in
  let keys' :=
    incrementUsage OPENROUTER_FAMILY_MAP keyHash model input output keys in
  ((forall k, k ∈ keys -> hash k <> keyHash) -> keys' = keys)
  /\ (forall j k,
        findByHash keyHash keys = Some (j, k) ->
        exists k',
          keys' !! j = Some k'
          /\ hash k' = keyHash
          /\ promptCount k' = (promptCount k + 1)%Z
          /\ usageOf family (tokenUsage k')
             = Some ((default (0, 0) (usageOf family (tokenUsage k))).1 + input,
                     (default (0, 0) (usageOf family (tokenUsage k))).2 + output)%Z
          /\ (forall other, other <> family ->
                usageOf other (tokenUsage k') = usageOf other (tokenUsage k))
          /\ (forall n, n <> j -> keys' !! n = keys !! n)).
Proof.
  cbv zeta. unfold incrementUsage. split.
  - intros Hnone.
    destruct (findByHash keyHash keys) as [[j k]|] eqn:Hfind; [|done].
    apply findByHash_Some in Hfind as [Hj Hh].
    exfalso. apply (Hnone k); [|done]. apply list_elem_of_lookup. eauto.
  - intros j k Hfind. rewrite Hfind.
    apply findByHash_Some in Hfind as [Hj Hh].
    eexists. split.
    { apply list_lookup_insert_eq. by eapply lookup_lt_Some. }
    simpl. repeat split; try done.
    + apply usageOf_addTokens.
    + intros other Hne. by apply usageOf_addTokens_other.
    + intros n Hn. by rewrite list_lookup_insert_ne.
Qed.

End UsageFacts.

Lemma incrementUsage_counts_witness :
  exists k',
    incrementUsage families "or-00000003" "openai/gpt-4o" 10 20
      (incrementUsage families "or-00000003" "openai/gpt-4o" 1 2 pool)
    !! 2%nat = Some k'
    /\ promptCount k' = 2%Z
    /\ usageOf "OpRout_OpenAI" (tokenUsage k') = Some (11, 22)%Z.
Proof.
  destruct (proj2 (incrementUsage_counts families "or-00000003"
                     "openai/gpt-4o" 10 20
                     (incrementUsage families "or-00000003" "openai/gpt-4o"
                        1 2 pool))
              2%nat _ eq_refl)
    as (k' & Hk' & _ & Hcount & Husage & _).
  exists k'. split; [exact Hk'|]. split; [exact Hcount | exact Husage].
Defined.

(** What [recheck] keeps of a credential: every field but [isDisabled] and
    [lastChecked]. *)
Definition rechecked (k k' : OpenRouterKey) : Prop :=
  key k' = key k /\ hash k' = hash k /\ isRevoked k' = isRevoked k
  /\ tier k' = tier k /\ balance k' = balance k
  /\ creditLimit k' = creditLimit k /\ usage k' = usage k
  /\ lastUsed k' = lastUsed k /\ rateLimitedUntil k' = rateLimitedUntil k
  /\ promptCount k' = promptCount k /\ tokenUsage k' = tokenUsage k
  /\ modelFamilies k' = modelFamilies k /\ rateLimitedAt k' = rateLimitedAt k
  /\ isFreeTier k' = isFreeTier k /\ rpm k' = rpm k.

Lemma recheckEach_spec (clock : nat -> Z) (hashes : list string) :
  forall (n : nat) (keys : list OpenRouterKey),
    NoDup (hash <$> keys) ->
    (forall h, h ∈ hashes -> h ∈ hash <$> keys) ->
    exists keys',
      recheckEach clock n hashes keys = Ret keys'
      /\ length keys' = length keys
      /\ forall i k, keys !! i = Some k ->
           exists k', keys' !! i = Some k'
                      /\ rechecked k k'
                      /\ isDisabled k'
                         = (if bool_decide (hash k ∈ hashes) then false
                            else isDisabled k)
                      /\ (if bool_decide (hash k ∈ hashes)
                          then exists m,
                                 (n <= m < n + length hashes)%nat
                                 /\ lastChecked k' = clock m
                          else lastChecked k' = lastChecked k).
Proof.
  induction hashes as [|h hashes IH]; intros n keys Hnodup Hin; simpl.
  - exists keys. split; [done|]. split; [done|].
    intros i k Hk. exists k. split; [done|].
    split; [by repeat split|].
    split; reflexivity.
  - unfold update.
    assert (Hh : h ∈ hash <$> keys) by (apply Hin; left).
    apply list_elem_of_fmap in Hh as (kh & -> & Hkh).
    destruct (findByHash (hash kh) keys) as [[j kj]|] eqn:Hfind.
    2:{ unfold findByHash in Hfind. apply list_find_None in Hfind.
        rewrite Forall_forall in Hfind. by destruct (Hfind kh Hkh). }
    apply findByHash_Some in Hfind as [Hj Hhj]. simpl.
    destruct (IH (S n) (<[j:=assign (clock n) reenable kj]> keys))
      as (keys' & Hrec & Hlen & Hall).
    + by rewrite (hash_insert_same j kj).
    + intros h' Hh'. rewrite (hash_insert_same j kj) by done.
      apply Hin. by right.
    + exists keys'. split; [exact Hrec|].
      split; [by rewrite Hlen, length_insert|].
      intros i k Hk.
      destruct (decide (j = i)) as [->|Hne].
      * rewrite Hj in Hk. injection Hk as ->.
        destruct (Hall i (assign (clock n) reenable k))
          as (k' & Hk' & Hr & Hd & Hl).
        { apply list_lookup_insert_eq. by eapply lookup_lt_Some. }
        exists k'. split; [done|]. split.
        { unfold rechecked in *. simpl in Hr. exact Hr. }
        rewrite (bool_decide_eq_true_2 (hash k ∈ hash kh :: hashes))
          by (rewrite Hhj; left).
        split.
        { rewrite Hd. simpl. by destruct (bool_decide _). }
        simpl in Hl. destruct (bool_decide (hash k ∈ hashes)).
        -- destruct Hl as (m & Hm & Hclock). exists m. split; [lia | done].
        -- exists n. split; [lia | done].
      * destruct (Hall i k) as (k' & Hk' & Hr & Hd & Hl).
        { by rewrite list_lookup_insert_ne. }
        exists k'. split; [done|]. split; [done|].
        assert (hash k <> hash kh).
        { intros Heq. apply Hne.
          eapply (NoDup_lookup _ _ _ _ Hnodup).
          - rewrite list_lookup_fmap, Hj. simpl. by rewrite Hhj.
          - rewrite list_lookup_fmap, Hk. simpl. by rewrite Heq. }
        destruct (decide (hash k ∈ hashes)) as [Hmem|Hmem].
        -- rewrite (bool_decide_eq_true_2 (hash k ∈ hashes)) in Hd, Hl
             by done.
           rewrite (bool_decide_eq_true_2 (hash k ∈ hash kh :: hashes))
             by (by right).
           split; [done|].
           destruct Hl as (m & Hm & Hclock). exists m. split; [lia | done].
        -- rewrite (bool_decide_eq_false_2 (hash k ∈ hashes)) in Hd, Hl
             by done.
           rewrite (bool_decide_eq_false_2 (hash k ∈ hash kh :: hashes)).
           { by split. }
           intros Hc. apply elem_of_cons in Hc as [?|?]; done.
Qed.

Lemma recheck_spec (clock : nat -> Z)
    (keys : list OpenRouterKey) :
  NoDup (hash <$> keys) ->
  exists keys',
    recheck clock keys = Ret keys'
    /\ length keys' = length keys
    /\ forall i k, keys !! i = Some k ->
         exists k', keys' !! i = Some k'
                    /\ rechecked k k'
                    /\ isDisabled k' = isDisabled k && isRevoked k
                    /\ (if isDisabled k && negb (isRevoked k)
                        then exists m,
                               (m < length keys)%nat
                               /\ lastChecked k' = clock m
                        else lastChecked k' = lastChecked k).
Proof.
  intros Hnodup. unfold recheck.
  set (disabled := List.filter
                     (fun k => isDisabled k && negb (isRevoked k)) keys).
  destruct (recheckEach_spec clock (map hash disabled) 0 keys Hnodup)
    as (keys' & Hrec & Hlen & Hall).
  { intros h Hh. apply list_elem_of_fmap in Hh as (k & -> & Hk).
    apply list_elem_of_fmap. exists k. split; [done|].
    subst disabled. apply list_elem_of_In in Hk.
    apply filter_In in Hk as [Hk _]. by apply list_elem_of_In. }
  exists keys'. split; [exact Hrec|]. split; [exact Hlen|].
  intros i k Hk. destruct (Hall i k Hk) as (k' & Hk' & Hr & Hd & Hl).
  exists k'. split; [done|]. split; [done|].
  assert (Hmem : bool_decide (hash k ∈ map hash disabled)
                 = isDisabled k && negb (isRevoked k)).
  { destruct (isDisabled k && negb (isRevoked k)) eqn:Ep.
    - rewrite bool_decide_eq_true_2; [done|].
      apply list_elem_of_fmap. exists k. split; [done|].
      subst disabled. apply list_elem_of_In, filter_In.
      split; [apply list_elem_of_In, list_elem_of_lookup; eauto | done].
    - rewrite bool_decide_eq_false_2; [done|].
      intros Hmem. apply list_elem_of_fmap in Hmem as (k2 & Hh & Hk2).
      subst disabled. apply list_elem_of_In in Hk2.
      apply filter_In in Hk2 as [Hk2 Hp].
      apply list_elem_of_In, list_elem_of_lookup in Hk2 as [i2 Hi2].
      assert (i = i2) as <-.
      { eapply (NoDup_lookup _ _ _ _ Hnodup).
        - by rewrite list_lookup_fmap, Hk.
        - rewrite list_lookup_fmap, Hi2. simpl. by rewrite Hh. }
      rewrite Hk in Hi2. injection Hi2 as <-. congruence. }
  rewrite Hmem in Hd, Hl. split.
  - rewrite Hd. by destruct (isDisabled k), (isRevoked k).
  - destruct (isDisabled k && negb (isRevoked k)); [|done].
    destruct Hl as (m & Hm & Hclock). exists m. split; [|done].
    assert (length (map hash disabled) <= length keys)%nat; [|lia].
    rewrite length_map. subst disabled. apply filter_length_le.
Qed.

(** X8. In a store of pairwise distinct hashes [recheck] returns, and
    afterwards a credential is disabled exactly when it was disabled and
    revoked: every other disabled credential is enabled again, whatever
    its tier, [deadkey] included. Nothing but [isDisabled] and
    [lastChecked] changes: each of the other fifteen fields is as it was,
    and [lastChecked] becomes a reading of the clock in the credentials
    enabled again and is as it was in all others. *)
Theorem recheck_reenables_unrevoked (clock : nat -> Z)
    (keys : list OpenRouterKey) :
  NoDup (hash <$> keys) ->
  exists keys',
    recheck clock keys = Ret keys'
    /\ length keys' = length keys
    /\ forall i k, keys !! i = Some k ->
         exists k', keys' !! i = Some k'
                    /\ rechecked k k'
                    /\ isDisabled k' = isDisabled k && isRevoked k
                    /\ k' = {| key := key k; modelFamilies := modelFamilies k;
                               isDisabled := isDisabled k && isRevoked k;
                               isRevoked := isRevoked k;
                               promptCount := promptCount k;
                               lastUsed := lastUsed k;
                               rateLimitedAt := rateLimitedAt k;
                               rateLimitedUntil := rateLimitedUntil k;
                               hash := hash k;
                               lastChecked := lastChecked k';
                               isFreeTier := isFreeTier k;
                               balance := balance k;
                               creditLimit := creditLimit k;
                               usage := usage k; rpm := rpm k;
                               tier := tier k;
                               tokenUsage := tokenUsage k |}
                    /\ (if isDisabled k && negb (isRevoked k)
                        then exists m,
                               (m < length keys)%nat
                               /\ lastChecked k' = clock m
                        else lastChecked k' = lastChecked k).
Proof.
  intros Hnodup.
  destruct (recheck_spec clock keys Hnodup) as (keys' & Hrec & Hlen & Hall).
  exists keys'. split; [exact Hrec|]. split; [exact Hlen|].
  intros i k Hk. destruct (Hall i k Hk) as (k' & Hk' & Hr & Hd & Hl).
  exists k'. split; [done|]. split; [done|]. split; [done|].
  split; [|done].
  destruct Hr as (H1 & H2 & H3 & H4 & H5 & H6 & H7 & H8 & H9 & H10 & H11
                  & H12 & H13 & H14 & H15).
  destruct k'. simpl in H1, H2, H3, H4, H5, H6, H7, H8, H9, H10, H11, H12,
    H13, H14, H15, Hd |- *.
  f_equal; assumption || reflexivity.
Qed.

Lemma recheck_reenables_unrevoked_witness :
  exists keys' k',
    recheck (fun n => 5000 + Z.of_nat n)%Z pool = Ret keys'
    /\ keys' !! 0%nat = Some k'
    /\ isDisabled k' = false /\ tier k' = deadkey
    /\ lastChecked k' = 5000%Z.
Proof.
  destruct (recheck_reenables_unrevoked (fun n => 5000 + Z.of_nat n)%Z pool)
    as (keys' & Hrec & _ & Hall).
  - apply (bool_decide_unpack _). vm_compute. exact I.
  - destruct (Hall 0%nat spent eq_refl) as (k' & Hk' & Hr & Hd & _ & _).
    exists keys', k'. split; [exact Hrec|]. split; [exact Hk'|].
    split; [exact Hd|]. split; [apply Hr|].
    vm_compute in Hrec. injection Hrec as <-.
    simpl in Hk'. by injection Hk' as <-.
Defined.

Section Construction.

Variable sha256hex : string -> string.
Variable prioritizeKeys : list Ref -> list Ref.
Hypothesis prioritizeKeys_perm : forall l, prioritizeKeys l ≡ₚ l.

Lemma construct_keys (openRouterKey : option string) (k : OpenRouterKey) :
  k ∈ construct sha256hex openRouterKey ->
  exists bare, k = newKey sha256hex bare.
Proof.
  unfold construct. destruct (option_map trim openRouterKey) as [cfg|];
    [|by intros ?%elem_of_nil].
  destruct (truthy cfg); [|by intros ?%elem_of_nil].
  intros Hk. apply list_elem_of_fmap in Hk as (bare & -> & _). eauto.
Qed.

Lemma key_newKey (bares : list string) :
  key <$> map (newKey sha256hex) bares = bares.
Proof.
  induction bares as [|b bares IH]; [done|].
  change (b :: (key <$> map (newKey sha256hex) bares) = b :: bares).
  by rewrite IH.
Qed.

Lemma elem_of_Set_from (l : list string) (x : string) :
  x ∈ GoogleAI.Set_from l <-> x ∈ l.
Proof.
  unfold GoogleAI.Set_from. split.
  - destruct (GoogleAIFacts.Set_add_all l []) as (ext & -> & Hall & _).
    simpl. intros Hx. rewrite Forall_forall in Hall. by apply Hall.
  - intros Hx. apply GoogleAIFacts.Set_add_all_complete. by right.
Qed.

(** X9. The store that the constructor builds holds each configured
    secret once: its secrets are pairwise distinct, and they are the
    comma-separated pieces of the trimmed setting, each trimmed (none when
    the setting is absent or blank). Every credential is enabled, not
    revoked, in the tier [restricted] with no balance, and hashed [or-] and
    the first eight digits of its secret's digest. As long as no probe has
    run, [get] refuses every model that is not a [:free] variant with a
    [PaymentRequiredError]. *)
Theorem fresh_pool_refuses_paid (openRouterKey : option string)
    (model : string) (now_used now_throttle : Z) :
  endsWith model ":free" = false ->
  NoDup (key <$> construct sha256hex openRouterKey)
  /\ (forall k, k ∈ construct sha256hex openRouterKey ->
        tier k = restricted /\ balance k = of_Z 0 /\ isDisabled k = false)
  /\ (get prioritizeKeys model now_used now_throttle
        (init true (construct sha256hex openRouterKey))
      = Throw "PaymentRequiredError: No OpenRouter keys available."
      \/ get prioritizeKeys model now_used now_throttle
           (init true (construct sha256hex openRouterKey))
         = Throw "PaymentRequiredError: No paid OpenRouter keys available.")
  /\ (forall secret,
        secret ∈ key <$> construct sha256hex openRouterKey <->
        exists configured,
          openRouterKey = Some configured
          /\ trim configured <> ""
          /\ exists piece,
               piece ∈ split "," (trim configured) /\ secret = trim piece)
  /\ (forall k, k ∈ construct sha256hex openRouterKey ->
        isRevoked k = false
        /\ hash k = "or-" ++ substring 0 8 (sha256hex (key k))
        /\ k = newKey sha256hex (key k)).
Proof.
  intros Hpaid. split; [|split; [|split; [|split]]].
  - unfold construct. destruct (option_map trim openRouterKey) as [cfg|];
      [|constructor].
    destruct (truthy cfg); [|constructor].
    rewrite key_newKey. apply GoogleAIFacts.Set_from_NoDup.
  - intros k Hk. apply construct_keys in Hk as [bare ->]. by repeat split.
  - simpl init.
    destruct (construct sha256hex openRouterKey) as [|k0 rest] eqn:Hc.
    + left. apply (proj1 (get_throws_payment_required prioritizeKeys model
                            now_used now_throttle [])).
      by intros k ?%elem_of_nil.
    + right. rewrite <- Hc.
      apply (proj2 (get_throws_payment_required prioritizeKeys model
                      now_used now_throttle _)); [| |done].
      * exists k0. split; [rewrite Hc; left|].
        destruct (construct_keys openRouterKey k0) as [bare ->];
          [rewrite Hc; left | by split].
      * intros k Hk _ _. apply construct_keys in Hk as [bare ->]. reflexivity.
  - intros secret. unfold construct.
    destruct openRouterKey as [configured|]; simpl.
    2:{ rewrite elem_of_nil. split; [done|]. by intros (? & ? & _). }
    unfold truthy.
    destruct (String.eqb_spec (trim configured) "") as [Hblank|Hset]; simpl.
    + rewrite elem_of_nil. split; [done|].
      intros (c & Hc & Hne & _). injection Hc as <-. done.
    + rewrite key_newKey, elem_of_Set_from. split.
      * intros Hin. exists configured. split; [done|]. split; [done|].
        apply list_elem_of_fmap in Hin as (piece & -> & Hpiece). eauto.
      * intros (c & Hc & _ & piece & Hpiece & ->). injection Hc as <-.
        apply list_elem_of_fmap. eauto.
  - intros k Hk. apply construct_keys in Hk as [bare ->]. by repeat split.
Qed.

(** X10. With key checking switched off, [init] makes every credential
    [unlimited] with a balance of 999, and [get] then succeeds for every
    model as soon as a secret is configured. *)
Theorem unchecked_pool_serves_all (configured model : string)
    (now_used now_throttle : Z) :
  truthy (trim configured) = true ->
  (forall k, k ∈ init false (construct sha256hex (Some configured)) ->
     tier k = unlimited /\ balance k = of_Z 999)
  /\ exists copy keys',
       get prioritizeKeys model now_used now_throttle
         (init false (construct sha256hex (Some configured)))
       = Ret (copy, keys')
       /\ tier copy = unlimited.
Proof.
  intros Hcfg.
  assert (Hall : forall k,
            k ∈ init false (construct sha256hex (Some configured)) ->
            tier k = unlimited /\ balance k = of_Z 999
            /\ isDisabled k = false /\ isRevoked k = false).
  { intros k Hk. simpl in Hk.
    apply list_elem_of_fmap in Hk as (k0 & -> & Hk0).
    apply construct_keys in Hk0 as [bare ->]. by repeat split. }
  split; [intros k Hk; destruct (Hall k Hk) as (? & ? & _); by split|].
  assert (Hne : exists k,
            k ∈ init false (construct sha256hex (Some configured))).
  { simpl. unfold construct. simpl. rewrite Hcfg.
    destruct (split "," (trim configured)) as [|piece pieces] eqn:Hs.
    { destruct (trim configured) as [|c s]; simpl in Hs; [discriminate|].
      destruct (Ascii.eqb c ","); [discriminate|].
      destruct (split "," s); discriminate. }
    exists (set_unlimited (newKey sha256hex (trim piece))).
    apply list_elem_of_fmap. eexists. split; [done|].
    apply list_elem_of_fmap. eexists. split; [done|].
    apply GoogleAIFacts.Set_add_all_complete. right. simpl. left. }
  destruct Hne as [k Hk]. destruct (Hall k Hk) as (Ht & Hb & Hd & Hr).
  destruct (get_returns_for prioritizeKeys prioritizeKeys_perm model
              now_used now_throttle _ k Hk Hd Hr)
    as (copy & keys' & Hget).
  - rewrite Ht. discriminate.
  - right. unfold paidFilter. by rewrite Ht, Hb.
  - exists copy, keys'. split; [done|].
    apply (get_selected prioritizeKeys prioritizeKeys_perm) in Hget
      as (i & sel & Hin & Hsel & Htouched).
    rewrite Htouched. simpl.
    apply (Hall sel). apply list_elem_of_lookup. eauto.
Qed.

End Construction.

Lemma fresh_pool_refuses_paid_witness :
  key <$> construct plainDigest
            (Some " sk-aaaaaaaaaa , sk-bbbbbbbbbbbb,sk-aaaaaaaaaa ")
  = ["sk-aaaaaaaaaa"; "sk-bbbbbbbbbbbb"]
  /\ "sk-bbbbbbbbbbbb"
     ∈ key <$> construct plainDigest
                 (Some " sk-aaaaaaaaaa , sk-bbbbbbbbbbbb,sk-aaaaaaaaaa ")
  /\ get (prioritizeKeys_spec 0) "openai/gpt-4o" 1000 1001
       (init true (construct plainDigest
                     (Some " sk-aaaaaaaaaa , sk-bbbbbbbbbbbb,sk-aaaaaaaaaa ")))
     = Throw "PaymentRequiredError: No paid OpenRouter keys available.".
Proof.
  split; [reflexivity|].
  destruct (fresh_pool_refuses_paid plainDigest (prioritizeKeys_spec 0)
              (Some " sk-aaaaaaaaaa , sk-bbbbbbbbbbbb,sk-aaaaaaaaaa ")
              "openai/gpt-4o" 1000 1001 eq_refl)
    as (_ & _ & Hget & Hsecrets & _).
  split.
  - apply Hsecrets. eexists. split; [reflexivity|].
    split; [discriminate|].
    exists " sk-bbbbbbbbbbbb". split; [|reflexivity].
    apply list_elem_of_In. vm_compute. right. by left.
  - destruct Hget as [H|H]; [vm_compute in H; discriminate | exact H].
Defined.

Lemma unchecked_pool_serves_all_witness :
  exists copy keys',
    get (prioritizeKeys_spec 0) "openai/gpt-4o" 1000 1001
      (init false (construct plainDigest (Some "sk-aaaaaaaaaa")))
    = Ret (copy, keys')
    /\ tier copy = unlimited.
Proof.
  apply (unchecked_pool_serves_all plainDigest (prioritizeKeys_spec 0)
           (prioritizeKeys_spec_perm 0) "sk-aaaaaaaaaa" "openai/gpt-4o"
           1000 1001 eq_refl).
Defined.

End ProviderBookFacts.

(** ** The key checker and the pool together *)

Module CheckerOpsFacts.
Import Provider ProviderOps ProviderTests ProviderOpsTests ProviderFacts.
Import ProviderOpsFacts ProviderBookFacts Checker CheckerTests.

Lemma deriveTier_funded (limit : option number) (usage balance : number)
    (isFreeTier : bool) :
  (deriveTier limit usage balance isFreeTier = unlimited
   \/ deriveTier limit usage balance isFreeTier = limited)
  <-> (match limit with Some l => Js.ge usage l | None => false end) = false
      /\ Js.gt balance (of_Z 0) = true.
Proof.
  unfold deriveTier.
  destruct (match limit with Some l => Js.ge usage l | None => false end).
  { split; [intros [?|?]; discriminate | intros [? _]; discriminate]. }
  destruct (Js.gt balance (of_Z 0)).
  { split; [done|]. intros _. destruct limit; auto. }
  split; [|intros [_ ?]; discriminate].
  destruct isFreeTier; intros [?|?]; discriminate.
Qed.

Section ProbeAndPool.

Variable parseInt : string -> number.

(** X11. After a successful probe the credential passes the filter for
    paid models exactly when the probe classed it [unlimited] or
    [limited]: a credential found [restricted] serves no paid model until
    a later probe says otherwise. *)
Theorem probe_tier_decides_paid (k : OpenRouterKey)
    (keyResult : settled (option KeyData)) (creditsResult : settled number)
    (h : string) (upd : PartialKey) (now : Z) (stored : OpenRouterKey) :
  testKeyOrFail parseInt k keyResult creditsResult = Ret (h, upd) ->
  paidFilter (assign now upd stored) = true
  <-> (tier (assign now upd stored) = unlimited
       \/ tier (assign now upd stored) = limited).
Proof.
  intros Hprobe.
  destruct keyResult as [[keyData|]|reason]; simpl in Hprobe;
    try discriminate.
  injection Hprobe as _ <-. simpl.
  rewrite paidFilter_spec. simpl.
  set (usage := or_zero (kd_usage keyData)).
  set (balance := match creditsResult with
                  | fulfilled total_credits => or_zero total_credits
                  | rejected _ => fallbackBalance (kd_limit keyData) usage
                  end).
  rewrite deriveTier_funded.
  unfold deriveTier.
  destruct (match kd_limit keyData with
            | Some l => Js.ge usage l
            | None => false
            end) eqn:Hreached.
  { split; [intros [Hd _]; exfalso; by apply Hd | intros [? _]; discriminate]. }
  destruct (Js.gt balance (of_Z 0)) eqn:Hgt.
  { split; [done|]. intros _. split; [|by left].
    destruct (kd_limit keyData); discriminate. }
  split; [|intros [_ ?]; discriminate].
  intros [Hd [?|Hu]]; [discriminate|].
  destruct (is_free_tier keyData); discriminate.
Qed.

(** X12. What the tier written by a successful probe tells: [limited],
    that there is a credit limit not yet reached and a positive balance;
    [unlimited], that there is no credit limit and a positive balance;
    [restricted], that the key is on the free tier without a positive
    balance. *)
Theorem probe_tier_meaning (k : OpenRouterKey) (keyData : KeyData)
    (creditsResult : settled number) (h : string) (upd : PartialKey) :
  testKeyOrFail parseInt k (fulfilled (Some keyData)) creditsResult
  = Ret (h, upd) ->
  exists balance,
    p_balance upd = Some balance
    /\ (p_tier upd = Some limited ->
        exists limit, kd_limit keyData = Some limit
                      /\ Js.ge (or_zero (kd_usage keyData)) limit = false
                      /\ Js.gt balance (of_Z 0) = true)
    /\ (p_tier upd = Some unlimited ->
        kd_limit keyData = None /\ Js.gt balance (of_Z 0) = true)
    /\ (p_tier upd = Some restricted ->
        is_free_tier keyData = true /\ Js.gt balance (of_Z 0) = false).
Proof.
  simpl. intros Hprobe. injection Hprobe as _ <-. simpl.
  eexists. split; [reflexivity|].
  unfold deriveTier.
  destruct (kd_limit keyData) as [limit|].
  - destruct (Js.ge (or_zero (kd_usage keyData)) limit) eqn:Hge.
    { repeat split; discriminate. }
    destruct (Js.gt _ (of_Z 0)).
    { split; [intros _; by exists limit|]. split; discriminate. }
    destruct (is_free_tier keyData); repeat split; try discriminate; done.
  - destruct (Js.gt _ (of_Z 0)).
    { split; [discriminate|]. split; [done | discriminate]. }
    destruct (is_free_tier keyData); repeat split; try discriminate; done.
Qed.

Variable prioritizeKeys : list Ref -> list Ref.
Hypothesis prioritizeKeys_perm : forall l, prioritizeKeys l ≡ₚ l.

(** X13. In a store of pairwise distinct hashes, a credential whose probe
    failed with 401 or 402 is not handed out by [get] any more, not even
    after [recheck] has enabled it again: its tier stays [deadkey]. *)
Theorem dead_key_stays_out (k : OpenRouterKey) (status : option Z)
    (h : string) (upd : PartialKey) (now : Z) (clock : nat -> Z)
    (model : string) (now_used now_throttle : Z)
    (keys keys1 keys2 keys3 : list OpenRouterKey) (copy : OpenRouterKey) :
  NoDup (hash <$> keys) ->
  handleAxiosError k status = Some (h, upd) ->
  update h upd now keys = Ret keys1 ->
  recheck clock keys1 = Ret keys2 ->
  get prioritizeKeys model now_used now_throttle keys2 = Ret (copy, keys3) ->
  hash copy <> hash k.
Proof.
  intros Hnodup Herr Hupd Hrec Hget.
  assert (Hdead : h = hash k /\ p_tier upd = Some deadkey).
  { unfold handleAxiosError in Herr.
    destruct status as [[|p|p]|]; try discriminate.
    do 9 (destruct p as [p|p|]; try discriminate);
      injection Herr as <- <-; by split. }
  destruct Hdead as [-> Hdead].
  unfold update in Hupd.
  destruct (findByHash (hash k) keys) as [[j kj]|] eqn:Hfind;
    [|discriminate].
  injection Hupd as <-.
  apply findByHash_Some in Hfind as [Hj Hhj].
  assert (Hnodup1 : NoDup (hash <$> <[j:=assign now upd kj]> keys)).
  { by rewrite (hash_insert_same j kj). }
  destruct (recheck_spec clock _ Hnodup1)
    as (keys2' & Hrec' & Hlen & Hall).
  rewrite Hrec in Hrec'. injection Hrec' as <-.
  destruct (Hall j (assign now upd kj)) as (kd & Hkd & Hr & _).
  { apply list_lookup_insert_eq. by eapply lookup_lt_Some. }
  destruct Hr as (_ & Hhash & _ & Htier & _). simpl in Hhash, Htier.
  rewrite Hdead in Htier. simpl in Htier.
  apply (get_selected prioritizeKeys prioritizeKeys_perm) in Hget
    as (i & sel & Hin & Hsel & Htouched).
  assert (Hlive : tier sel <> deadkey).
  { destruct (endsWith model ":free").
    - by apply elem_of_freeKeys in Hin as [_ ?].
    - apply elem_of_paidKeys in Hin as [_ Hp].
      by apply paidFilter_spec in Hp as [? _]. }
  rewrite Htouched. simpl. intros Hsame.
  assert (Hnodup2 : NoDup (hash <$> keys2)).
  { replace (hash <$> keys2) with (hash <$> <[j:=assign now upd kj]> keys);
      [done|].
    apply list_eq. intros n. rewrite !list_lookup_fmap.
    destruct (<[j:=assign now upd kj]> keys !! n) as [kn|] eqn:Hn.
    - destruct (Hall n kn Hn) as (kn' & -> & (_ & Hsame' & _) & _).
      simpl. by rewrite Hsame'.
    - apply lookup_ge_None in Hn. rewrite <- Hlen in Hn.
      apply lookup_ge_None in Hn. by rewrite Hn. }
  assert (i = j) as ->.
  { eapply (NoDup_lookup _ _ _ _ Hnodup2).
    - rewrite list_lookup_fmap, Hsel. simpl. by rewrite Hsame.
    - rewrite list_lookup_fmap, Hkd. simpl. by rewrite Hhash, Hhj. }
  rewrite Hkd in Hsel. injection Hsel as <-. done.
Qed.

End ProbeAndPool.

Lemma probe_tier_decides_paid_witness :
  exists upd,
    testKeyOrFail parseDecimal untested (fulfilled (Some monthlyData))
      (fulfilled (of_Z 6)) = Ret ("or-00000002", upd)
    /\ paidFilter untested = false
    /\ paidFilter (assign 5000 upd untested) = true.
Proof.
  eexists. split; [reflexivity|]. split; [reflexivity|].
  apply (probe_tier_decides_paid parseDecimal untested
           (fulfilled (Some monthlyData)) (fulfilled (of_Z 6))
           _ _ 5000%Z untested eq_refl).
  right. reflexivity.
Defined.

Lemma probe_tier_meaning_witness :
  exists upd,
    testKeyOrFail parseDecimal prepaid (fulfilled (Some prepaidData))
      (rejected "timeout") = Ret ("or-00000004", upd)
    /\ p_tier upd = Some unlimited
    /\ kd_limit prepaidData = None.
Proof.
  eexists. split; [reflexivity|]. split; [reflexivity|].
  destruct (probe_tier_meaning parseDecimal prepaid prepaidData
              (rejected "timeout") _ _ eq_refl)
    as (balance & _ & _ & Hunlimited & _).
  apply Hunlimited. reflexivity.
Defined.

Lemma dead_key_stays_out_witness :
  exists upd keys1 keys2 copy keys3,
    handleAxiosError funded (Some 402%Z) = Some ("or-00000003", upd)
    /\ update "or-00000003" upd 5000 pool = Ret keys1
    /\ recheck (fun n => 6000 + Z.of_nat n)%Z keys1 = Ret keys2
    /\ (exists k, keys2 !! 2%nat = Some k /\ isDisabled k = false)
    /\ get (prioritizeKeys_spec 7000) "openai/gpt-4o" 7000 7001 keys2
       = Ret (copy, keys3)
    /\ hash copy <> "or-00000003".
Proof.
  destruct (handleAxiosError funded (Some 402%Z)) as [[h upd]|] eqn:Herr;
    [|discriminate].
  assert (h = "or-00000003") as -> by (by injection Herr as <- _).
  destruct (update "or-00000003" upd 5000 pool) as [keys1|] eqn:Hupd;
    [|injection Herr as <-; vm_compute in Hupd; discriminate].
  destruct (recheck (fun n => 6000 + Z.of_nat n)%Z keys1) as [keys2|] eqn:Hrec;
    [|injection Herr as <-; vm_compute in Hupd; injection Hupd as <-;
      vm_compute in Hrec; discriminate].
  destruct (get (prioritizeKeys_spec 7000) "openai/gpt-4o" 7000 7001 keys2)
    as [[copy keys3]|] eqn:Hget;
    [|injection Herr as <-; vm_compute in Hupd; injection Hupd as <-;
      vm_compute in Hrec; injection Hrec as <-;
      vm_compute in Hget; discriminate].
  exists upd, keys1, keys2, copy, keys3.
  split; [reflexivity|]. split; [exact Hupd|]. split; [exact Hrec|].
  split.
  { clear Hget. injection Herr as <-. vm_compute in Hupd.
    injection Hupd as <-. vm_compute in Hrec. injection Hrec as <-.
    eexists. split; reflexivity. }
  split; [exact Hget|].
  apply (dead_key_stays_out (prioritizeKeys_spec 7000)
           (prioritizeKeys_spec_perm 7000) funded (Some 402%Z)
           "or-00000003" upd 5000 (fun n => 6000 + Z.of_nat n)%Z
           "openai/gpt-4o" 7000 7001 pool keys1 keys2 keys3 copy).
  - apply (bool_decide_unpack _). vm_compute. exact I.
  - exact Herr.
  - exact Hupd.
  - exact Hrec.
  - exact Hget.
Defined.

End CheckerOpsFacts.

(** ** The resolver and the catalogue it reads *)

Module ResolverOpsFacts.
Import Resolver ResolverTests ResolverFacts.

Lemma find_Some {A} (p : A -> outcome bool) (l : list A) (x : A) :
  Js.find p l = Ret (Some x) -> x ∈ l /\ p x = Ret true.
Proof.
  induction l as [|y l IH]; simpl; [discriminate|].
  destruct (p y) as [[|]|e] eqn:Hp; simpl; try discriminate.
  - intros [= <-]. split; [left | done].
  - intros H. destruct (IH H) as [Hin Hx]. split; [by right | done].
Qed.

Lemma find_None {A} (p : A -> outcome bool) (l : list A) :
  Js.find p l = Ret None -> forall x, x ∈ l -> p x = Ret false.
Proof.
  induction l as [|y l IH]; simpl; intros H x Hx.
  - by apply elem_of_nil in Hx.
  - destruct (p y) as [[|]|e] eqn:Hp; simpl in H; try discriminate.
    apply elem_of_cons in Hx as [->|Hx]; [done | by apply IH].
Qed.

Lemma filter_Ret {A} (p : A -> outcome bool) (l r : list A) (x : A) :
  Js.filter p l = Ret r -> x ∈ r -> x ∈ l /\ p x = Ret true.
Proof.
  revert r. induction l as [|y l IH]; simpl; intros r.
  - intros [= <-] Hx. by apply elem_of_nil in Hx.
  - destruct (p y) as [b|e] eqn:Hp; simpl; [|discriminate].
    destruct (Js.filter p l) as [r'|e]; simpl; [|discriminate].
    intros [= <-] Hx. destruct b.
    + apply elem_of_cons in Hx as [->|Hx]; [split; [left | done]|].
      destruct (IH r' eq_refl Hx). split; [by right | done].
    + destruct (IH r' eq_refl Hx). split; [by right | done].
Qed.

Lemma filter_Throw {A} (p : A -> outcome bool) (l : list A) (x : A)
    (e : string) :
  x ∈ l -> p x = Throw e ->
  (forall y e', p y = Throw e' -> e' = e) ->
  Js.filter p l = Throw e.
Proof.
  intros Hx Hp Hone. induction l as [|y l IH]; [by apply elem_of_nil in Hx|].
  simpl. destruct (p y) as [b|e'] eqn:Hy; simpl.
  - apply elem_of_cons in Hx as [->|Hx]; [congruence|].
    by rewrite (IH Hx).
  - by rewrite (Hone y e' Hy).
Qed.

(** The search by shortcuts, when it finds a model. *)
Lemma fuzzySearch_Some (inputLow : string) (models : list ModelMetadata)
    (m : ModelMetadata) :
  fuzzySearch inputLow models = Ret (Some m) ->
  exists candidates,
    candidatesOf inputLow models = Ret candidates
    /\ m ∈ candidates
    /\ (exactSuffix inputLow m = Ret true
        \/ ((forall c, c ∈ candidates -> exactSuffix inputLow c = Ret false)
            /\ normalizedSuffix inputLow m = Ret true)
        \/ ((forall c, c ∈ candidates ->
               exactSuffix inputLow c = Ret false
               /\ normalizedSuffix inputLow c = Ret false)
            /\ candidates = [m])).
Proof.
  unfold fuzzySearch.
  destruct (candidatesOf inputLow models) as [candidates|e]; simpl;
    [|discriminate].
  intros H. exists candidates. split; [done|].
  destruct (Js.find (exactSuffix inputLow) candidates) as [[x|]|e] eqn:Hexact;
    simpl in H; try discriminate.
  { injection H as ->. apply find_Some in Hexact as [Hin Hp]. auto. }
  pose proof (find_None _ _ Hexact) as Hno.
  destruct (Js.find (normalizedSuffix inputLow) candidates) as [[x|]|e]
    eqn:Hnorm; simpl in H; try discriminate.
  { injection H as ->. apply find_Some in Hnorm as [Hin Hp]. auto. }
  pose proof (find_None _ _ Hnorm) as Hno'.
  destruct candidates as [|c [|c' rest]]; try discriminate.
  injection H as ->. split; [left|]. right. right. split; [|done].
  intros c Hc. split; [by apply Hno | by apply Hno'].
Qed.

Lemma resolveModel_found (userInput : string) (whitelist : Whitelist)
    (config : Config) (m : ModelMetadata) (error : option string) :
  resolveModel userInput whitelist config = Ret (Some m, error) ->
  checkPolicy m config = (Some m, error)
  /\ (exactMatch (toLowerCase userInput) (allModels whitelist) = Some m
      \/ (exactMatch (toLowerCase userInput) (allModels whitelist) = None
          /\ fuzzySearch (toLowerCase userInput) (allModels whitelist)
             = Ret (Some m))).
Proof.
  unfold resolveModel. cbv zeta.
  assert (Hpol : forall found,
            checkPolicy found config = (Some m, error) -> found = m).
  { intros found. unfold checkPolicy.
    destruct (_ && negb (allowPaid config)); [discriminate|].
    destruct (_ && negb (allowModerated config)); [discriminate|].
    by intros [= ->]. }
  destruct (exactMatch _ _) as [found|] eqn:Hexact.
  - intros [= H]. pose proof (Hpol _ H) as ->. auto.
  - destruct (fuzzySearch _ _) as [[found|]|e] eqn:Hfuzzy; simpl;
      try discriminate.
    intros [= H]. pose proof (Hpol _ H) as ->. auto.
Qed.

Lemma resolveModel_Some_inv (userInput : string) (whitelist : Whitelist)
    (config : Config) (m : ModelMetadata) (error : option string) :
  resolveModel userInput whitelist config = Ret (Some m, error) ->
  error = None
  /\ m ∈ allModels whitelist
  /\ (allowPaid config = false ->
      pricing_input m = "0" /\ pricing_output m = "0")
  /\ (allowModerated config = false -> is_moderated m = false).
Proof.
  intros Hres. apply resolveModel_found in Hres as [Hpol Hwhere].
  split; [|split; [|split]].
  - revert Hpol. unfold checkPolicy.
    destruct (_ && negb (allowPaid config)); [discriminate|].
    destruct (_ && negb (allowModerated config)); [discriminate|].
    by intros [= <-].
  - destruct Hwhere as [Hexact | [_ Hfuzzy]].
    + by apply exactMatch_Some in Hexact as [? _].
    + apply fuzzySearch_Some in Hfuzzy as (candidates & Hc & Hm & _).
      by apply (filter_Ret _ _ _ _ Hc) in Hm as [? _].
  - intros Hpaid. revert Hpol. unfold checkPolicy. rewrite Hpaid. simpl.
    rewrite andb_true_r.
    destruct (String.eqb_spec (pricing_input m) "0") as [->|];
      [|discriminate].
    destruct (String.eqb_spec (pricing_output m) "0") as [->|];
      [done | discriminate].
  - intros Hmod. revert Hpol. unfold checkPolicy.
    destruct (_ && negb (allowPaid config)); [discriminate|].
    rewrite Hmod. simpl. rewrite andb_true_r.
    by destruct (is_moderated m).
Qed.

(** X14. A model that [resolveModel] returns is a model of the catalogue
    and comes without an error; it is free (both prices the text [0])
    when paid models are not allowed, and not moderated when moderated
    models are not allowed. *)
Theorem resolveModel_sound (userInput : string) (whitelist : Whitelist)
    (config : Config) (m : ModelMetadata) (error : option string) :
  resolveModel userInput whitelist config = Ret (Some m, error) ->
  error = None
  /\ m ∈ allModels whitelist
  /\ (allowPaid config = false ->
      pricing_input m = "0" /\ pricing_output m = "0")
  /\ (allowModerated config = false -> is_moderated m = false).
Proof. apply resolveModel_Some_inv. Qed.

Lemma resolveModel_sound_witness :
  resolveModel "llama" catalogue frugal = Ret (Some llama_free, None)
  /\ pricing_input llama_free = "0" /\ pricing_output llama_free = "0".
Proof.
  split; [reflexivity|].
  apply (resolveModel_sound "llama" catalogue frugal llama_free None);
    reflexivity.
Defined.

(** X15. When no id matches the input exactly and a shortcut gives a
    provider prefix, a model found by the search has an id that starts
    with that prefix, and its suffix after the slash matches the input in
    one of three ways tried in this order: equal to it, equal to it once
    both are normalized, or the only candidate. *)
Theorem fuzzy_match_within_provider (userInput : string)
    (whitelist : Whitelist) (config : Config) (m : ModelMetadata)
    (prefix : string) :
  exactMatch (toLowerCase userInput) (allModels whitelist) = None ->
  detectPrefix (toLowerCase userInput) = Some prefix ->
  resolveModel userInput whitelist config = Ret (Some m, None) ->
  startsWith (id m) prefix = true
  /\ exists candidates,
       candidatesOf (toLowerCase userInput) (allModels whitelist)
       = Ret candidates
       /\ m ∈ candidates
       /\ (exactSuffix (toLowerCase userInput) m = Ret true
           \/ ((forall c, c ∈ candidates ->
                  exactSuffix (toLowerCase userInput) c = Ret false)
               /\ normalizedSuffix (toLowerCase userInput) m = Ret true)
           \/ ((forall c, c ∈ candidates ->
                  exactSuffix (toLowerCase userInput) c = Ret false
                  /\ normalizedSuffix (toLowerCase userInput) c = Ret false)
               /\ candidates = [m])).
Proof.
  intros Hexact Hprefix Hres.
  apply resolveModel_found in Hres as [_ [H | [_ Hfuzzy]]]; [congruence|].
  apply fuzzySearch_Some in Hfuzzy as (candidates & Hc & Hm & Hhow).
  split; [|eauto].
  pose proof Hc as Hc'. unfold candidatesOf in Hc'. rewrite Hprefix in Hc'.
  apply (filter_Ret _ _ _ _ Hc') in Hm as [_ Hcand].
  unfold isCandidate in Hcand.
  by destruct (startsWith (id m) prefix).
Qed.

Lemma fuzzy_match_within_provider_witness :
  resolveModel "Claude-35-Sonnet" catalogue
    {| allowPaid := true; allowModerated := true |} = Ret (Some claude, None)
  /\ startsWith (id claude) "anthropic/" = true.
Proof.
  split; [reflexivity|].
  apply (fuzzy_match_within_provider "Claude-35-Sonnet" catalogue
           {| allowPaid := true; allowModerated := true |} claude
           "anthropic/"); reflexivity.
Defined.

(** X16. A catalogued id without a slash makes the search throw: when no
    id matches the input exactly and no shortcut gives a provider prefix,
    [resolveModel] ends in a [TypeError] instead of an answer. *)
Theorem resolveModel_slashless_id_throws (userInput : string)
    (whitelist : Whitelist) (config : Config) (m : ModelMetadata) :
  exactMatch (toLowerCase userInput) (allModels whitelist) = None ->
  detectPrefix (toLowerCase userInput) = None ->
  m ∈ allModels whitelist ->
  includes (id m) "/" = false ->
  resolveModel userInput whitelist config = Throw "TypeError".
Proof.
  intros Hexact Hprefix Hm Hslash.
  unfold resolveModel. cbv zeta. rewrite Hexact.
  unfold fuzzySearch, candidatesOf. rewrite Hprefix.
  rewrite (filter_Throw _ _ m "TypeError"); [done | done | |].
  - unfold isCandidate, second_piece.
    assert (Hsplit : forall s, includes s "/" = false ->
              exists piece, split "/" (toLowerCase s) = [piece]).
    { clear. induction s as [|c s IH]; [by exists ""|].
      rewrite includes_slash_cons. cbn [toLowerCase split].
      rewrite lower_ascii_slash.
      destruct (Ascii.eqb c "/"); [discriminate|]. simpl.
      intros Hs. destruct (IH Hs) as [piece ->]. eauto. }
    by destruct (Hsplit _ Hslash) as [piece ->].
  - intros y e'. unfold isCandidate, second_piece.
    destruct (split "/" (toLowerCase (id y))) as [|a [|b rest]]; simpl.
    + by intros [= <-].
    + by intros [= <-].
    + destruct (_ || _); [discriminate|].
      destruct (String.eqb _ _); discriminate.
Qed.

Lemma resolveModel_slashless_id_throws_witness :
  resolveModel "llama"
    (("OpRout_Other", [mk "orphan" "0" "0" false]) :: catalogue) permissive
  = Throw "TypeError".
Proof.
  apply (resolveModel_slashless_id_throws "llama" _ permissive
           (mk "orphan" "0" "0" false)).
  - reflexivity.
  - reflexivity.
  - left.
  - reflexivity.
Defined.

End ResolverOpsFacts.

Module WhitelistFacts.
Import Resolver ResolverTests ResolverFacts WhitelistGenerator WhitelistTests.

Lemma allModels_resetFamily (cat : string) (result : Whitelist) :
  allModels result = [] -> allModels (resetFamily cat result) = [].
Proof.
  unfold allModels.
  induction result as [|[f l] result IH]; simpl; [done|].
  intros H. apply app_eq_nil in H as [-> H].
  destruct (String.eqb f cat); simpl; [done|]. by apply IH.
Qed.

Lemma familyOf_resetFamily (cat f : string) (result : Whitelist) :
  default [] (familyOf f result) = [] ->
  default [] (familyOf f (resetFamily cat result)) = [].
Proof.
  induction result as [|[g l] result IH]; simpl.
  - by destruct (String.eqb cat f).
  - destruct (String.eqb_spec g cat) as [->|Hg]; simpl.
    + by destruct (String.eqb cat f).
    + destruct (String.eqb g f); [done | exact IH].
Qed.

Lemma allModels_pushModel (category : string) (p : ModelMetadata)
    (result : Whitelist) :
  allModels (pushModel category p result) ≡ₚ p :: allModels result.
Proof.
  unfold allModels.
  induction result as [|[f l] result IH]; simpl; [done|].
  destruct (String.eqb f category); simpl.
  - rewrite <- app_assoc. simpl.
    by rewrite <- Permutation_middle.
  - rewrite IH. by rewrite <- Permutation_middle.
Qed.

Lemma familyOf_pushModel (category f : string) (p : ModelMetadata)
    (result : Whitelist) :
  default [] (familyOf f (pushModel category p result))
  = (default [] (familyOf f result)
     ++ if String.eqb category f then [p] else [])%list.
Proof.
  induction result as [|[g l] result IH]; simpl.
  - by destruct (String.eqb category f).
  - destruct (String.eqb_spec g category) as [->|Hg]; simpl.
    + destruct (String.eqb category f); simpl; [done|].
      by rewrite app_nil_r.
    + destruct (String.eqb_spec g f) as [->|Hf]; simpl; [|exact IH].
      destruct (String.eqb_spec category f); [congruence|].
      by rewrite app_nil_r.
Qed.

Section GenerateFacts.

Variable OPENROUTER_FAMILY_MAP : list (string * string).
Variable regexTest : string -> string -> bool.

Lemma emptyFamilies_empty :
  allModels (emptyFamilies OPENROUTER_FAMILY_MAP) = []
  /\ forall f,
       default [] (familyOf f (emptyFamilies OPENROUTER_FAMILY_MAP)) = [].
Proof.
  unfold emptyFamilies.
  assert (H : forall cats result,
            allModels result = [] ->
            (forall f, default [] (familyOf f result) = []) ->
            allModels (fold_left (fun r cat => resetFamily cat r) cats result)
            = []
            /\ forall f,
                 default []
                   (familyOf f
                      (fold_left (fun r cat => resetFamily cat r) cats result))
                 = []).
  { induction cats as [|cat cats IH]; intros result Hall Hfam; simpl;
      [done|].
    apply IH; [by apply allModels_resetFamily|].
    intros f. by apply familyOf_resetFamily. }
  by apply H.
Qed.

(** The whitelist after the models [done] have been pushed. *)
Lemma generateWhitelist_snoc (models : list RawModel) (m : RawModel) :
  generateWhitelist OPENROUTER_FAMILY_MAP regexTest
    (Some (models ++ [m])%list)
  = pushModel (categoryOf OPENROUTER_FAMILY_MAP regexTest (raw_id m))
      (process m)
      (generateWhitelist OPENROUTER_FAMILY_MAP regexTest (Some models)).
Proof. unfold generateWhitelist. by rewrite fold_left_app. Qed.

Lemma generateWhitelist_perm (models : list RawModel) :
  allModels (generateWhitelist OPENROUTER_FAMILY_MAP regexTest (Some models))
  ≡ₚ map process models.
Proof.
  induction models as [|m models IH] using rev_ind.
  - simpl. by rewrite (proj1 emptyFamilies_empty).
  - rewrite generateWhitelist_snoc, allModels_pushModel, IH, map_app.
    simpl. by rewrite Permutation_cons_append.
Qed.

(** X17. The whitelist holds every model of the upstream list exactly
    once, none lost and none twice; without an upstream list every family
    is empty. *)
Theorem generateWhitelist_keeps_every_model (models : list RawModel) :
  allModels (generateWhitelist OPENROUTER_FAMILY_MAP regexTest (Some models))
  ≡ₚ map process models
  /\ allModels (generateWhitelist OPENROUTER_FAMILY_MAP regexTest None) = [].
Proof.
  split; [apply generateWhitelist_perm | apply emptyFamilies_empty].
Qed.

(** X18. Under each family the whitelist lists, in upstream order, the
    models whose id is matched first by a pattern of that family, and
    under [OpRout_Other] those that no pattern matches. *)
Theorem generateWhitelist_by_family (models : list RawModel)
    (family : string) :
  default []
    (familyOf family
       (generateWhitelist OPENROUTER_FAMILY_MAP regexTest (Some models)))
  = map process
      (List.filter
         (fun m => String.eqb
                     (categoryOf OPENROUTER_FAMILY_MAP regexTest (raw_id m))
                     family)
         models)
  /\ forall modelId,
       (forall e, e ∈ OPENROUTER_FAMILY_MAP -> regexTest e.1 modelId = false) ->
       categoryOf OPENROUTER_FAMILY_MAP regexTest modelId = "OpRout_Other".
Proof.
  split.
  - induction models as [|m models IH] using rev_ind.
    + simpl. apply emptyFamilies_empty.
    + rewrite generateWhitelist_snoc, familyOf_pushModel, IH.
      rewrite List.filter_app, map_app. simpl.
      by destruct (String.eqb _ family).
  - intros modelId Hnone. unfold categoryOf.
    destruct (List.find _ OPENROUTER_FAMILY_MAP) as [e|] eqn:Hfind; [|done].
    apply find_some in Hfind as [Hin Ht].
    rewrite Hnone in Ht; [discriminate | by apply list_elem_of_In].
Qed.

(** X19. Every model of the upstream list is resolved by its own id, in
    any case of letters, on the whitelist generated from the list: the
    answer is the policy check of a catalogued model with that id, and so
    never [not_found]. *)
Theorem upstream_id_resolves (models : list RawModel) (m : RawModel)
    (userInput : string) (config : Config) :
  m ∈ models ->
  toLowerCase userInput = toLowerCase (raw_id m) ->
  exists found,
    found ∈ map process models
    /\ toLowerCase (id found) = toLowerCase (raw_id m)
    /\ resolveModel userInput
         (generateWhitelist OPENROUTER_FAMILY_MAP regexTest (Some models))
         config
       = Ret (checkPolicy found config).
Proof.
  intros Hm Hinput.
  set (whitelist :=
         generateWhitelist OPENROUTER_FAMILY_MAP regexTest (Some models)).
  assert (Hin : process m ∈ allModels whitelist).
  { subst whitelist. rewrite generateWhitelist_perm.
    apply list_elem_of_fmap. eauto. }
  destruct (exactMatch_first (toLowerCase userInput) (allModels whitelist)
              (process m) Hin) as [found Hfound]; [by rewrite Hinput|].
  destruct (exactMatch_Some _ _ _ Hfound) as [Hfin Hfid].
  exists found. split; [|split].
  - subst whitelist. by rewrite generateWhitelist_perm in Hfin.
  - by rewrite Hfid.
  - unfold resolveModel. cbv zeta. fold whitelist. by rewrite Hfound.
Qed.

End GenerateFacts.

Lemma generateWhitelist_by_family_witness :
  map id
    (default []
       (familyOf "OpRout_OpenAI"
          (generateWhitelist familyRules caretTest (Some upstream))))
  = ["openai/gpt-4o"; "openai/gpt-4o-mini"]
  /\ categoryOf familyRules caretTest "meta-llama/llama-3-8b:free"
     = "OpRout_Other".
Proof.
  destruct (generateWhitelist_by_family familyRules caretTest upstream
              "OpRout_OpenAI") as [Hfam Hother].
  split; [by rewrite Hfam|].
  apply Hother.
  intros e He. apply list_elem_of_In in He. simpl in He.
  destruct He as [<- | [<- | []]]; reflexivity.
Defined.

Lemma upstream_id_resolves_witness :
  exists found,
    id found = "anthropic/claude-3.5-sonnet"
    /\ resolveModel "Anthropic/Claude-3.5-Sonnet"
         (generateWhitelist familyRules caretTest (Some upstream)) permissive
       = Ret (checkPolicy found permissive).
Proof.
  destruct (upstream_id_resolves familyRules caretTest upstream
              (rawOf "anthropic/claude-3.5-sonnet" "0.000003")
              "Anthropic/Claude-3.5-Sonnet" permissive)
    as (found & Hin & Hid & Hres).
  - do 2 right. left.
  - reflexivity.
  - exists found. split; [|exact Hres].
    apply list_elem_of_In in Hin. simpl in Hin.
    destruct Hin as [<- | [<- | [<- | [<- | []]]]];
      first [reflexivity | vm_compute in Hid; discriminate].
Defined.

End WhitelistFacts.

(** ** The request transformers *)

Module GoogleAIMessagesFacts.
Import GoogleAI GoogleAITests GoogleAIMessages GoogleAIMessagesTests.

#[local] Arguments role {Content} _.
#[local] Arguments content {Content} _.
#[local] Arguments name {Content} _.

Lemma append_assoc (a b c : string) : (a ++ b) ++ c = a ++ b ++ c.
Proof.
  induction a as [|x a IH]; [done|].
  change (String x ((a ++ b) ++ c) = String x (a ++ b ++ c)).
  by rewrite IH.
Qed.

Lemma append_nil_inv (a b : string) : a ++ b = "" -> a = "" /\ b = "".
Proof. destruct a; simpl; [done | discriminate]. Qed.

(** The blank line between merged texts. *)
Definition blank : string := LF ++ LF.

Lemma concat_snoc (sep t : string) (l : list string) :
  l <> [] ->
  String.concat sep (l ++ [t])%list = String.concat sep l ++ sep ++ t.
Proof.
  induction l as [|x l IH]; [done|]. intros _.
  destruct l as [|y l]; [done|].
  change (x ++ sep ++ String.concat sep ((y :: l) ++ [t])%list
          = (x ++ sep ++ String.concat sep (y :: l)) ++ sep ++ t).
  rewrite IH by done. by rewrite !append_assoc.
Qed.

Lemma concat_merge (l : list string) (a b : string) :
  String.concat (LF ++ LF) (l ++ [(a ++ LF ++ LF ++ b)%string])%list
  = String.concat (LF ++ LF) (l ++ [a])%list ++ (LF ++ LF) ++ b.
Proof.
  destruct l as [|x l].
  - simpl String.concat. by rewrite !append_assoc.
  - rewrite !concat_snoc by done. by rewrite !append_assoc.
Qed.

Lemma snoc_split {A} (init l1 l2 : list A) (x a b : A) :
  (init ++ [x])%list = (l1 ++ a :: b :: l2)%list ->
  (l2 = [] /\ b = x /\ init = (l1 ++ [a])%list)
  \/ exists l2', l2 = (l2' ++ [x])%list /\ init = (l1 ++ a :: b :: l2')%list.
Proof.
  intros H. destruct l2 as [|y l2 _] using rev_ind.
  - left. change (l1 ++ [a; b])%list with (l1 ++ [a] ++ [b])%list in H.
    rewrite app_assoc in H. apply app_inj_tail in H as [-> ->]. done.
  - right. exists l2.
    change (l1 ++ a :: b :: l2 ++ [y])%list
      with (l1 ++ (a :: b :: l2) ++ [y])%list in H.
    rewrite app_assoc in H. apply app_inj_tail in H as [-> ->]. done.
Qed.

(** No two neighbours of the same role. *)
Definition alternating (l : list GoogleContent) : Prop :=
  forall l1 a b l2, l = (l1 ++ a :: b :: l2)%list -> g_role a <> g_role b.

Lemma mergeStep_cases (acc : list GoogleContent) (msg : GoogleContent) :
  (acc = [] /\ mergeStep acc msg = [msg])
  \/ (exists init prev,
        acc = (init ++ [prev])%list
        /\ g_role prev = g_role msg
        /\ mergeStep acc msg
           = (init ++ [ {| text := text prev ++ LF ++ LF ++ text msg;
                           g_role := g_role prev |} ])%list)
  \/ (exists init prev,
        acc = (init ++ [prev])%list
        /\ g_role prev <> g_role msg
        /\ mergeStep acc msg = (acc ++ [msg])%list).
Proof.
  unfold mergeStep. destruct (last acc) as [prev|] eqn:Hlast.
  - apply last_Some in Hlast as [init ->].
    destruct (String.eqb_spec (g_role prev) (g_role msg)) as [Heq|Hne].
    + right. left. exists init, prev. rewrite removelast_last. done.
    + right. right. by exists init, prev.
  - apply last_None in Hlast as ->. by left.
Qed.

Lemma mergeStep_alternating (acc : list GoogleContent) (msg : GoogleContent) :
  alternating acc -> alternating (mergeStep acc msg).
Proof.
  intros Halt.
  destruct (mergeStep_cases acc msg)
    as [[-> ->] | [(init & prev & -> & Hrole & ->)
                  | (init & prev & -> & Hrole & ->)]];
    intros l1 a b l2 Heq.
  - by destruct l1 as [|? [|? ?]].
  - apply snoc_split in Heq as [(-> & Hb & ->) | (l2' & -> & ->)].
    + rewrite Hb. simpl. apply (Halt l1 a prev []). by rewrite <- app_assoc.
    + apply (Halt l1 a b (l2' ++ [prev])%list).
      by rewrite <- app_assoc.
  - apply snoc_split in Heq as [(-> & -> & Hinit) | (l2' & -> & Hinit)].
    + apply app_inj_tail in Hinit as [_ <-]. done.
    + apply (Halt l1 a b l2'). done.
Qed.

Section ToGoogleFacts.

Variable Content : Type.
Variable flattenOpenAIMessageContent : Content -> string.

Lemma contentsOf_snoc (messages : list (OpenAIMessage Content))
    (m : OpenAIMessage Content) :
  contentsOf Content flattenOpenAIMessageContent (messages ++ [m])%list
  = mergeStep (contentsOf Content flattenOpenAIMessageContent messages)
      (toGoogleContent Content flattenOpenAIMessageContent m).
Proof. unfold contentsOf. by rewrite map_app, fold_left_app. Qed.

Lemma contentsOf_nil_iff (messages : list (OpenAIMessage Content)) :
  contentsOf Content flattenOpenAIMessageContent messages = []
  <-> messages = [].
Proof.
  split; [|by intros ->].
  destruct messages as [|m messages _] using rev_ind; [done|].
  rewrite contentsOf_snoc. intros H. exfalso.
  destruct (mergeStep_cases
              (contentsOf Content flattenOpenAIMessageContent messages)
              (toGoogleContent Content flattenOpenAIMessageContent m))
    as [[_ Hm] | [(init & prev & _ & _ & Hm) | (init & prev & Hacc & _ & Hm)]];
    rewrite Hm in H.
  - discriminate.
  - by destruct init.
  - by apply app_eq_nil in H as [_ ?].
Qed.

(** X20. In the contents of the transformed request no two neighbours
    have the same role, every role is [user] or [model], and there are at
    most as many contents as messages. *)
Theorem contentsOf_roles_alternate (messages : list (OpenAIMessage Content)) :
  alternating (contentsOf Content flattenOpenAIMessageContent messages)
  /\ Forall (fun c => g_role c = "user" \/ g_role c = "model")
       (contentsOf Content flattenOpenAIMessageContent messages)
  /\ (length (contentsOf Content flattenOpenAIMessageContent messages)
      <= length messages)%nat.
Proof.
  induction messages as [|m messages (Halt & Hroles & Hlen)] using rev_ind.
  - split; [|split; [constructor | done]].
    intros l1 a b l2 H. by destruct l1.
  - rewrite contentsOf_snoc.
    split; [by apply mergeStep_alternating|].
    assert (Hm : g_role (toGoogleContent Content flattenOpenAIMessageContent m)
                 = "user"
                 \/ g_role (toGoogleContent Content
                              flattenOpenAIMessageContent m) = "model").
    { simpl. destruct (String.eqb (role m) "assistant"); auto. }
    rewrite length_app. simpl.
    destruct (mergeStep_cases
                (contentsOf Content flattenOpenAIMessageContent messages)
                (toGoogleContent Content flattenOpenAIMessageContent m))
      as [[Hacc ->] | [(init & prev & Hacc & Hrole & ->)
                      | (init & prev & Hacc & Hrole & ->)]].
    + split; [by apply Forall_singleton | simpl; lia].
    + rewrite Hacc in Hroles, Hlen.
      apply Forall_app in Hroles as [Hinit Hprev].
      rewrite Forall_singleton in Hprev.
      rewrite length_app in *. simpl in *.
      split; [|lia]. apply Forall_app. split; [done|].
      by apply Forall_singleton.
    + rewrite length_app. simpl. split; [|lia].
      apply Forall_app. split; [done|]. by apply Forall_singleton.
Qed.

(** X21. Merging loses no text: the texts of the contents, joined by
    blank lines, are the texts made of the messages one by one, joined by
    blank lines. *)
Theorem contentsOf_keeps_text (messages : list (OpenAIMessage Content)) :
  String.concat (LF ++ LF)
    (map text (contentsOf Content flattenOpenAIMessageContent messages))
  = String.concat (LF ++ LF)
      (map (fun m => text (toGoogleContent Content
                             flattenOpenAIMessageContent m))
         messages).
Proof.
  induction messages as [|m messages IH] using rev_ind; [done|].
  set (f := fun m => text (toGoogleContent Content
                             flattenOpenAIMessageContent m)) in *.
  rewrite contentsOf_snoc, (map_app f messages).
  change (map f [m]) with [f m].
  set (acc := contentsOf Content flattenOpenAIMessageContent messages) in *.
  destruct (mergeStep_cases acc
              (toGoogleContent Content flattenOpenAIMessageContent m))
    as [[Hacc ->] | [(init & prev & Hacc & Hrole & ->)
                    | (init & prev & Hacc & Hrole & ->)]].
  - apply contentsOf_nil_iff in Hacc as ->. done.
  - assert (Hne : map f messages <> []).
    { destruct messages; [by destruct init | done]. }
    rewrite (concat_snoc _ _ (map f messages)) by done.
    rewrite <- IH, Hacc, !map_app.
    apply concat_merge.
  - assert (Hne : map f messages <> []).
    { destruct messages; [by destruct init | done]. }
    rewrite (map_app text acc).
    rewrite (concat_snoc _ _ (map f messages)) by done.
    rewrite <- IH.
    apply concat_snoc.
    rewrite Hacc, map_app. by destruct (map text init).
Qed.

Lemma matchName_nonempty (fuel : nat) (acc s t : string) :
  matchName fuel acc s = Some t -> s <> "".
Proof. destruct fuel; simpl; intros H ->; discriminate. Qed.

Lemma toGoogleContent_text (m : OpenAIMessage Content) :
  truthy (text (toGoogleContent Content flattenOpenAIMessageContent m)) = true.
Proof.
  unfold toGoogleContent, textNameOf. cbv zeta.
  set (found := matchName 50 "" (flattenOpenAIMessageContent (content m))).
  assert (Hne : forall t, found = Some t ->
                  flattenOpenAIMessageContent (content m) <> "")
    by (intros t; apply matchName_nonempty).
  clearbody found. simpl.
  destruct (String.eqb (role m) "system"); simpl.
  - by destruct (derivedName _ _ m).
  - destruct found as [t|]; simpl.
    + destruct (truthy (trim t)); simpl.
      * specialize (Hne t eq_refl).
        by destruct (flattenOpenAIMessageContent (content m)).
      * by destruct (derivedName _ _ m).
    + by destruct (derivedName _ _ m).
Qed.

Lemma contentsOf_texts (messages : list (OpenAIMessage Content)) :
  Forall (fun c => truthy (text c) = true)
    (contentsOf Content flattenOpenAIMessageContent messages).
Proof.
  induction messages as [|m messages IH] using rev_ind; [constructor|].
  rewrite contentsOf_snoc.
  pose proof (toGoogleContent_text m) as Hm.
  destruct (mergeStep_cases
              (contentsOf Content flattenOpenAIMessageContent messages)
              (toGoogleContent Content flattenOpenAIMessageContent m))
    as [[Hacc ->] | [(init & prev & Hacc & Hrole & ->)
                    | (init & prev & Hacc & Hrole & ->)]].
  - by repeat constructor.
  - rewrite Hacc in IH. apply Forall_app in IH as [Hinit Hprev].
    rewrite Forall_singleton in Hprev.
    apply Forall_app. split; [done|]. apply Forall_singleton. simpl.
    by destruct (text prev).
  - apply Forall_app. split; [done|]. by apply Forall_singleton.
Qed.

(** X22. Round trip: the contents made of an OpenAI conversation, parsed
    and transformed back, give one message for each content, with the
    text of the content as its plain content and the role [assistant]
    for [model] and [user] otherwise. *)
Theorem contentsOf_round_trip (messages : list (OpenAIMessage Content)) :
  flat_map contentMessages
    (map asParsed (contentsOf Content flattenOpenAIMessageContent messages))
  = map (fun c => {| m_role := if String.eqb (g_role c) "model"
                               then "assistant" else "user";
                     m_content := Plain (text c) |})
      (contentsOf Content flattenOpenAIMessageContent messages).
Proof.
  pose proof (contentsOf_texts messages) as Htexts.
  induction (contentsOf Content flattenOpenAIMessageContent messages)
    as [|c cs IH]; [done|].
  apply Forall_cons in Htexts as [Hc Hcs]. simpl.
  rewrite (IH Hcs). f_equal.
  unfold contentMessages. simpl. rewrite Hc. simpl. f_equal. f_equal.
  destruct (String.eqb_spec (g_role c) "model") as [->|Hne].
  - by rewrite bool_decide_eq_true_2.
  - rewrite bool_decide_eq_false_2; [done | congruence].
Qed.

End ToGoogleFacts.

Lemma contentsOf_roles_alternate_witness :
  map g_role (contentsOf string (fun t => t) chat) = ["user"; "model"; "user"]
  /\ alternating (contentsOf string (fun t => t) chat).
Proof.
  split; [reflexivity|].
  apply (contentsOf_roles_alternate string (fun t => t) chat).
Defined.

End GoogleAIMessagesFacts.

Module GoogleAIBackFacts.
Import GoogleAI GoogleAIMessages GoogleAIMessagesTests.

(** A message worth sending: a text that is not empty, or a list of items
    that is not empty and holds no empty text. *)
Definition substantial (c : MessageContent) : Prop :=
  match c with
  | Plain t => t <> ""
  | Items items => items <> [] /\ Forall (fun it => it <> TextItem "") items
  end.

Lemma truthy_nonempty (s : string) : truthy s = true <-> s <> "".
Proof. destruct s; simpl; split; done. Qed.

Lemma partItems_substantial (ps : list Part) :
  Forall (fun it => it <> TextItem "") (flat_map partItems ps).
Proof.
  induction ps as [|p ps IH]; simpl; [constructor|].
  apply Forall_app. split; [|done].
  destruct p as [t|mimeType data]; simpl.
  - destruct (truthy t) eqn:Ht; [|constructor].
    apply Forall_singleton. intros [= ->]. discriminate.
  - by apply Forall_singleton.
Qed.

Lemma contentMessages_cases (c : GoogleAIContent) :
  contentMessages c = []
  \/ exists msg,
       contentMessages c = [msg]
       /\ (m_role msg = "user" \/ m_role msg = "assistant")
       /\ substantial (m_content msg)
       /\ (m_content msg = Items (flat_map partItems (parts c))
           \/ exists t, flat_map partItems (parts c) = [TextItem t]).
Proof.
  unfold contentMessages.
  pose proof (partItems_substantial (parts c)) as Hsub.
  assert (Hrole : forall r : string,
            r = (if bool_decide (c_role c = Some "model")
                 then "assistant" else "user") ->
            r = "user" \/ r = "assistant").
  { intros r ->. destruct (bool_decide _); auto. }
  destruct (flat_map partItems (parts c)) as [|it [|it' items]] eqn:Hitems.
  - by left.
  - right. destruct it as [t|url].
    + eexists. split; [done|]. simpl. split; [by apply Hrole|].
      split; [|eauto]. rewrite Forall_singleton in Hsub.
      intros ->. by apply Hsub.
    + eexists. split; [done|]. simpl. split; [by apply Hrole|].
      split; [|by left]. done.
  - right. destruct it as [t|url]; eexists; (split; [done|]); simpl;
      (split; [by apply Hrole|]); (split; [|by left]); done.
Qed.

(** X23. The messages made of a Google AI request are at most one system
    message, first, followed by at most one message for each content, of
    role [user] or [assistant]; contents without text or image give no
    message, and no message is empty. *)
Theorem transformGoogleAIToOpenAI_no_empty_message (googleData : GoogleData)
    (rawSystem : option RawParts) :
  exists system rest,
    o_messages (transformGoogleAIToOpenAI googleData rawSystem)
    = (system ++ rest)%list
    /\ (system = []
        \/ exists t, t <> ""
             /\ system = [ {| m_role := "system"; m_content := Plain t |} ])
    /\ Forall (fun msg => (m_role msg = "user" \/ m_role msg = "assistant")
                          /\ substantial (m_content msg)) rest
    /\ (length rest <= length (contents googleData))%nat.
Proof.
  exists (systemMessages (systemInstruction googleData) rawSystem),
         (flat_map contentMessages (contents googleData)).
  split; [done|]. split; [|split].
  - unfold systemMessages.
    destruct (systemText _ rawSystem) as [t|]; simpl; [|by left].
    destruct (truthy t) eqn:Ht; [|by left].
    right. exists t. split; [by apply truthy_nonempty | done].
  - induction (contents googleData) as [|c cs IH]; simpl; [constructor|].
    apply Forall_app. split; [|done].
    destruct (contentMessages_cases c) as [-> | (msg & -> & Hr & Hs & _)];
      [constructor|].
    by apply Forall_singleton.
  - induction (contents googleData) as [|c cs IH]; simpl; [done|].
    rewrite length_app.
    destruct (contentMessages_cases c) as [-> | (msg & -> & _)]; simpl; lia.
Qed.

(** X24. A transformed request carries an image exactly when
    [containsImageContent] says so of the contents it is made of; every
    image is a [data:] URL of the MIME type and the base64 data of a part
    of the request. *)
Theorem images_survive_transformation (googleData : GoogleData)
    (rawSystem : option RawParts) :
  (containsImageContent (contents googleData) = true
   <-> exists msg items url,
         msg ∈ o_messages (transformGoogleAIToOpenAI googleData rawSystem)
         /\ m_content msg = Items items
         /\ ImageUrlItem url ∈ items)
  /\ forall msg items url,
       msg ∈ o_messages (transformGoogleAIToOpenAI googleData rawSystem) ->
       m_content msg = Items items ->
       ImageUrlItem url ∈ items ->
       exists c mimeType data,
         c ∈ contents googleData
         /\ InlineDataPart mimeType data ∈ parts c
         /\ url = "data:" ++ mimeType ++ ";base64," ++ data.
Proof.
  assert (Hback : forall msg items url,
            msg ∈ o_messages (transformGoogleAIToOpenAI googleData rawSystem) ->
            m_content msg = Items items ->
            ImageUrlItem url ∈ items ->
            exists c mimeType data,
              c ∈ contents googleData
              /\ InlineDataPart mimeType data ∈ parts c
              /\ url = "data:" ++ mimeType ++ ";base64," ++ data).
  { intros msg items url Hmsg Hitems Hurl. simpl in Hmsg.
    apply elem_of_app in Hmsg as [Hsys | Hrest].
    { unfold systemMessages in Hsys.
      destruct (or_else _ None); [|by apply elem_of_nil in Hsys].
      apply list_elem_of_singleton in Hsys as ->. discriminate. }
    apply list_elem_of_In, in_flat_map in Hrest as (c & Hc & Hin).
    apply list_elem_of_In in Hc, Hin.
    destruct (contentMessages_cases c)
      as [Hnone | (msg' & Hone & _ & _ & Hshape)].
    { rewrite Hnone in Hin. by apply elem_of_nil in Hin. }
    rewrite Hone in Hin. apply list_elem_of_singleton in Hin as ->.
    assert (Hall : ImageUrlItem url ∈ flat_map partItems (parts c)).
    { destruct Hshape as [Heq | [t Heq]].
      - rewrite Hitems in Heq. by injection Heq as <-.
      - exfalso. unfold contentMessages in Hone. rewrite Heq in Hone.
        injection Hone as <-. discriminate. }
    apply list_elem_of_In, in_flat_map in Hall as (p & Hp & Hin).
    destruct p as [t|mimeType data]; simpl in Hin.
    - destruct (truthy t); simpl in Hin; [|done].
      by destruct Hin as [? | []].
    - destruct Hin as [[= <-] | []].
      exists c, mimeType, data. split; [done|].
      split; [by apply list_elem_of_In | done]. }
  split; [|exact Hback]. split.
  - unfold containsImageContent. intros Hex.
    apply existsb_exists in Hex as (c & Hc & Hp).
    apply existsb_exists in Hp as (p & Hp & Himg).
    destruct p as [t|mimeType data]; [discriminate|].
    assert (Hitem : ImageUrlItem ("data:" ++ mimeType ++ ";base64," ++ data)
                    ∈ flat_map partItems (parts c)).
    { apply list_elem_of_In, in_flat_map. eexists. split; [exact Hp|].
      simpl. by left. }
    exists {| m_role := if bool_decide (c_role c = Some "model")
                        then "assistant" else "user";
              m_content := Items (flat_map partItems (parts c)) |},
           (flat_map partItems (parts c)),
           ("data:" ++ mimeType ++ ";base64," ++ data).
    split; [|split; [done | exact Hitem]].
    simpl. apply elem_of_app. right.
    apply list_elem_of_In, in_flat_map. exists c. split; [done|].
    unfold contentMessages.
    destruct (flat_map partItems (parts c)) as [|it [|it' items]] eqn:Hitems.
    + by apply elem_of_nil in Hitem.
    + apply list_elem_of_singleton in Hitem as <-. by left.
    + destruct it; by left.
  - intros (msg & items & url & Hmsg & Hitems & Hurl).
    destruct (Hback msg items url Hmsg Hitems Hurl)
      as (c & mimeType & data & Hc & Hp & _).
    unfold containsImageContent. apply existsb_exists.
    exists c. split; [by apply list_elem_of_In|].
    apply existsb_exists. eexists. split; [by apply list_elem_of_In|]. done.
Qed.

Lemma images_survive_transformation_witness :
  map m_role (o_messages (transformGoogleAIToOpenAI pictured None))
  = ["system"; "user"; "assistant"]
  /\ exists msg items,
       msg ∈ o_messages (transformGoogleAIToOpenAI pictured None)
       /\ m_content msg = Items items
       /\ ImageUrlItem "data:image/png;base64,iVBORw0KGgo=" ∈ items.
Proof.
  split; [reflexivity|].
  destruct (proj1 (proj1 (images_survive_transformation pictured None))
              eq_refl) as (msg & items & url & Hmsg & Hitems & Hurl).
  destruct (proj2 (images_survive_transformation pictured None)
              msg items url Hmsg Hitems Hurl)
    as (c & mimeType & data & Hc & Hp & ->).
  exists msg, items. split; [done|]. split; [done|].
  apply list_elem_of_In in Hc. simpl in Hc.
  destruct Hc as [<- | [<- | [<- | []]]];
    apply list_elem_of_In in Hp; simpl in Hp.
  - destruct Hp as [? | [[= <- <-] | []]]; [discriminate | done].
  - by destruct Hp as [? | []].
  - by destruct Hp as [? | []].
Defined.

End GoogleAIBackFacts.

(** ** The router: catalogue cache, resolution of a request, responses *)

Module RouterOpsFacts.
Import Resolver ResolverTests ResolverFacts ResolverOpsFacts.
Import WhitelistGenerator WhitelistTests Router RouterTests.
Import RouterOps RouterOpsTests.

Section CatalogueFacts.

Variable OPENROUTER_FAMILY_MAP : list (string * string).
Variable regexTest : string -> string -> bool.

(** X25. When [resolveOpenRouterModel] sets the model of the request, it
    is the id of a model of the cached whitelist whose context window
    holds the prompt, free if the configuration forbids paid models and
    not moderated unless the configuration allows moderated ones; when it
    refuses, the status code is 400. *)
Theorem resolveOpenRouterModel_outcome
    (allowPaidOpenRouter allowModeratedOpenRouter : option bool)
    (now_check now_store : Z) (fetch : outcome RawResponse)
    (userModel : string) (promptTokens : option Z) (st st' : Cache)
    (result : Resolution) :
  resolveOpenRouterModel OPENROUTER_FAMILY_MAP regexTest
    allowPaidOpenRouter allowModeratedOpenRouter now_check now_store fetch
    userModel promptTokens st = (result, st') ->
  match result with
  | Resolved modelId =>
      exists whitelist m,
        whitelistCache st' = Some whitelist
        /\ m ∈ allModels whitelist
        /\ Resolver.id m = modelId
        /\ (default 0 promptTokens <= context m)%Z
        /\ (allowPaidOpenRouter = Some false ->
            pricing_input m = "0" /\ pricing_output m = "0")
        /\ (allowModeratedOpenRouter <> Some true -> is_moderated m = false)
  | Refused statusCode _ => statusCode = 400%Z
  | Crashed _ => True
  end.
Proof.
  unfold resolveOpenRouterModel. cbv zeta.
  set (st1 := match whitelistCache st with
              | Some _ => st
              | None => _
              end).
  destruct (whitelistCache st1) as [whitelist|] eqn:Hcache;
    [|by intros [= <- <-]].
  set (conf := {| allowPaid := default true allowPaidOpenRouter;
                  allowModerated := default false allowModeratedOpenRouter |}).
  destruct (resolveModel userModel whitelist conf)
    as [[modelData error]|e] eqn:Hres; [|by intros [= <- <-]].
  destruct (or_else error None) as [e|] eqn:Herror;
    [by intros [= <- <-]|].
  destruct modelData as [m|]; [|by intros [= <- <-]].
  destruct (context m <? default 0 promptTokens)%Z eqn:Hctx;
    intros [= <- <-]; [done|].
  apply Z.ltb_ge in Hctx.
  destruct (resolveModel_Some_inv _ _ _ _ _ Hres)
    as (_ & Hin & Hpaid & Hmod).
  exists whitelist, m.
  split; [done|]. split; [done|]. split; [done|]. split; [done|]. split.
  - intros ->. by apply Hpaid.
  - intros Hne. apply Hmod. simpl.
    destruct allowModeratedOpenRouter as [[|]|]; done.
Qed.

(** X26. The catalogue cache. A call of [refreshModels] that finds no
    cache younger than an hour and whose fetch succeeds returns the
    fetched list and caches the whitelist generated from it; for an hour
    from then on every call returns the same list and changes nothing,
    whatever a fetch would answer. A call whose fetch fails returns the
    old list, or an empty one, and changes nothing either. *)
Theorem refreshModels_cache (now_check now_store : Z)
    (fetch : outcome RawResponse) (st : Cache) :
  modelsCache st = None \/ (CACHE_TTL <= now_check - modelsCacheTime st)%Z ->
  match fetch with
  | Ret fetched =>
      exists st1,
        refreshModels OPENROUTER_FAMILY_MAP regexTest now_check now_store
          fetch st = (fetched, st1)
        /\ whitelistCache st1
           = Some (generateWhitelist OPENROUTER_FAMILY_MAP regexTest
                     (data fetched))
        /\ forall later later_store fetch',
             (later - now_store < 3600000)%Z ->
             refreshModels OPENROUTER_FAMILY_MAP regexTest later later_store
               fetch' st1 = (fetched, st1)
  | Throw _ =>
      refreshModels OPENROUTER_FAMILY_MAP regexTest now_check now_store
        fetch st
      = (default {| data := Some [] |} (modelsCache st), st)
  end.
Proof.
  intros Hstale.
  assert (Hmiss : forall f,
            refreshModels OPENROUTER_FAMILY_MAP regexTest now_check now_store
              f st
            = match f with
              | Ret fetched =>
                  (fetched,
                   {| whitelistCache :=
                        Some (generateWhitelist OPENROUTER_FAMILY_MAP
                                regexTest (data fetched));
                      modelsCache := Some fetched;
                      modelsCacheTime := now_store |})
              | Throw _ => (default {| data := Some [] |} (modelsCache st), st)
              end).
  { intros f. unfold refreshModels.
    destruct Hstale as [-> | Hold].
    - by destruct (_ <? _)%Z.
    - assert ((now_check - modelsCacheTime st <? CACHE_TTL)%Z = false) as ->
        by (by apply Z.ltb_ge).
      done. }
  destruct fetch as [fetched|e]; [|apply (Hmiss (Throw e))].
  eexists. split; [apply (Hmiss (Ret fetched))|]. split; [done|].
  intros later later_store fetch' Hyoung.
  unfold refreshModels. simpl.
  assert ((later - now_store <? CACHE_TTL)%Z = true) as ->
    by (by apply Z.ltb_lt).
  done.
Qed.

End CatalogueFacts.

Lemma resolveOpenRouterModel_outcome_witness :
  exists st',
    resolveOpenRouterModel familyRules caretTest None None 1000 1001
      (Ret upstreamAnswer) "gpt-4o" (Some 9000%Z) initialCache
    = (Resolved "openai/gpt-4o", st')
    /\ exists whitelist m,
         whitelistCache st' = Some whitelist
         /\ m ∈ allModels whitelist
         /\ Resolver.id m = "openai/gpt-4o"
         /\ (9000 <= context m)%Z.
Proof.
  destruct (resolveOpenRouterModel familyRules caretTest None None 1000 1001
              (Ret upstreamAnswer) "gpt-4o" (Some 9000%Z) initialCache)
    as [result st'] eqn:Hres.
  pose proof (resolveOpenRouterModel_outcome familyRules caretTest
                None None 1000 1001 (Ret upstreamAnswer) "gpt-4o"
                (Some 9000%Z) initialCache st' result Hres) as Hout.
  assert (result = Resolved "openai/gpt-4o") as ->
    by (vm_compute in Hres; by injection Hres as <- _).
  destruct Hout as (whitelist & m & Hc & Hin & Hid & Hctx & _).
  exists st'. split; [done|]. by exists whitelist, m.
Defined.

Lemma refreshModels_cache_witness :
  exists st1,
    refreshModels familyRules caretTest 1000 1001 (Ret upstreamAnswer)
      initialCache = (upstreamAnswer, st1)
    /\ refreshModels familyRules caretTest 3600000 3600002
         (Throw "ECONNRESET") st1 = (upstreamAnswer, st1).
Proof.
  destruct (refreshModels_cache familyRules caretTest 1000 1001
              (Ret upstreamAnswer) initialCache (or_introl eq_refl))
    as (st1 & Hfirst & _ & Hlater).
  exists st1. split; [exact Hfirst|].
  apply Hlater. lia.
Defined.

(** *** Responses *)

Lemma upper_ascii_idem (c : ascii) : upper_ascii (upper_ascii c) = upper_ascii c.
Proof. destruct c as [[] [] [] [] [] [] [] []]; reflexivity. Qed.

Lemma toUpperCase_idem (s : string) : toUpperCase (toUpperCase s) = toUpperCase s.
Proof.
  induction s as [|c s IH]; [done|].
  change (String (upper_ascii (upper_ascii c)) (toUpperCase (toUpperCase s))
          = String (upper_ascii c) (toUpperCase s)).
  by rewrite upper_ascii_idem, IH.
Qed.

(** A part or a block as a flag for a reasoning trace and its text. *)
Definition ofPart (p : GooglePart) : bool * string := (thought p, gp_text p).

Definition ofBlock (b : ContentBlock) : bool * string :=
  match b with
  | Thinking t _ => (true, t)
  | Text t => (false, t)
  end.

(** X27. The two shapes of one response agree. For a response whose first
    choice carries a message, the Google AI shape has one candidate whose
    parts are, in order and text for text, the blocks of the Anthropic
    shape: a reasoning trace first, if there is one, then the answer; its
    finish reason is in upper case. A response without choices gives no
    candidate, and a choice without a message makes both transformers
    throw. *)
Theorem responses_agree (openaiBody : OpenAIBody) (total_tokens : option Z) :
  match firstChoice openaiBody with
  | None =>
      transformOpenAIToGoogleResponse openaiBody total_tokens
      = Ret {| candidates := []; usageMetadata := None |}
  | Some choice =>
      match message choice with
      | None =>
          transformOpenAIToGoogleResponse openaiBody total_tokens
          = Throw "TypeError"
          /\ transformOpenAIToAnthropicResponse openaiBody = Throw "TypeError"
      | Some msg =>
          exists g a candidate,
            transformOpenAIToGoogleResponse openaiBody total_tokens = Ret g
            /\ transformOpenAIToAnthropicResponse openaiBody = Ret a
            /\ candidates g = [candidate]
            /\ map ofPart (c_parts candidate) = map ofBlock (a_content a)
            /\ (exists answer,
                  last (c_parts candidate)
                  = Some {| gp_text := answer; thought := false |})
            /\ toUpperCase (finishReason candidate) = finishReason candidate
      end
  end.
Proof.
  unfold transformOpenAIToGoogleResponse, transformOpenAIToAnthropicResponse.
  destruct (firstChoice openaiBody) as [choice|]; [|done].
  destruct (message choice) as [msg|]; [|done].
  eexists _, _, _. split; [done|]. split; [done|]. split; [done|]. simpl.
  split; [|split].
  - destruct (or_else (reasoning msg) (reasoning_content msg)) as [r|];
      simpl; [destruct (truthy r); simpl|];
      by destruct (or_else (content msg) (Some "")).
  - eexists. by rewrite last_snoc.
  - apply toUpperCase_idem.
Qed.

Lemma responses_agree_witness :
  exists g candidate,
    transformOpenAIToGoogleResponse reasoned None = Ret g
    /\ candidates g = [candidate]
    /\ map ofPart (c_parts candidate) = [(true, "2 and 2"); (false, "4")]
    /\ finishReason candidate = "STOP".
Proof.
  pose proof (responses_agree reasoned None) as H. simpl in H.
  destruct H as (g & a & candidate & Hg & Ha & Hc & Hparts & _ & _).
  exists g, candidate. split; [exact Hg|]. split; [exact Hc|].
  injection Ha as <-. simpl in Hparts.
  split; [exact Hparts|].
  injection Hg as <-. injection Hc as <-. reflexivity.
Defined.

End RouterOpsFacts.

(** ** The pseudo QR generator *)

Module PseudoQrFacts.
Import PseudoQr.

(** X28. From a state below 2^32 the generator computes, without ever
    leaving the integers below 2^53 that JavaScript numbers hold exactly,
    a state below 2^32 again; the cell it decides is a dot exactly when
    the new state is above 2^31. *)
Theorem nextState_exact (state : Z) :
  (0 <= state < 2 ^ 32)%Z ->
  (0 <= 1664525 * state + 1013904223 < 2 ^ 53)%Z
  /\ (0 <= nextState state < 2 ^ 32)%Z
  /\ (isDot (nextState state) = true <-> (2 ^ 31 < nextState state)%Z).
Proof.
  intros Hstate. split; [lia|]. split.
  - unfold nextState. apply Z.mod_pos_bound. lia.
  - unfold isDot, randomVal. rewrite negb_true_iff.
    set (s := nextState state). split.
    + intros H. apply Z.nle_gt. intros Hle.
      assert (Qle_bool (s # 4294967296) (1 # 2) = true) as Ht; [|congruence].
      apply Qle_bool_iff. unfold Qle. simpl. lia.
    + intros Hlt. destruct (Qle_bool (s # 4294967296) (1 # 2)) eqn:E; [|done].
      apply Qle_bool_iff in E. unfold Qle in E. simpl in E. lia.
Qed.

Lemma nextState_exact_witness :
  nextState 1700000000 = 1555574879%Z
  /\ (0 <= nextState 1700000000 < 2 ^ 32)%Z
  /\ isDot (nextState 1700000000) = false.
Proof.
  split; [reflexivity|].
  destruct (nextState_exact 1700000000) as (_ & Hrange & Hdot); [lia|].
  split; [exact Hrange|].
  destruct Hdot as [Hdot _].
  destruct (isDot (nextState 1700000000)); [|done].
  specialize (Hdot eq_refl). vm_compute in Hdot. discriminate.
Defined.

Lemma drawRow_shape (n : nat) (row col state : Z) :
  length (drawRow n row col state).1 = n
  /\ map (fun r => (x r, y r)) (drawRow n row col state).1
     = map (fun i => ((col + Z.of_nat i) * 10, row * 10)%Z) (seq 0 n)
  /\ Forall (fun r => (grey r = 254 \/ grey r = 255)%Z
                      /\ w r = 10%Z /\ h r = 10%Z)
       (drawRow n row col state).1.
Proof.
  revert col state. induction n as [|n IH]; intros col state; simpl.
  - by repeat split.
  - destruct (drawRow n row (col + 1) (nextState state)) as [rects st] eqn:Hrow.
    specialize (IH (col + 1)%Z (nextState state)). rewrite Hrow in IH.
    destruct IH as (Hlen & Hpos & Hall). simpl in *.
    split; [by rewrite Hlen|]. split.
    + f_equal; [f_equal; unfold cellSize; lia|].
      rewrite Hpos, <- seq_shift, map_map.
      apply map_ext. intros i. f_equal. lia.
    + constructor; [|done]. simpl.
      split; [destruct (isDot _); auto | done].
Qed.

Lemma flat_map_seq_shift {A} (f : nat -> list A) (start len : nat) :
  flat_map f (seq (S start) len) = flat_map (fun j => f (S j)) (seq start len).
Proof.
  revert start. induction len as [|len IH]; intros start; [done|].
  simpl. by rewrite IH.
Qed.

Lemma drawRows_shape (n : nat) (row state : Z) :
  map (fun r => (x r, y r)) (drawRows n row state).1
  = flat_map (fun j => map (fun i => (Z.of_nat i * 10, (row + Z.of_nat j) * 10)%Z)
                         (seq 0 gridSize))
      (seq 0 n)
  /\ Forall (fun r => (grey r = 254 \/ grey r = 255)%Z
                      /\ w r = 10%Z /\ h r = 10%Z)
       (drawRows n row state).1.
Proof.
  revert row state. induction n as [|n IH]; intros row state.
  - by split.
  - cbn [drawRows].
    destruct (drawRow gridSize row 0 state) as [rects st] eqn:Hrow.
    destruct (drawRows n (row + 1) st) as [rest st'] eqn:Hrows.
    destruct (drawRow_shape gridSize row 0 state) as (_ & Hpos & Hall).
    rewrite Hrow in Hpos, Hall.
    destruct (IH (row + 1)%Z st) as [Hpos' Hall']. rewrite Hrows in Hpos', Hall'.
    cbn [fst] in *. split.
    + rewrite map_app, Hpos, Hpos'.
      change (seq 0 (S n)) with (0%nat :: seq 1 n). cbn [flat_map].
      f_equal.
      * apply map_ext. intros i. f_equal. lia.
      * rewrite flat_map_seq_shift.
        apply flat_map_ext. intros j. apply map_ext. intros i. f_equal. lia.
    + by apply Forall_app.
Qed.

(** X29. Whatever the time, the drawing is 64 squares of side 10, one for
    each cell of the grid of 8 by 8, row after row, each filled with the
    grey 254 or the grey 255. *)
Theorem drawGrid_cells (now : Z) :
  length (drawGrid now) = 64%nat
  /\ map (fun r => (x r, y r)) (drawGrid now)
     = flat_map (fun j => map (fun i => (Z.of_nat i * 10, Z.of_nat j * 10)%Z)
                            (seq 0 8))
         (seq 0 8)
  /\ Forall (fun r => (grey r = 254 \/ grey r = 255)%Z
                      /\ w r = 10%Z /\ h r = 10%Z)
       (drawGrid now).
Proof.
  unfold drawGrid. cbv zeta.
  destruct (drawRows_shape gridSize 0 (now / 1000)) as [Hpos Hall].
  assert (Hpos8 :
    map (fun r => (x r, y r)) (drawRows gridSize 0 (now / 1000)).1
    = flat_map (fun j => map (fun i => (Z.of_nat i * 10, Z.of_nat j * 10)%Z)
                           (seq 0 8))
        (seq 0 8)).
  { rewrite Hpos. apply flat_map_ext. intros j. apply map_ext. intros i.
    f_equal. }
  split; [|split; [exact Hpos8 | exact Hall]].
  rewrite <- (length_map (fun r => (x r, y r))), Hpos8. reflexivity.
Qed.

End PseudoQrFacts.
